(** * Connection pool with client-abort simulation

    A shallow embedding of [db_connection/pool.go] and of the orchestrator
    [practice/db_connection/cmd/main.go].

    The Go code is glue around three library packages: [database/sql] (the
    handle [*sql.DB]), [context] (deadlines) and [sync] (the wait group).
    The functions of the repository are translated statement by statement
    into a small state-and-panic monad; the library calls they make are
    given by a reference model of the documented behaviour of those
    packages, driven by an oracle ([Driver]) that stands for the MySQL
    driver and the store behind it. *)

From Stdlib Require Import ZArith String Bool Lia.
From stdpp Require Import base list.

Local Open Scope string_scope.
Local Open Scope list_scope.
Local Open Scope Z_scope.

(* ===================================================================== *)
(** * Go values used by the code *)
(* ===================================================================== *)

(** [time.Duration] is a count of nanoseconds; [time.Time] is read off a
    monotonic clock, also in nanoseconds. *)
Definition Duration := Z.
Definition Time := Z.

Definition Second : Duration := 1000000000.
Definition Minute : Duration := 60 * Second.

(** Error values.  [DeadlineExceeded] and [Canceled] are the sentinels of
    package [context]; [errDBClosed] is the unexported
    [errors.New("sql: database is closed")] of [database/sql];
    [DriverError] is any error made up by the driver or the store;
    [Errorf fmt e] is [fmt.Errorf(fmt, e)] for a format ending in [%w]. *)
Inductive error : Type :=
| DeadlineExceeded
| Canceled
| errDBClosed
| DriverError (msg : string)
| Errorf (format : string) (cause : error).

(** [errors.Unwrap] and [errors.Is]. *)
Definition Unwrap (e : error) : option error :=
  match e with
  | Errorf _ c => Some c
  | _ => None
  end.

Fixpoint error_eqb (a b : error) : bool :=
  match a, b with
  | DeadlineExceeded, DeadlineExceeded => true
  | Canceled, Canceled => true
  | errDBClosed, errDBClosed => true
  | DriverError m, DriverError m' => String.eqb m m'
  | Errorf f c, Errorf f' c' => String.eqb f f' && error_eqb c c'
  | _, _ => false
  end.

Fixpoint errors_Is (e target : error) : bool :=
  error_eqb e target ||
  match e with
  | Errorf _ c => errors_Is c target
  | _ => false
  end.

(** Arguments of a query.  [queryDuration.Seconds()] is a [float64]; the
    conversion is kept symbolic: the argument records the duration it was
    computed from. *)
Inductive Arg : Type :=
| ArgSeconds (d : Duration).

(** Operands of the formatting verbs [%d] and [%v]. *)
Inductive Val : Type :=
| VInt (z : Z)
| VDur (d : Duration)
| VErr (e : error).

(** What the process writes: [log.Printf] lines and [fmt.Println] lines. *)
Inductive Event : Type :=
| EvLog (format : string) (args : list Val)
| EvPrintln (line : string).

(* ===================================================================== *)
(** * Package context *)
(* ===================================================================== *)

(** A context is described by its deadline, if any, and by the instant at
    which it (or an ancestor) gets cancelled by a cancel function, if
    ever. *)
Record Context : Type := mkContext {
  ctx_deadline : option Time;
  ctx_cancelAt : option Time
}.

Definition Background : Context := mkContext None None.

(** [context.WithTimeout(parent, d)] at clock reading [now]: the deadline
    is [now + d] unless the parent's is earlier. *)
Definition WithTimeout (parent : Context) (d : Duration) (now : Time) : Context :=
  mkContext
    (Some match ctx_deadline parent with
          | Some dl => Z.min dl (now + d)
          | None => now + d
          end)
    (ctx_cancelAt parent).

(** The instant at which the context is done, with the error [ctx.Err()]
    reports from then on. *)
Definition ctx_fire (c : Context) : option (Time * error) :=
  match ctx_deadline c, ctx_cancelAt c with
  | None, None => None
  | Some dl, None => Some (dl, DeadlineExceeded)
  | None, Some tc => Some (tc, Canceled)
  | Some dl, Some tc =>
      if tc <? dl then Some (tc, Canceled) else Some (dl, DeadlineExceeded)
  end.

Definition ctx_Err (c : Context) (t : Time) : option error :=
  match ctx_fire c with
  | Some (at_, e) => if at_ <=? t then Some e else None
  | None => None
  end.

(* ===================================================================== *)
(** * Package sync: the wait group *)
(* ===================================================================== *)

(** [sync.WaitGroup] keeps its counter as the signed high 32 bits of one
    64-bit word: [Add(delta)] adds [uint64(delta) << 32] to the word and
    panics when the resulting [int32] counter is negative.  [Done()] is
    [Add(-1)]; [Wait()] returns once the counter is zero.  The waiter count
    in the low half of the word plays no part here: the code calls [Add]
    before [Wait], in one goroutine. *)
Definition wrap32 (z : Z) : Z := (z + 2 ^ 31) mod 2 ^ 32 - 2 ^ 31.

Definition wg_Add (delta : Z) (counter : Z) : option Z :=
  let v := wrap32 (counter + delta) in
  if v <? 0 then None else Some v.

(* ===================================================================== *)
(** * Package database/sql: the handle and the driver behind it *)
(* ===================================================================== *)

(** [sql.DBStats], the snapshot returned by [db.Stats()]. *)
Record DBStats : Type := mkDBStats {
  MaxOpenConnections : Z;
  OpenConnections : Z;
  InUse : Z;
  Idle : Z;
  WaitCount : Z;
  WaitDuration : Duration;
  MaxIdleClosed : Z;
  MaxIdleTimeClosed : Z;
  MaxLifetimeClosed : Z
}.

(** The live counters a handle keeps about its connections. *)
Record Counters : Type := mkCounters {
  n_open : Z;
  n_inUse : Z;
  n_idle : Z;
  n_waitCount : Z;
  n_waitDuration : Duration;
  n_maxIdleClosed : Z;
  n_maxIdleTimeClosed : Z;
  n_maxLifetimeClosed : Z
}.

Definition zeroCounters : Counters := mkCounters 0 0 0 0 0 0 0 0.

(** What the driver and the store answer to one interaction: how long the
    answer takes, the error it carries (if any), and what the interaction
    does to the live counters of the handle. *)
Record Reply : Type := mkReply {
  latency : Duration;
  outcome : option error;
  counters : Counters -> Counters
}.

(** The driver and the store are the environment.  Each interaction is
    numbered (the first argument), so that the environment may answer the
    same request differently each time. *)
Record Driver : Type := mkDriver {
  drv_open : string -> string -> option error;
  drv_ping : nat -> string -> Reply;
  drv_query : nat -> string -> string -> list Arg -> Reply;
  drv_close : nat -> string -> Reply
}.

(** The state of a [sql.DB]: the limits are the last values handed to the
    four setters ([None]: never set; enforcing them is the library's
    business). *)
Record sqlDB : Type := mksqlDB {
  db_dsn : string;
  db_closed : bool;
  db_maxOpen : option Z;
  db_maxIdle : option Z;
  db_maxLifetime : option Duration;
  db_maxIdleTime : option Duration;
  db_live : Counters
}.

(** [*sql.DB]: [None] is [nil], [Some i] is the [i]-th handle allocated. *)
Definition ptr := option nat.

Inductive Rows : Type := RowsHandle.

(* ===================================================================== *)
(** * The repository's types *)
(* ===================================================================== *)

Record DBPool : Type := mkDBPool { DB : ptr }.

Record PoolConfig : Type := mkPoolConfig {
  MaxOpenConns : Z;
  MaxIdleConns : Z;
  ConnMaxLifetime : Duration;
  ConnMaxIdleTime : Duration
}.

(** A client task: the goroutine started by [SimulateMultipleClientAborts],
    with the variables its closure captured and its program point. *)
Inductive ClientPC : Type :=
| CStart                         (* before the "Starting simulation" line *)
| CQuery                         (* before [p.SimulateClientAbort(...)] *)
| CReport (err : option error)   (* [err] in hand, before the outcome line *)
| CDefer                         (* before the deferred [wg.Done()] *)
| CDone.

Record Client : Type := mkClient {
  c_id : Z;
  c_pool : DBPool;
  c_ctx : Context;
  c_queryDuration : Duration;
  c_abortAfter : Duration;
  c_pc : ClientPC
}.

(* ===================================================================== *)
(** * Process state and the monad of the embedding *)
(* ===================================================================== *)

Record Proc : Type := mkProc {
  tick : nat;               (* interactions with the driver so far *)
  handles : list sqlDB;     (* the [sql.DB] objects allocated so far *)
  out : list Event;         (* everything logged or printed so far *)
  wg : Z;                   (* counter of the one [sync.WaitGroup] *)
  tasks : list Client       (* the client goroutines spawned so far *)
}.

Definition emptyProc : Proc := mkProc 0 [] [] 0 [].

Inductive Result (A : Type) : Type :=
| Ok (a : A) (s : Proc)
| Panic (msg : string) (s : Proc).
Arguments Ok {A} a s.
Arguments Panic {A} msg s.

Definition M (A : Type) : Type := Proc -> Result A.

Definition ret {A} (a : A) : M A := fun s => Ok a s.

Definition bind {A B} (m : M A) (k : A -> M B) : M B :=
  fun s =>
    match m s with
    | Ok a s' => k a s'
    | Panic msg s' => Panic msg s'
    end.

Notation "x <- m ;; k" := (bind m (fun x => k))
  (at level 100, m at next level, k at level 200, right associativity).
Notation "m ;;; k" := (bind m (fun _ => k))
  (at level 100, k at level 200, right associativity).

Definition panic {A} (msg : string) : M A := fun s => Panic msg s.

Definition final {A} (r : Result A) : Proc :=
  match r with
  | Ok _ s => s
  | Panic _ s => s
  end.

(** ** Primitive effects *)

Definition emit (e : Event) : M unit :=
  fun s => Ok tt (mkProc (tick s) (handles s) (out s ++ [e]) (wg s) (tasks s)).

Definition next_tick : M nat :=
  fun s => Ok (tick s) (mkProc (S (tick s)) (handles s) (out s) (wg s) (tasks s)).

Definition alloc (d : sqlDB) : M ptr :=
  fun s => Ok (Some (length (handles s)))
              (mkProc (tick s) (handles s ++ [d]) (out s) (wg s) (tasks s)).

Definition nilDeref : string :=
  "runtime error: invalid memory address or nil pointer dereference".

Definition deref (h : ptr) : M sqlDB :=
  fun s =>
    match h with
    | Some i =>
        match handles s !! i with
        | Some d => Ok d s
        | None => Panic nilDeref s
        end
    | None => Panic nilDeref s
    end.

Definition store (h : ptr) (d : sqlDB) : M unit :=
  fun s =>
    match h with
    | Some i =>
        Ok tt (mkProc (tick s) (<[i := d]> (handles s)) (out s) (wg s) (tasks s))
    | None => Panic nilDeref s
    end.

Definition log_Printf (format : string) (args : list Val) : M unit :=
  emit (EvLog format args).

Definition fmt_Println (line : string) : M unit :=
  emit (EvPrintln line).

(** ** Reference model of the [database/sql] calls the code makes *)

Section Library.
Variable drv : Driver.

(** [sql.Open(driverName, dsn)]: the driver parses the DSN; no connection
    is made yet. *)
Definition sql_Open (driverName dsn : string) : M (ptr * option error) :=
  match drv_open drv driverName dsn with
  | Some e => ret (None, Some e)
  | None =>
      h <- alloc (mksqlDB dsn false None None None None zeroCounters) ;;
      ret (h, None)
  end.

Definition SetMaxOpenConns (h : ptr) (n : Z) : M unit :=
  d <- deref h ;;
  store h (mksqlDB (db_dsn d) (db_closed d) (Some n) (db_maxIdle d)
                   (db_maxLifetime d) (db_maxIdleTime d) (db_live d)).

Definition SetMaxIdleConns (h : ptr) (n : Z) : M unit :=
  d <- deref h ;;
  store h (mksqlDB (db_dsn d) (db_closed d) (db_maxOpen d) (Some n)
                   (db_maxLifetime d) (db_maxIdleTime d) (db_live d)).

Definition SetConnMaxLifetime (h : ptr) (t : Duration) : M unit :=
  d <- deref h ;;
  store h (mksqlDB (db_dsn d) (db_closed d) (db_maxOpen d) (db_maxIdle d)
                   (Some t) (db_maxIdleTime d) (db_live d)).

Definition SetConnMaxIdleTime (h : ptr) (t : Duration) : M unit :=
  d <- deref h ;;
  store h (mksqlDB (db_dsn d) (db_closed d) (db_maxOpen d) (db_maxIdle d)
                   (db_maxLifetime d) (Some t) (db_live d)).

Definition set_live (d : sqlDB) (f : Counters -> Counters) : sqlDB :=
  mksqlDB (db_dsn d) (db_closed d) (db_maxOpen d) (db_maxIdle d)
          (db_maxLifetime d) (db_maxIdleTime d) (f (db_live d)).

(** [db.Ping()]: a closed handle answers [errDBClosed]; otherwise the
    driver is asked. *)
Definition Ping (h : ptr) : M (option error) :=
  d <- deref h ;;
  if db_closed d then ret (Some errDBClosed)
  else
    k <- next_tick ;;
    let r := drv_ping drv k (db_dsn d) in
    store h (set_live d (counters r)) ;;;
    ret (outcome r).

(** [db.Close()]: closing a closed handle is a no-op returning [nil]. *)
Definition sql_Close (h : ptr) : M (option error) :=
  d <- deref h ;;
  if db_closed d then ret None
  else
    k <- next_tick ;;
    let r := drv_close drv k (db_dsn d) in
    store h (mksqlDB (db_dsn d) true (db_maxOpen d) (db_maxIdle d)
                     (db_maxLifetime d) (db_maxIdleTime d)
                     (counters r (db_live d))) ;;;
    ret (outcome r).

(** [db.Stats()]: the limit on open connections ([0]: none, also for a
    negative setting) and the live counters, as they are at the call. *)
Definition snapshot (d : sqlDB) : DBStats :=
  mkDBStats
    match db_maxOpen d with
    | Some n => Z.max 0 n
    | None => 0
    end
    (n_open (db_live d)) (n_inUse (db_live d)) (n_idle (db_live d))
    (n_waitCount (db_live d)) (n_waitDuration (db_live d))
    (n_maxIdleClosed (db_live d)) (n_maxIdleTimeClosed (db_live d))
    (n_maxLifetimeClosed (db_live d)).

Definition Stats (h : ptr) : M DBStats :=
  d <- deref h ;;
  ret (snapshot d).

(** [db.QueryContext(ctx, query, args...)], called at clock reading
    [now].  A closed handle answers [errDBClosed]; a context that is
    already done answers [ctx.Err()]; otherwise the call is a race
    between the reply of the store and the context: when the context
    fires strictly before the reply arrives (it has fired by
    [now + latency - 1]), the call returns [ctx.Err()]. *)
Definition QueryContext (h : ptr) (ctx : Context) (query : string)
    (args : list Arg) (now : Time) : M (option Rows * option error) :=
  d <- deref h ;;
  if db_closed d then ret (None, Some errDBClosed)
  else
    match ctx_Err ctx now with
    | Some e => ret (None, Some e)
    | None =>
        k <- next_tick ;;
        let r := drv_query drv k (db_dsn d) query args in
        store h (set_live d (counters r)) ;;;
        match ctx_Err ctx (now + latency r - 1) with
        | Some e => ret (None, Some e)
        | None =>
            match outcome r with
            | Some e => ret (None, Some e)
            | None => ret (Some RowsHandle, None)
            end
        end
    end.

(* =================================================================== *)
(** * db_connection/pool.go *)
(* =================================================================== *)

Definition NewDBPool (dsn : string) (config : PoolConfig)
  : M (option DBPool * option error) :=
  r <- sql_Open "mysql" dsn ;;
  let '(db, err) := r in
  match err with
  | Some e => ret (None, Some (Errorf "failed to open database: %w" e))
  | None =>
      SetMaxOpenConns db (MaxOpenConns config) ;;;
      SetMaxIdleConns db (MaxIdleConns config) ;;;
      SetConnMaxLifetime db (ConnMaxLifetime config) ;;;
      SetConnMaxIdleTime db (ConnMaxIdleTime config) ;;;
      perr <- Ping db ;;
      match perr with
      | Some e => ret (None, Some (Errorf "failed to ping database: %w" e))
      | None =>
          log_Printf "Database connection pool configured:" [] ;;;
          log_Printf "  Max Open Connections: %d" [VInt (MaxOpenConns config)] ;;;
          log_Printf "  Max Idle Connections: %d" [VInt (MaxIdleConns config)] ;;;
          log_Printf "  Connection Max Lifetime: %v" [VDur (ConnMaxLifetime config)] ;;;
          log_Printf "  Connection Max Idle Time: %v" [VDur (ConnMaxIdleTime config)] ;;;
          ret (Some (mkDBPool db), None)
      end
  end.

Definition Close (p : DBPool) : M (option error) :=
  sql_Close (DB p).

Definition GetStats (p : DBPool) : M DBStats :=
  Stats (DB p).

Definition PrintStats (p : DBPool) : M unit :=
  stats <- GetStats p ;;
  log_Printf "Connection Pool Stats:" [] ;;;
  log_Printf "  Open Connections: %d" [VInt (OpenConnections stats)] ;;;
  log_Printf "  In Use: %d" [VInt (InUse stats)] ;;;
  log_Printf "  Idle: %d" [VInt (Idle stats)] ;;;
  log_Printf "  Wait Count: %d" [VInt (WaitCount stats)] ;;;
  log_Printf "  Wait Duration: %v" [VDur (WaitDuration stats)] ;;;
  log_Printf "  Max Idle Closed: %d" [VInt (MaxIdleClosed stats)] ;;;
  log_Printf "  Max Idle Time Closed: %d" [VInt (MaxIdleTimeClosed stats)] ;;;
  log_Printf "  Max Lifetime Closed: %d" [VInt (MaxLifetimeClosed stats)].

(** [now] is the clock reading taken by [context.WithTimeout]; the
    deferred [cancel()] releases the timer and has no effect on what
    the function returns. *)
Definition SimulateClientAbort (p : DBPool) (ctx : Context)
    (queryDuration abortAfter : Duration) (now : Time) : M (option error) :=
  let abortCtx := WithTimeout ctx abortAfter now in
  let query := "SELECT SLEEP(?)" in
  log_Printf
    "Starting query that will run for %v, but client will abort after %v"
    [VDur queryDuration; VDur abortAfter] ;;;
  r <- QueryContext (DB p) abortCtx query [ArgSeconds queryDuration] now ;;
  let '(_, err) := r in
  match err with
  | Some e =>
      match e with
      | DeadlineExceeded =>
          log_Printf
            "Client aborted connection after %v (simulating client abort)"
            [VDur abortAfter] ;;;
          ret (Some (Errorf "client abort simulated: %w" e))
      | _ => ret (Some (Errorf "query failed: %w" e))
      end
  | None =>
      log_Printf "Query completed successfully (no abort occurred)" [] ;;;
      ret None
  end.

End Library.

(** [wg.Add(delta)] and [wg.Done()] on the wait group of the process. *)
Definition WaitGroup_Add (delta : Z) : M unit :=
  fun s =>
    match wg_Add delta (wg s) with
    | Some v => Ok tt (mkProc (tick s) (handles s) (out s) v (tasks s))
    | None => Panic "sync: negative WaitGroup counter" s
    end.

Definition WaitGroup_Done : M unit := WaitGroup_Add (-1).

(** The [go] statement: the new goroutine becomes runnable. *)
Definition go_client (c : Client) : M unit :=
  fun s => Ok tt (mkProc (tick s) (handles s) (out s) (wg s) (tasks s ++ [c])).

(** [for i := i0; ...; i++] with the number of iterations known on
    entry. *)
Fixpoint for_loop (iterations : nat) (i : Z) (body : Z -> M unit) : M unit :=
  match iterations with
  | O => ret tt
  | S k => body i ;;; for_loop k (i + 1) body
  end.

(** The loop [for i := 0; i < numClients; i++] runs [numClients] times,
    and not at all when [numClients <= 0]: [Z.to_nat numClients]
    iterations.  Each one starts the goroutine of client [i + 1]. *)
Definition SimulateMultipleClientAborts (p : DBPool) (ctx : Context)
    (numClients : Z) (queryDuration abortAfter : Duration) : M unit :=
  log_Printf "Simulating %d client aborts" [VInt numClients] ;;;
  WaitGroup_Add numClients ;;;
  for_loop (Z.to_nat numClients) 0
    (fun i => go_client (mkClient (i + 1) p ctx queryDuration abortAfter CStart)).

(* ===================================================================== *)
(** * The words of the specification *)
(* ===================================================================== *)

(** The three outcomes of a client, read off what [SimulateClientAbort]
    returned: [nil], the client-abort wrapper, or anything else. *)
Inductive Outcome : Type := Completed | Aborted | Failed.

Definition outcome_of (r : option error) : Outcome :=
  match r with
  | None => Completed
  | Some (Errorf f _) =>
      if String.eqb f "client abort simulated: %w" then Aborted else Failed
  | Some _ => Failed
  end.

(** The error taxonomy of the specification, read off the wrapper the
    code put around the cause.  No wrapper of the code stands for a closed
    pool. *)
Inductive ErrorKind : Type :=
| ConnectionError
| ClientAbortedError
| QueryError
| PoolClosedError.

Definition kind_of (e : error) : option ErrorKind :=
  match e with
  | Errorf f _ =>
      if String.eqb f "failed to open database: %w" then Some ConnectionError
      else if String.eqb f "failed to ping database: %w" then Some ConnectionError
      else if String.eqb f "client abort simulated: %w" then Some ClientAbortedError
      else if String.eqb f "query failed: %w" then Some QueryError
      else None
  | _ => None
  end.

(** The lines by which a client goroutine records its outcome. *)
Definition is_outcome (e : Event) : bool :=
  match e with
  | EvLog f _ =>
      String.eqb f "Client %d: %v" ||
      String.eqb f "Client %d: Completed successfully"
  | EvPrintln _ => false
  end.

Fixpoint outcomes (l : list Event) : Z :=
  match l with
  | [] => 0
  | e :: rest => (if is_outcome e then 1 else 0) + outcomes rest
  end.

(* ===================================================================== *)
(** * practice/db_connection/cmd/main.go: the process as a transition system *)
(* ===================================================================== *)

(** The goroutines of the process are [main], [simulateClientAborts] and
    the client tasks.  One step is one statement of one goroutine; a call
    of a function of [pool.go] counts as one statement (the goroutines
    share nothing but the handle, the wait group and the log), but for the
    call of [SimulateMultipleClientAborts], which starts goroutines: its
    statements are steps of their own, so that a client runs from its
    [go] statement on, concurrently with the rest of the loop.  All
    interleavings of the steps are considered. *)

(** Program points of [main] and of the goroutine [simulateClientAborts]. *)
Inductive MainPC : Type :=
| MStart      (* before [NewDBPool] *)
| MInit       (* pool built, [defer pool.Close()] registered *)
| MLoop       (* in the [for { select ... }] loop *)
| MDone.      (* completion received, about to return *)

Inductive SimPC : Type :=
| SNone       (* not started *)
| SStart      (* started, at [fmt.Println] *)
| SCall       (* in [SimulateMultipleClientAborts], at its [log.Printf] *)
| SAdd        (* at [wg.Add(numClients)] *)
| SSpawn (i : Z)  (* at the test [i < numClients] of the loop *)
| SWait       (* at [wg.Wait()] *)
| SStats      (* at [pool.PrintStats()] *)
| SSend       (* at [ch <- struct{}{}] *)
| SDone.

Inductive Halt : Type :=
| Exit (status : Z)
| Crash (msg : string).

Record Sys : Type := mkSys {
  proc : Proc;
  pool : option DBPool;
  mainpc : MainPC;
  simpc : SimPC;
  halted : option Halt
}.

(** The constants of the program.  [main] and [simulateClientAborts] fix
    them ([mainSetup]); the transition system takes them as a parameter so
    that other scenarios can be run. *)
Record Scenario : Type := mkScenario {
  sc_ctx : Context;
  numClients : Z;
  queryDuration : Duration;
  abortAfter : Duration
}.

Record Setup : Type := mkSetup {
  dsn : string;
  config : PoolConfig;
  scenario : Scenario
}.

Definition mainScenario : Scenario :=
  mkScenario Background 5 (15 * Minute) (10 * Minute).

Definition mainSetup : Setup :=
  mkSetup "appuser:apppassword@tcp(localhost:3306)/practice_db?parseTime=true"
          (mkPoolConfig 25 1 (1 * Second) (1 * Second))
          mainScenario.

(** One scheduling decision: which goroutine runs its next statement.
    [ActTick] is the ticker firing while [main] is in its [select];
    [ActRecv] is the rendezvous on the unbuffered channel [ch];
    [ActClient i now] runs client task number [i], [now] being the clock
    reading should the statement take one. *)
Inductive Action : Type :=
| ActMain
| ActTick
| ActRecv
| ActSim
| ActClient (i : nat) (now : Time).

Definition set_pc (i : nat) (pc : ClientPC) (s : Proc) : Proc :=
  match tasks s !! i with
  | Some c =>
      mkProc (tick s) (handles s) (out s) (wg s)
             (<[i := mkClient (c_id c) (c_pool c) (c_ctx c) (c_queryDuration c)
                              (c_abortAfter c) pc]> (tasks s))
  | None => s
  end.

Section Process.
Variable drv : Driver.
Variable pg : Setup.

(** Runs [m] in [s]; a panic brings the whole process down. *)
Definition run_in {A} (s : Sys) (m : M A) (k : A -> Proc -> Sys) : Sys :=
  match m (proc s) with
  | Ok a p' => k a p'
  | Panic msg p' => mkSys p' (pool s) (mainpc s) (simpc s) (Some (Crash msg))
  end.

(** A method call on the [*DBPool] held by [main]; on [nil] it panics. *)
Definition on_pool {A} (s : Sys) (f : DBPool -> M A) : M A :=
  match pool s with
  | Some p => f p
  | None => panic nilDeref
  end.

(** The next statement of [main], outside its [select]. *)
Definition main_step (s : Sys) : option Sys :=
  match mainpc s with
  | MStart =>
      Some (run_in s (NewDBPool drv (dsn pg) (config pg)) (fun r p' =>
        match r with
        | (_, Some err) =>
            (* log.Fatalf: print, then os.Exit(1) *)
            mkSys (final (log_Printf "Failed to create database pool: %v"
                                     [VErr err] p'))
                  None MStart (simpc s) (Some (Exit 1))
        | (p, None) => mkSys p' p MInit (simpc s) None
        end))
  | MInit =>
      Some (run_in s
        (fmt_Println "=== Database Connection Pool with Client Abort Simulation ===" ;;;
         on_pool s (PrintStats))
        (fun _ p' => mkSys p' (pool s) MLoop SStart None))
  | MLoop => None
  | MDone =>
      (* return: the deferred pool.Close() runs, then the process ends *)
      Some (run_in s (on_pool s (Close drv))
        (fun _ p' => mkSys p' (pool s) MDone (simpc s) (Some (Exit 0))))
  end.

(** [case <-ticker.C] of the [select] in [main]. *)
Definition main_tick (s : Sys) : option Sys :=
  match mainpc s with
  | MLoop =>
      Some (run_in s (on_pool s PrintStats)
        (fun _ p' => mkSys p' (pool s) MLoop (simpc s) None))
  | _ => None
  end.

(** [case <-ch] of the [select] in [main], taken together with the send
    of [simulateClientAborts]. *)
Definition main_recv (s : Sys) : option Sys :=
  match mainpc s, simpc s with
  | MLoop, SSend =>
      Some (run_in s (fmt_Println "Client abort simulation finished")
        (fun _ p' => mkSys p' (pool s) MDone SDone None))
  | _, _ => None
  end.

(** The next statement of [simulateClientAborts], up to its send.  The
    call [pool.SimulateMultipleClientAborts(ctx, numClients, queryDuration,
    abortAfter, &wg)] is run statement by statement: the line it logs,
    [wg.Add(numClients)], then one turn of [for i := 0; i < numClients;
    i++] at a time, each of which starts the goroutine of client [i + 1],
    runnable from then on; when the test fails the call returns. *)
Definition simulateClientAborts_step (s : Sys) : option Sys :=
  let sc := scenario pg in
  match simpc s with
  | SStart =>
      Some (run_in s (fmt_Println "Multiple concurrent client aborts:")
        (fun _ p' => mkSys p' (pool s) (mainpc s) SCall None))
  | SCall =>
      Some (run_in s
        (log_Printf "Simulating %d client aborts" [VInt (numClients sc)])
        (fun _ p' => mkSys p' (pool s) (mainpc s) SAdd None))
  | SAdd =>
      Some (run_in s (WaitGroup_Add (numClients sc))
        (fun _ p' => mkSys p' (pool s) (mainpc s) (SSpawn 0) None))
  | SSpawn i =>
      if i <? numClients sc
      then
        Some (run_in s
          (on_pool s (fun p =>
             go_client (mkClient (i + 1) p (sc_ctx sc) (queryDuration sc)
                                 (abortAfter sc) CStart)))
          (fun _ p' => mkSys p' (pool s) (mainpc s) (SSpawn (i + 1)) None))
      else Some (mkSys (proc s) (pool s) (mainpc s) SWait None)
  | SWait =>
      (* wg.Wait() returns once the counter is zero *)
      if wg (proc s) =? 0
      then Some (mkSys (proc s) (pool s) (mainpc s) SStats None)
      else None
  | SStats =>
      Some (run_in s (on_pool s PrintStats)
        (fun _ p' => mkSys p' (pool s) (mainpc s) SSend None))
  | _ => None
  end.

(** The next statement of the closure run by client task [i]. *)
Definition client_step (i : nat) (now : Time) (s : Sys) : option Sys :=
  match tasks (proc s) !! i with
  | None => None
  | Some c =>
      let continue pc := fun p' =>
        mkSys (set_pc i pc p') (pool s) (mainpc s) (simpc s) None in
      match c_pc c with
      | CStart =>
          Some (run_in s
            (log_Printf "Client %d: Starting simulation" [VInt (c_id c)])
            (fun _ => continue CQuery))
      | CQuery =>
          Some (run_in s
            (SimulateClientAbort drv (c_pool c) (c_ctx c)
               (c_queryDuration c) (c_abortAfter c) now)
            (fun err => continue (CReport err)))
      | CReport err =>
          Some (run_in s
            match err with
            | Some e => log_Printf "Client %d: %v" [VInt (c_id c); VErr e]
            | None =>
                log_Printf "Client %d: Completed successfully" [VInt (c_id c)]
            end
            (fun _ => continue CDefer))
      | CDefer =>
          Some (run_in s WaitGroup_Done (fun _ => continue CDone))
      | CDone => None
      end
  end.

(** Nothing runs once the process has exited or crashed. *)
Definition step (a : Action) (s : Sys) : option Sys :=
  match halted s with
  | Some _ => None
  | None =>
      match a with
      | ActMain => main_step s
      | ActTick => main_tick s
      | ActRecv => main_recv s
      | ActSim => simulateClientAborts_step s
      | ActClient i now => client_step i now s
      end
  end.

Fixpoint run (acts : list Action) (s : Sys) : option Sys :=
  match acts with
  | [] => Some s
  | a :: rest =>
      match step a s with
      | Some s' => run rest s'
      | None => None
      end
  end.

Definition reaches (s s' : Sys) : Prop := exists acts, run acts s = Some s'.

End Process.

(** The process as the operating system starts it. *)
Definition boot : Sys := mkSys emptyProc None MStart SNone None.

(** The state in which the goroutine [simulateClientAborts] has just been
    started on pool [p]: its wait group [var wg sync.WaitGroup] is fresh
    and it has spawned nothing. *)
Definition launch (p : DBPool) (w : Proc) : Sys :=
  mkSys (mkProc (tick w) (handles w) (out w) 0 []) (Some p) MLoop SStart None.

(** [m] performed [k] times in a row. *)
Fixpoint times (k : nat) (m : M unit) : M unit :=
  match k with
  | O => ret tt
  | S k' => m ;;; times k' m
  end.

(** The arguments of one query execution, with the clock reading at which
    it is made. *)
Record Call : Type := mkCall {
  call_ctx : Context;
  call_queryDuration : Duration;
  call_abortAfter : Duration;
  call_now : Time
}.

(** The operations a caller may perform on a pool, and a sequence of them
    run in order, results dropped. *)
Inductive PoolOp : Type :=
| OpGetStats
| OpPrintStats
| OpClose
| OpQuery (c : Call)
| OpNewPool (dsn : string) (config : PoolConfig).

Definition do_op (drv : Driver) (p : DBPool) (o : PoolOp) : M unit :=
  match o with
  | OpGetStats => GetStats p ;;; ret tt
  | OpPrintStats => PrintStats p
  | OpClose => Close drv p ;;; ret tt
  | OpQuery c =>
      SimulateClientAbort drv p (call_ctx c) (call_queryDuration c)
        (call_abortAfter c) (call_now c) ;;; ret tt
  | OpNewPool dsn config => NewDBPool drv dsn config ;;; ret tt
  end.

Fixpoint do_ops (drv : Driver) (p : DBPool) (ops : list PoolOp) : M unit :=
  match ops with
  | [] => ret tt
  | o :: rest => do_op drv p o ;;; do_ops drv p rest
  end.

(** The store offers a blocking sleep: whatever it answers to
    [SELECT SLEEP(d)], success or fault, does not come before [d] has
    passed. *)
Definition sleep_like (drv : Driver) : Prop :=
  forall (k : nat) (dsn : string) (d : Duration),
    d <= latency (drv_query drv k dsn "SELECT SLEEP(?)" [ArgSeconds d]).

(** The handle of pool [p] exists in state [s], respectively exists and
    has been closed. *)
Definition pool_handle (p : DBPool) (s : Proc) (d : sqlDB) : Prop :=
  exists i, DB p = Some i /\ handles s !! i = Some d.

Definition pool_closed (p : DBPool) (s : Proc) : Prop :=
  exists d, pool_handle p s d /\ db_closed d = true.

(** The state after the line [SimulateClientAbort] logs before the query. *)
Definition announced (queryDuration abortAfter : Duration) (s : Proc) : Proc :=
  mkProc (tick s) (handles s)
    (out s ++
     [EvLog "Starting query that will run for %v, but client will abort after %v"
            [VDur queryDuration; VDur abortAfter]])
    (wg s) (tasks s).

Definition logged (e : Event) (s : Proc) : Proc :=
  mkProc (tick s) (handles s) (out s ++ [e]) (wg s) (tasks s).

Definition logs (l : list Event) (s : Proc) : Proc :=
  mkProc (tick s) (handles s) (out s ++ l) (wg s) (tasks s).

(** The nine lines of [PrintStats] for a snapshot. *)
Definition stats_lines (stats : DBStats) : list Event :=
  [EvLog "Connection Pool Stats:" [];
   EvLog "  Open Connections: %d" [VInt (OpenConnections stats)];
   EvLog "  In Use: %d" [VInt (InUse stats)];
   EvLog "  Idle: %d" [VInt (Idle stats)];
   EvLog "  Wait Count: %d" [VInt (WaitCount stats)];
   EvLog "  Wait Duration: %v" [VDur (WaitDuration stats)];
   EvLog "  Max Idle Closed: %d" [VInt (MaxIdleClosed stats)];
   EvLog "  Max Idle Time Closed: %d" [VInt (MaxIdleTimeClosed stats)];
   EvLog "  Max Lifetime Closed: %d" [VInt (MaxLifetimeClosed stats)]].

(** The client tasks started by [k] iterations of the loop of
    [SimulateMultipleClientAborts] from index [i] on. *)
Fixpoint clients_from (p : DBPool) (ctx : Context) (qd aa : Duration)
    (i : Z) (k : nat) : list Client :=
  match k with
  | O => []
  | S k' => mkClient (i + 1) p ctx qd aa CStart :: clients_from p ctx qd aa (i + 1) k'
  end.

(** Tasks that still hold the wait group, and tasks that have recorded
    their outcome. *)
Fixpoint count_pc (f : ClientPC -> Z) (ts : list Client) : Z :=
  match ts with
  | [] => 0
  | c :: rest => f (c_pc c) + count_pc f rest
  end.

Definition holds_wg (pc : ClientPC) : Z :=
  match pc with CDone => 0 | _ => 1 end.

Definition has_reported (pc : ClientPC) : Z :=
  match pc with CDefer | CDone => 1 | _ => 0 end.

Definition pending (ts : list Client) : Z := count_pc holds_wg ts.
Definition reported (ts : list Client) : Z := count_pc has_reported ts.

Definition finished (c : Client) : Prop := c_pc c = CDone.

(** [wg.Wait()] of [simulateClientAborts] has returned. *)
Definition wait_returned (s : Sys) : Prop :=
  simpc s = SStats \/ simpc s = SSend \/ simpc s = SDone.

(** An effect that leaves the wait group and the tasks alone and only
    appends lines that are not client outcomes to the output. *)
Definition only_logs (s s' : Proc) : Prop :=
  wg s' = wg s /\ tasks s' = tasks s /\
  exists l, out s' = out s ++ l /\ outcomes l = 0.

Definition same_counts (s s' : Proc) : Prop :=
  wg s' = wg s /\ tasks s' = tasks s /\ outcomes (out s') = outcomes (out s).

Definition quiet {A} (m : M A) : Prop :=
  forall s, only_logs s (final (m s)).

(** The invariant of the process, for [n] clients and [base] outcome lines
    in the output before the simulation: before [wg.Add] there are no
    tasks and the wait group is at zero; at turn [i] of the loop there are
    [i] tasks, and the wait group counts those of them not finished and
    the [n - i] still to be started; when the call has returned there are
    [n] tasks and the wait group counts those not finished; throughout,
    the outcome lines count the tasks that have reported; once
    [wg.Wait()] has returned the wait group is at zero. *)
Definition spawned (n base : Z) (s : Proc) : Prop :=
  length (tasks s) = Z.to_nat n /\
  wg s = pending (tasks s) /\
  outcomes (out s) = base + reported (tasks s).

Definition spawning (n base i : Z) (s : Proc) : Prop :=
  0 <= i <= n /\
  length (tasks s) = Z.to_nat i /\
  wg s = (n - i) + pending (tasks s) /\
  outcomes (out s) = base + reported (tasks s).

Definition Inv (n base : Z) (s : Sys) : Prop :=
  (mainpc s = MStart \/ mainpc s = MInit -> simpc s = SNone) /\
  match simpc s with
  | SNone | SStart | SCall | SAdd =>
      tasks (proc s) = [] /\ wg (proc s) = 0 /\ outcomes (out (proc s)) = base
  | SSpawn i => spawning n base i (proc s)
  | SWait => spawned n base (proc s)
  | SStats | SSend | SDone => spawned n base (proc s) /\ wg (proc s) = 0
  end.

(** The statements a client task still has to run. *)
Definition remaining (pc : ClientPC) : Z :=
  match pc with
  | CStart => 4
  | CQuery => 3
  | CReport _ => 2
  | CDefer => 1
  | CDone => 0
  end.

Definition todo (ts : list Client) : Z := count_pc remaining ts.

(** [simulateClientAborts] has been started and its [wg.Wait()] has not
    returned. *)
Definition joining (s : Sys) : Prop :=
  match simpc s with
  | SStart | SCall | SAdd | SSpawn _ | SWait => True
  | SNone | SStats | SSend | SDone => False
  end.

(** The simulation runs on pool [p], whose handle exists: until
    [wg.Wait()] has returned the process is alive, [main] sits in its loop
    and every task works on [p]. *)
Definition valid_pool (p : DBPool) (s : Proc) : Prop :=
  exists i, DB p = Some i /\ (i < length (handles s))%nat.

Definition Live (p : DBPool) (s : Sys) : Prop :=
  simpc s <> SNone /\
  (joining s ->
   pool s = Some p /\ valid_pool p (proc s) /\
   Forall (fun c => c_pool c = p) (tasks (proc s)) /\
   halted s = None /\ mainpc s = MLoop).

(** The three states of the orchestrator named by the specification. *)
Inductive Phase : Type := Starting | Running | Done.

Definition phase (s : Sys) : Phase :=
  match mainpc s with
  | MStart | MInit => Starting
  | MLoop => Running
  | MDone => Done
  end.

(** A schedule that lets [simulateClientAborts] run up to its
    [wg.Wait()] ([n + 4] statements: two lines, [wg.Add], [n] turns of the
    loop and its end), then lets each of [n] clients run its four
    statements in turn, and then lets [wg.Wait()] return. *)
Definition client_turn (now : Time) (i : nat) : list Action :=
  [ActClient i now; ActClient i now; ActClient i now; ActClient i now].

Definition one_by_one (n : nat) (now : Time) : list Action :=
  repeat ActSim (n + 4) ++ flat_map (client_turn now) (seq 0 n) ++ [ActSim].

(** A schedule in which every client runs to its end as soon as it has
    been started, before the next turn of the loop. *)
Definition at_once (n : nat) (now : Time) : list Action :=
  repeat ActSim 3 ++
  flat_map (fun i => ActSim :: client_turn now i) (seq 0 n) ++ [ActSim; ActSim].

Definition setup_of (n : Z) : Setup :=
  mkSetup (dsn mainSetup) (config mainSetup)
          (mkScenario Background n (15 * Minute) (10 * Minute)).

(** The error and the outcome line of an aborted client. *)
Definition abort_err : error :=
  Errorf "client abort simulated: %w" DeadlineExceeded.

Definition aborted_line (e : Event) : Prop :=
  is_outcome e = true ->
  exists k, e = EvLog "Client %d: %v" [VInt k; VErr abort_err].

(** The handle of pool [p] exists and is open. *)
Definition open_pool (p : DBPool) (s : Proc) : Prop :=
  exists d, pool_handle p s d /\ db_closed d = false.

(** A task of scenario [sc] on pool [p] that, if it has its result, has
    been aborted. *)
Definition client_ok (p : DBPool) (sc : Scenario) (c : Client) : Prop :=
  c_pool c = p /\ c_ctx c = sc_ctx sc /\
  c_queryDuration c = queryDuration sc /\ c_abortAfter c = abortAfter sc /\
  forall r, c_pc c = CReport r -> r = Some abort_err.

(** Until [wg.Wait()] has returned the pool is open; every task is one of
    the scenario on the pool; every outcome line written since the start
    state [w] reports an abort. *)
Definition AllAbort (p : DBPool) (w : Proc) (sc : Scenario) (s : Sys) : Prop :=
  (joining s -> open_pool p (proc s)) /\
  Forall (client_ok p sc) (tasks (proc s)) /\
  exists l, out (proc s) = out w ++ l /\ Forall aborted_line l.

(* ===================================================================== *)
(** * Environments used in the examples *)
(* ===================================================================== *)

Definition okReply : Reply := mkReply 0 None (fun c => c).

(** A reachable store that sleeps as long as asked; an empty DSN does not
    parse. *)
Definition sleepyStore : Driver :=
  mkDriver
    (fun _ dsn => if String.eqb dsn "" then Some (DriverError "invalid DSN") else None)
    (fun _ _ => okReply)
    (fun _ _ _ args =>
       match args with
       | [ArgSeconds d] => mkReply d None (fun c => c)
       | _ => mkReply 0 (Some (DriverError "Error 1064: syntax error")) (fun c => c)
       end)
    (fun _ _ => okReply).

(** A store that cannot be reached. *)
Definition downStore : Driver :=
  mkDriver
    (fun _ _ => None)
    (fun _ _ => mkReply 0 (Some (DriverError "dial tcp: connection refused"))
                        (fun c => c))
    (fun _ _ _ _ => mkReply 0 (Some (DriverError "dial tcp: connection refused"))
                            (fun c => c))
    (fun _ _ => okReply).

(** A store whose answers come at once: a wrapped timeout of the network
    layer, or a fault of its own. *)
Definition wrappingStore : Driver :=
  mkDriver
    (fun _ _ => None)
    (fun _ _ => okReply)
    (fun _ _ _ _ => mkReply 0 (Some (Errorf "read tcp: %w" DeadlineExceeded))
                            (fun c => c))
    (fun _ _ => okReply).

Definition faultyStore : Driver :=
  mkDriver
    (fun _ _ => None)
    (fun _ _ => okReply)
    (fun _ _ _ _ => mkReply 0 (Some (DriverError "Error 1317: query interrupted"))
                            (fun c => c))
    (fun _ _ => okReply).

(** A state holding one open, configured handle, and the pool on it. *)
Definition handle0 : sqlDB :=
  mksqlDB "dsn" false (Some 25) (Some 1) (Some Second) (Some Second) zeroCounters.

Definition oneHandle : Proc := mkProc 1 [handle0] [] 0 [].

Definition pool0 : DBPool := mkDBPool (Some 0%nat).

(* ===================================================================== *)
(** * Further notions used below *)
(* ===================================================================== *)

(** Two states of a handle that differ at most in the live counters. *)
Definition same_config (d d' : sqlDB) : Prop :=
  db_dsn d' = db_dsn d /\ db_closed d' = db_closed d /\
  db_maxOpen d' = db_maxOpen d /\ db_maxIdle d' = db_maxIdle d /\
  db_maxLifetime d' = db_maxLifetime d /\
  db_maxIdleTime d' = db_maxIdleTime d.

Definition is_close (o : PoolOp) : bool :=
  match o with
  | OpClose => true
  | _ => false
  end.

(** The client numbers handed out by [k] iterations of the spawning loop
    from index [i] on. *)
Fixpoint ids_from (i : Z) (k : nat) : list Z :=
  match k with
  | O => []
  | S k' => (i + 1) :: ids_from (i + 1) k'
  end.

(** The outcome lines of client number [k]. *)
Definition is_outcome_of (k : Z) (e : Event) : bool :=
  match e with
  | EvLog _ (VInt j :: _) => is_outcome e && (j =? k)
  | _ => false
  end.

Fixpoint outcomes_of (k : Z) (l : list Event) : Z :=
  match l with
  | [] => 0
  | e :: rest => (if is_outcome_of k e then 1 else 0) + outcomes_of k rest
  end.

(** The tasks numbered [k] that have recorded their outcome. *)
Fixpoint reported_of (k : Z) (ts : list Client) : Z :=
  match ts with
  | [] => 0
  | c :: rest =>
      (if c_id c =? k then has_reported (c_pc c) else 0) + reported_of k rest
  end.

(** Between [s] and [s'] every handle has kept its configuration and its
    open or closed state, and the handles other than that of pool [p] have
    not changed at all. *)
Definition keeps (p : DBPool) (s s' : Proc) : Prop :=
  forall (j : nat) (e : sqlDB),
    handles s !! j = Some e ->
    exists e', handles s' !! j = Some e' /\ same_config e e' /\
               (DB p <> Some j -> e' = e).

(** What every task spawned for a scenario carries. *)
Definition fresh_client (p : DBPool) (ctx : Context) (qd aa : Duration)
    (c : Client) : Prop :=
  c_pool c = p /\ c_ctx c = ctx /\ c_queryDuration c = qd /\
  c_abortAfter c = aa /\ c_pc c = CStart.

(** The steps a process state can still make, the ticker apart: the
    statements left to [main], to [simulateClientAborts] (in which a
    client not yet started counts five: its turn of the loop and the four
    statements of its task) and to the tasks. *)
Definition main_left (n : nat) (pc : MainPC) : Z :=
  match pc with
  | MStart => 10 + 5 * Z.of_nat n
  | MInit => 9 + 5 * Z.of_nat n
  | MLoop => 1
  | MDone => 0
  end.

Definition sim_left (n : nat) (pc : SimPC) : Z :=
  match pc with
  | SNone => 0
  | SStart => 7 + 5 * Z.of_nat n
  | SCall => 6 + 5 * Z.of_nat n
  | SAdd => 5 + 5 * Z.of_nat n
  | SSpawn i => 4 + 5 * Z.max 0 (Z.of_nat n - i)
  | SWait => 3
  | SStats => 2
  | SSend => 1
  | SDone => 0
  end.

Definition steps_left (pg : Setup) (s : Sys) : Z :=
  match halted s with
  | Some _ => 0
  | None =>
      let n := Z.to_nat (numClients (scenario pg)) in
      1 + main_left n (mainpc s) + sim_left n (simpc s) + todo (tasks (proc s))
  end.

Definition is_tick (a : Action) : bool :=
  match a with
  | ActTick => true
  | _ => false
  end.

Fixpoint work (acts : list Action) : Z :=
  match acts with
  | [] => 0
  | a :: rest => (if is_tick a then 0 else 1) + work rest
  end.

(** The simulation runs on pool [p], whose handle exists; while the
    process runs the pool is open and [main] sits in its loop or is about
    to return; the process ends with status 0 only, by the return of
    [main], which has then closed the pool; it does not crash. *)
Definition Sound (p : DBPool) (s : Sys) : Prop :=
  pool s = Some p /\ valid_pool p (proc s) /\
  Forall (fun c => c_pool c = p) (tasks (proc s)) /\
  simpc s <> SNone /\
  (mainpc s = MLoop \/ mainpc s = MDone) /\
  (mainpc s = MDone -> simpc s = SDone) /\
  match halted s with
  | None => open_pool p (proc s)
  | Some (Exit z) => z = 0 /\ mainpc s = MDone /\ pool_closed p (proc s)
  | Some (Crash _) => False
  end.

(** The state of the process once [main] has built the pool [p]. *)
Definition built (p : DBPool) (w : Proc) : Sys :=
  mkSys w (Some p) MInit SNone None.

(** The state of the process after the fatal exit of [main] on error [e]. *)
Definition fatal (e : error) (w : Proc) : Sys :=
  mkSys (logged (EvLog "Failed to create database pool: %v" [VErr e]) w)
        None MStart SNone (Some (Exit 1)).

(** The output holds, for every client number, one outcome line for each
    task of that number that has recorded its outcome, and the tasks are
    numbered as the spawning loop numbers them. *)
Definition Tally (s : Proc) : Prop :=
  (forall k, outcomes_of k (out s) = reported_of k (tasks s)) /\
  map c_id (tasks s) = ids_from 0 (length (tasks s)).

(** Whether [k] is one of the client numbers [1..n]. *)
Definition is_client (n k : Z) : bool := (1 <=? k) && (k <=? n).

(** The process with its output replaced. *)
Definition with_out (o : list Event) (s : Proc) : Proc :=
  mkProc (tick s) (handles s) o (wg s) (tasks s).

Definition reout (o : list Event) (s : Sys) : Sys :=
  mkSys (with_out o (proc s)) (pool s) (mainpc s) (simpc s) (halted s).

(** [m] does not read the output: whatever the output is when it starts,
    it does the same and appends the same lines. *)
Definition oblivious {A} (m : M A) : Prop :=
  forall (s : Proc) (o : list Event),
    exists l,
      out (final (m s)) = out s ++ l /\
      m (with_out o s) =
      match m s with
      | Ok a s' => Ok a (with_out (o ++ l) s')
      | Panic msg s' => Panic msg (with_out (o ++ l) s')
      end.

(** The lines of [PrintStats], by their formats. *)
Definition is_stats_line (e : Event) : bool :=
  match e with
  | EvLog f _ =>
      existsb (String.eqb f)
        ["Connection Pool Stats:"; "  Open Connections: %d"; "  In Use: %d";
         "  Idle: %d"; "  Wait Count: %d"; "  Wait Duration: %v";
         "  Max Idle Closed: %d"; "  Max Idle Time Closed: %d";
         "  Max Lifetime Closed: %d"]
  | EvPrintln _ => false
  end.

Definition without_stats (l : list Event) : list Event :=
  List.filter (fun e => negb (is_stats_line e)) l.

Definition no_ticks (acts : list Action) : list Action :=
  List.filter (fun a => negb (is_tick a)) acts.

(* ===================================================================== *)
(** * practice/db_connection/queries.go: values and library model *)
(* ===================================================================== *)

(** A [float64], by its 64 bits; the code only carries it around. *)
Record float64 : Type := mkFloat64 { float_bits : Z }.

Record User : Type := mkUser {
  User_ID : Z;
  Username : string;
  Email : string;
  User_CreatedAt : string;
  User_UpdatedAt : string
}.

Record Order : Type := mkOrder {
  Order_ID : Z;
  UserID : Z;
  ProductName : string;
  Quantity : Z;
  Price : float64;
  Status : string;
  Order_CreatedAt : string;
  Order_UpdatedAt : string
}.

(** The errors of these functions.  [ErrNoRows] is the sentinel
    [sql.ErrNoRows]; [Lib e] is an error of the handle or the driver, as in
    [pool.go]; [Wrapf fmt e] is [fmt.Errorf(fmt, e)] for a format ending
    in [%w]; [Notef fmt args] is [fmt.Errorf(fmt, args...)] for a format
    without [%w], which wraps nothing. *)
Inductive qerror : Type :=
| ErrNoRows
| Lib (e : error)
| Wrapf (format : string) (cause : qerror)
| Notef (format : string) (args : list Z).

Fixpoint qerror_eqb (a b : qerror) : bool :=
  match a, b with
  | ErrNoRows, ErrNoRows => true
  | Lib e, Lib e' => error_eqb e e'
  | Wrapf f c, Wrapf f' c' => String.eqb f f' && qerror_eqb c c'
  | Notef f l, Notef f' l' => String.eqb f f' && bool_decide (l = l')
  | _, _ => false
  end.

(** [errors.Is] on these errors. *)
Fixpoint qerrors_Is (e target : qerror) : bool :=
  qerror_eqb e target ||
  match e with
  | Wrapf _ c => qerrors_Is c target
  | _ => false
  end.

(** [err == sql.ErrNoRows]. *)
Definition is_ErrNoRows (e : qerror) : bool :=
  match e with
  | ErrNoRows => true
  | _ => false
  end.

(** A slice: [nil], or a backing array with elements. *)
Definition slice (A : Type) : Type := option (list A).

Definition append {A} (s : slice A) (x : A) : slice A :=
  match s with
  | None => Some [x]
  | Some l => Some (l ++ [x])
  end.

Definition elems {A} (s : slice A) : list A :=
  match s with
  | None => []
  | Some l => l
  end.

(** The arguments of the statements and the column values of a row. *)
Inductive QArg : Type :=
| QInt (z : Z)
| QStr (s : string).

Inductive Cell : Type :=
| CNull
| CInt (z : Z)
| CFloat (f : float64)
| CText (s : string).

Definition Row : Type := list Cell.

(** A result set as the driver delivers it: the rows, what the fetch
    behind the last row reports ([None] for the regular end), and what
    closing the result set before its end reports. *)
Record ResultSet : Type := mkResultSet {
  rs_rows : list Row;
  rs_end : option qerror;
  rs_close : option qerror
}.

Record QReply : Type := mkQReply {
  qr_counters : Counters -> Counters;
  qr_result : qerror + ResultSet
}.

Record ExecReply : Type := mkExecReply {
  ex_counters : Counters -> Counters;
  ex_err : option qerror
}.

(** The store behind the handle, for the statements of [queries.go]: its
    answer to the [k]-th interaction, and what [Scan] makes of a row for
    the destinations the code passes (the conversion of column values is
    that of [database/sql], taken as it is). *)
Record Store : Type := mkStore {
  st_query : nat -> string -> string -> list QArg -> QReply;
  st_exec : nat -> string -> string -> list QArg -> ExecReply;
  scan_user : Row -> User + qerror;
  scan_order : Row -> Order + qerror
}.

(** A [*sql.Rows]: the rows not yet fetched, the current row, the error
    [Err] reports, and whether it has been closed. *)
Record Cursor : Type := mkCursor {
  cur_rest : list Row;
  cur_row : option Row;
  cur_end : option qerror;
  cur_close : option qerror;
  cur_lasterr : option qerror;
  cur_closed : bool
}.

(** The process of [pool.go] together with the result sets handed out. *)
Record QProc : Type := mkQProc {
  q_proc : Proc;
  q_rows : list Cursor
}.

(** The monad of these functions: a call returns, panics, or has used up
    the bound given to a loop. *)
Inductive QResult (A : Type) : Type :=
| QOk (a : A) (s : QProc)
| QPanic (msg : string) (s : QProc)
| QBound (s : QProc).
Arguments QOk {A} a s.
Arguments QPanic {A} msg s.
Arguments QBound {A} s.

Definition Q (A : Type) : Type := QProc -> QResult A.

Definition qret {A} (a : A) : Q A := fun s => QOk a s.

Definition qbind {A B} (m : Q A) (k : A -> Q B) : Q B :=
  fun s =>
    match m s with
    | QOk a s' => k a s'
    | QPanic msg s' => QPanic msg s'
    | QBound s' => QBound s'
    end.

Declare Scope q_scope.
Delimit Scope q_scope with Q.
Notation "x <- m ;; k" := (qbind m (fun x => k))
  (at level 100, m at next level, k at level 200, right associativity) : q_scope.
Notation "m ;;; k" := (qbind m (fun _ => k))
  (at level 100, k at level 200, right associativity) : q_scope.

Definition qfinal {A} (r : QResult A) : QProc :=
  match r with
  | QOk _ s => s
  | QPanic _ s => s
  | QBound s => s
  end.

(** An effect of [pool.go]'s monad, run on the process. *)
Definition lift {A} (m : M A) : Q A :=
  fun s =>
    match m (q_proc s) with
    | Ok a p => QOk a (mkQProc p (q_rows s))
    | Panic msg p => QPanic msg (mkQProc p (q_rows s))
    end.

(** [defer f] around [body]: [f] runs when [body] returns and when it
    panics; what [f] returns is dropped. *)
Definition defer {A B} (f : Q B) (body : Q A) : Q A :=
  fun s =>
    match body s with
    | QOk a s' =>
        match f s' with
        | QOk _ s'' => QOk a s''
        | QPanic msg s'' => QPanic msg s''
        | QBound s'' => QBound s''
        end
    | QPanic msg s' => QPanic msg (qfinal (f s'))
    | QBound s' => QBound s'
    end.

Definition cursor_of (rs : ResultSet) : Cursor :=
  mkCursor (rs_rows rs) None (rs_end rs) (rs_close rs) None false.

Definition new_rows (c : Cursor) : Q ptr :=
  fun s => QOk (Some (length (q_rows s))) (mkQProc (q_proc s) (q_rows s ++ [c])).

Definition get_rows (r : ptr) : Q Cursor :=
  fun s =>
    match r with
    | Some i =>
        match q_rows s !! i with
        | Some c => QOk c s
        | None => QPanic nilDeref s
        end
    | None => QPanic nilDeref s
    end.

Definition set_rows (r : ptr) (c : Cursor) : Q unit :=
  fun s =>
    match r with
    | Some i => QOk tt (mkQProc (q_proc s) (<[i := c]> (q_rows s)))
    | None => QPanic nilDeref s
    end.

Local Open Scope q_scope.

Section Queries.
Variable st : Store.

(** [db.Query(query, args...)]: on a closed handle [errDBClosed];
    otherwise one interaction with the store, which answers with an error
    or with a result set. *)
Definition db_Query (h : ptr) (query : string) (args : list QArg)
  : Q (ptr * option qerror) :=
  d <- lift (deref h) ;;
  if db_closed d then qret (None, Some (Lib errDBClosed))
  else
    k <- lift next_tick ;;
    let r := st_query st k (db_dsn d) query args in
    lift (store h (set_live d (qr_counters r))) ;;;
    match qr_result r with
    | inl e => qret (None, Some e)
    | inr rs =>
        rows <- new_rows (cursor_of rs) ;;
        qret (rows, None)
    end.

(** [db.Exec(query, args...)], its [sql.Result] dropped. *)
Definition db_Exec (h : ptr) (query : string) (args : list QArg)
  : Q (option qerror) :=
  d <- lift (deref h) ;;
  if db_closed d then qret (Some (Lib errDBClosed))
  else
    k <- lift next_tick ;;
    let r := st_exec st k (db_dsn d) query args in
    lift (store h (set_live d (ex_counters r))) ;;;
    qret (ex_err r).

(** [rows.Close()]: nothing on a closed result set. *)
Definition rows_Close (r : ptr) : Q (option qerror) :=
  c <- get_rows r ;;
  if cur_closed c then qret None
  else
    set_rows r (mkCursor (cur_rest c) (cur_row c) (cur_end c) (cur_close c)
                         (cur_lasterr c) true) ;;;
    qret (cur_close c).

(** [rows.Next()]: makes the next row current; behind the last row it
    records what the fetch reports, closes the result set and answers
    [false], as it does on a closed result set. *)
Definition rows_Next (r : ptr) : Q bool :=
  c <- get_rows r ;;
  if cur_closed c then qret false
  else
    match cur_rest c with
    | row :: rest =>
        set_rows r (mkCursor rest (Some row) (cur_end c) (cur_close c)
                             (cur_lasterr c) false) ;;;
        qret true
    | [] =>
        set_rows r (mkCursor [] (cur_row c) (cur_end c) (cur_close c)
                             (cur_end c) true) ;;;
        qret false
    end.

(** [rows.Err()]. *)
Definition rows_Err (r : ptr) : Q (option qerror) :=
  c <- get_rows r ;;
  qret (cur_lasterr c).

(** [rows.Scan(dest...)], for destinations that [scan] converts into. *)
Definition rows_Scan {A} (scan : Row -> A + qerror) (r : ptr) : Q (A + qerror) :=
  c <- get_rows r ;;
  if cur_closed c then qret (inr (Notef "sql: Rows are closed" []))
  else
    match cur_row c with
    | None => qret (inr (Notef "sql: Scan called without calling Next" []))
    | Some row => qret (scan row)
    end.

(** [db.QueryRow(query, args...)] keeps the result of [Query]. *)
Definition db_QueryRow (h : ptr) (query : string) (args : list QArg)
  : Q (ptr * option qerror) :=
  db_Query h query args.

(** [row.Scan(dest...)]: the error of the query if there is one;
    otherwise the first row is scanned and the result set closed, the
    error of which is the result; with no row, the error of the fetch or
    [sql.ErrNoRows]. *)
Definition row_Scan {A} (scan : Row -> A + qerror) (row : ptr * option qerror)
  : Q (A + qerror) :=
  let '(rows, err) := row in
  match err with
  | Some e => qret (inr e)
  | None =>
      defer (rows_Close rows)
        (more <- rows_Next rows ;;
         if more then
           v <- rows_Scan scan rows ;;
           match v with
           | inr e => qret (inr e)
           | inl a =>
               e <- rows_Close rows ;;
               match e with
               | Some e => qret (inr e)
               | None => qret (inl a)
               end
           end
         else
           e <- rows_Err rows ;;
           match e with
           | Some e => qret (inr e)
           | None => qret (inr ErrNoRows)
           end)
  end.

(** [for rows.Next() { body }], the loop carrying [acc]; [body] answers
    [inr] to return from the function.  The loop runs within the bound
    [fuel]. *)
Fixpoint for_Next {A R} (fuel : nat) (rows : ptr) (body : A -> Q (A + R))
    (acc : A) : Q (A + R) :=
  match fuel with
  | O => fun s => QBound s
  | S fuel' =>
      more <- rows_Next rows ;;
      if more then
        v <- body acc ;;
        match v with
        | inl acc' => for_Next fuel' rows body acc'
        | inr ret => qret (inr ret)
        end
      else qret (inl acc)
  end.

(** The rows a result set has still to deliver; one more turn of the loop
    sees its end. *)
Definition rows_bound (rows : ptr) : Q nat :=
  c <- get_rows rows ;;
  qret (S (length (cur_rest c))).

(* =================================================================== *)
(** * practice/db_connection/queries.go *)
(* =================================================================== *)

Definition GetAllUsers (p : DBPool) : Q (slice User * option qerror) :=
  let query :=
    "SELECT id, username, email, created_at, updated_at FROM users ORDER BY id" in
  r <- db_Query (DB p) query [] ;;
  let '(rows, err) := r in
  match err with
  | Some e => qret (None, Some (Wrapf "failed to query users: %w" e))
  | None =>
      defer (rows_Close rows)
        (bound <- rows_bound rows ;;
         r <- for_Next bound rows
                (fun users =>
                   v <- rows_Scan (scan_user st) rows ;;
                   match v with
                   | inr e => qret (inr (Wrapf "failed to scan user: %w" e))
                   | inl user => qret (inl (append users user))
                   end)
                None ;;
         match r with
         | inr e => qret (None, Some e)
         | inl users =>
             e <- rows_Err rows ;;
             match e with
             | Some e => qret (None, Some (Wrapf "row iteration error: %w" e))
             | None => qret (users, None)
             end
         end)
  end.

Definition GetUserByID (p : DBPool) (id : Z) : Q (option User * option qerror) :=
  let query :=
    "SELECT id, username, email, created_at, updated_at FROM users WHERE id = ?" in
  row <- db_QueryRow (DB p) query [QInt id] ;;
  v <- row_Scan (scan_user st) row ;;
  match v with
  | inr e =>
      if is_ErrNoRows e
      then qret (None, Some (Notef "user with id %d not found" [id]))
      else qret (None, Some (Wrapf "failed to scan user: %w" e))
  | inl user => qret (Some user, None)
  end.

(** The statement of [GetOrdersByUserID], a raw string literal over two
    lines. *)
Definition orders_query : string :=
  "SELECT id, user_id, product_name, quantity, price, status, created_at, updated_at 
			  FROM orders WHERE user_id = ? ORDER BY created_at DESC".

Definition GetOrdersByUserID (p : DBPool) (userID : Z)
  : Q (slice Order * option qerror) :=
  r <- db_Query (DB p) orders_query [QInt userID] ;;
  let '(rows, err) := r in
  match err with
  | Some e => qret (None, Some (Wrapf "failed to query orders: %w" e))
  | None =>
      defer (rows_Close rows)
        (bound <- rows_bound rows ;;
         r <- for_Next bound rows
                (fun orders =>
                   v <- rows_Scan (scan_order st) rows ;;
                   match v with
                   | inr e => qret (inr (Wrapf "failed to scan order: %w" e))
                   | inl order => qret (inl (append orders order))
                   end)
                None ;;
         match r with
         | inr e => qret (None, Some e)
         | inl orders =>
             e <- rows_Err rows ;;
             match e with
             | Some e => qret (None, Some (Wrapf "row iteration error: %w" e))
             | None => qret (orders, None)
             end
         end)
  end.

Definition CreateUser (p : DBPool) (username email : string) : Q (option qerror) :=
  let query := "INSERT INTO users (username, email) VALUES (?, ?)" in
  err <- db_Exec (DB p) query [QStr username; QStr email] ;;
  match err with
  | Some e => qret (Some (Wrapf "failed to create user: %w" e))
  | None => qret None
  end.

End Queries.

Local Close Scope q_scope.

(** ** Notions used to state what these functions do *)

(** The values [scan] makes of the rows, or the error of the first row it
    cannot convert. *)
Fixpoint scan_all {A} (scan : Row -> A + qerror) (rows : list Row)
  : list A + qerror :=
  match rows with
  | [] => inl []
  | r :: rest =>
      match scan r with
      | inr e => inr e
      | inl a =>
          match scan_all scan rest with
          | inr e => inr e
          | inl l => inl (a :: l)
          end
      end
  end.

(** The slice grown from [nil] by appending the elements one by one. *)
Definition slice_of {A} (l : list A) : slice A :=
  match l with
  | [] => None
  | _ => Some l
  end.

(** What a listing function makes of a result set: [what] is the format
    of its scan error. *)
Definition listing {A} (scan : Row -> A + qerror) (what : string)
    (rs : ResultSet) : slice A * option qerror :=
  match scan_all scan (rs_rows rs) with
  | inr e => (None, Some (Wrapf what e))
  | inl l =>
      match rs_end rs with
      | Some e => (None, Some (Wrapf "row iteration error: %w" e))
      | None => (slice_of l, None)
      end
  end.

(** What [GetUserByID] makes of a result set. *)
Definition lookup_of (scan : Row -> User + qerror) (id : Z) (rs : ResultSet)
  : option User * option qerror :=
  match rs_rows rs with
  | [] =>
      match rs_end rs with
      | Some e =>
          if is_ErrNoRows e
          then (None, Some (Notef "user with id %d not found" [id]))
          else (None, Some (Wrapf "failed to scan user: %w" e))
      | None => (None, Some (Notef "user with id %d not found" [id]))
      end
  | r :: _ =>
      match scan r with
      | inr e =>
          if is_ErrNoRows e
          then (None, Some (Notef "user with id %d not found" [id]))
          else (None, Some (Wrapf "failed to scan user: %w" e))
      | inl u =>
          match rs_close rs with
          | Some e =>
              if is_ErrNoRows e
              then (None, Some (Notef "user with id %d not found" [id]))
              else (None, Some (Wrapf "failed to scan user: %w" e))
          | None => (Some u, None)
          end
      end
  end.

Definition closed_rows (l : list Cursor) : Prop :=
  Forall (fun c => cur_closed c = true) l.

(** The process after one interaction on handle [i], which has set the
    live counters of the handle by [f]. *)
Definition asked (i : nat) (d : sqlDB) (f : Counters -> Counters) (s : Proc)
  : Proc :=
  mkProc (S (tick s)) (<[i := set_live d f]> (handles s)) (out s) (wg s) (tasks s).

(** Between [s] and [s'] at most one interaction has taken place, nothing
    was logged, the wait group and the tasks are as they were, the handles
    have kept their configuration, and the result sets handed out in
    between are closed. *)
Definition q_frame (p : DBPool) (s s' : QProc) : Prop :=
  (tick (q_proc s) <= tick (q_proc s') <= S (tick (q_proc s)))%nat /\
  out (q_proc s') = out (q_proc s) /\
  wg (q_proc s') = wg (q_proc s) /\
  tasks (q_proc s') = tasks (q_proc s) /\
  keeps p (q_proc s) (q_proc s') /\
  length (handles (q_proc s')) = length (handles (q_proc s)) /\
  exists new, q_rows s' = q_rows s ++ new /\ closed_rows new.

(** The four functions, by what they send to the store. *)
Inductive QueryOp : Type :=
| OpGetAllUsers
| OpGetUserByID (id : Z)
| OpGetOrdersByUserID (userID : Z)
| OpCreateUser (username email : string).

Definition run_query (st : Store) (p : DBPool) (o : QueryOp)
  : Q (bool * option qerror) :=
  match o with
  | OpGetAllUsers =>
      qbind (GetAllUsers st p)
            (fun r => qret (match fst r with None => false | _ => true end, snd r))
  | OpGetUserByID id =>
      qbind (GetUserByID st p id)
            (fun r => qret (match fst r with None => false | _ => true end, snd r))
  | OpGetOrdersByUserID userID =>
      qbind (GetOrdersByUserID st p userID)
            (fun r => qret (match fst r with None => false | _ => true end, snd r))
  | OpCreateUser username email =>
      qbind (CreateUser st p username email) (fun e => qret (false, e))
  end.

(** Values for the examples: two users, the rows that hold them, and a
    [Scan] that takes a row of an integer and four texts. *)
Definition ann : User := mkUser 1 "ann" "ann@example.com" "2024-01-01" "2024-01-02".

Definition row_of (u : User) : Row :=
  [CInt (User_ID u); CText (Username u); CText (Email u);
   CText (User_CreatedAt u); CText (User_UpdatedAt u)].

Definition demo_scan_user (r : Row) : User + qerror :=
  match r with
  | [CInt i; CText n; CText e; CText c; CText u] => inl (mkUser i n e c u)
  | _ => inr (Notef "sql: Scan error on column index %d" [2])
  end.

Definition bob : User := mkUser 2 "bob" "bob@example.com" "2024-02-01" "2024-02-02".

(** A store that knows both users and accepts every statement. *)
Definition demoStore : Store :=
  mkStore
    (fun _ _ _ args =>
       mkQReply (fun c => c)
         (inr (mkResultSet
                 match args with
                 | [] => [row_of ann; row_of bob]
                 | [QInt 1] => [row_of ann]
                 | _ => []
                 end None None)))
    (fun _ _ _ _ => mkExecReply (fun c => c) None)
    demo_scan_user
    (fun _ => inr (Notef "sql: Scan error on column index %d" [0])).

(** A store whose second row has a NULL e-mail address, and which
    refuses every insertion. *)
Definition nullStore : Store :=
  mkStore
    (fun _ _ _ _ =>
       mkQReply (fun c => c)
         (inr (mkResultSet
                 [row_of ann;
                  [CInt 2; CText "bob"; CNull; CText "2024-02-01"; CText "2024-02-02"];
                  row_of bob]
                 None None)))
    (fun _ _ _ _ => mkExecReply (fun c => c) (Some (Lib (DriverError "Error 1062: Duplicate entry"))))
    demo_scan_user
    (fun _ => inr (Notef "sql: Scan error on column index %d" [0])).

Definition q0 : QProc := mkQProc oneHandle [].

(* ===================================================================== *)
(** * practice/mockgen: the user service over a repository *)
(* ===================================================================== *)

(** [User] of package [mockgen]. *)
Record mockgen_User : Type := mkMockgenUser {
  mockgen_ID : Z;
  Name : string
}.

(** The errors of the package: its sentinel, and whatever a repository
    reports. *)
Inductive svc_error : Type :=
| invalidUserIDError
| RepoError (msg : string).

(** An implementation of the interface [IUserRepo], over a state [R] of
    its own. *)
Record IUserRepo (R : Type) : Type := mkIUserRepo {
  repo_GetUserByID : Z -> R -> (option mockgen_User * option svc_error) * R;
  repo_Insert : mockgen_User -> R -> option svc_error * R;
  repo_Update : Z -> mockgen_User -> R -> option svc_error * R;
  repo_Delete : Z -> R -> option svc_error * R
}.
Arguments repo_GetUserByID {R}.
Arguments repo_Insert {R}.
Arguments repo_Update {R}.
Arguments repo_Delete {R}.

(** [UserService]; the interface value [repo] may be [nil]. *)
Record UserService (R : Type) : Type := mkUserService {
  repo : option (IUserRepo R)
}.
Arguments repo {R}.
Arguments mkUserService {R}.

(** A call of a method of the service returns or panics. *)
Inductive SResult (A R : Type) : Type :=
| SOk (a : A) (r : R)
| SPanic (msg : string) (r : R).
Arguments SOk {A R} a r.
Arguments SPanic {A R} msg r.

(** [u.repo] for a receiver [u *UserService], followed by a call of a
    method of the interface value. *)
Definition with_repo {A R} (u : option (UserService R))
    (call : IUserRepo R -> R -> A * R) (r : R) : SResult A R :=
  match u with
  | None => SPanic nilDeref r
  | Some svc =>
      match repo svc with
      | None => SPanic nilDeref r
      | Some impl => let '(a, r') := call impl r in SOk a r'
      end
  end.

Definition Upsert {R} (u : option (UserService R)) (user : mockgen_User) (r : R)
  : SResult (option svc_error) R :=
  if mockgen_ID user <=? 0 then SOk (Some invalidUserIDError) r
  else
    match with_repo u (fun impl => repo_GetUserByID impl (mockgen_ID user)) r with
    | SPanic msg r' => SPanic msg r'
    | SOk (existingUser, err) r' =>
        match err with
        | Some e => SOk (Some e) r'
        | None =>
            match existingUser with
            | None => with_repo u (fun impl => repo_Insert impl user) r'
            | Some _ =>
                with_repo u (fun impl => repo_Update impl (mockgen_ID user) user) r'
            end
        end
    end.

Definition UserService_GetUserByID {R} (u : option (UserService R)) (id : Z) (r : R)
  : SResult (option mockgen_User * option svc_error) R :=
  with_repo u (fun impl => repo_GetUserByID impl id) r.

Definition DeleteUserByID {R} (u : option (UserService R)) (id : Z) (r : R)
  : SResult (option svc_error) R :=
  with_repo u (fun impl => repo_Delete impl id) r.

(** ** The calls a repository receives *)

Inductive RepoCall : Type :=
| CallGetUserByID (id : Z)
| CallInsert (user : mockgen_User)
| CallUpdate (id : Z) (user : mockgen_User)
| CallDelete (id : Z).

(** The repository [impl] with a record of the calls made to it. *)
Definition recording {R} (impl : IUserRepo R) : IUserRepo (R * list RepoCall) :=
  mkIUserRepo (R * list RepoCall)
    (fun id s =>
       let '(a, r') := repo_GetUserByID impl id (fst s) in
       (a, (r', snd s ++ [CallGetUserByID id])))
    (fun user s =>
       let '(a, r') := repo_Insert impl user (fst s) in
       (a, (r', snd s ++ [CallInsert user])))
    (fun id user s =>
       let '(a, r') := repo_Update impl id user (fst s) in
       (a, (r', snd s ++ [CallUpdate id user])))
    (fun id s =>
       let '(a, r') := repo_Delete impl id (fst s) in
       (a, (r', snd s ++ [CallDelete id]))).

Definition service_of {R} (impl : IUserRepo R) : option (UserService R) :=
  Some (mkUserService (Some impl)).

(** What a call returned, and the calls it made. *)
Definition answer {A R} (x : SResult A (R * list RepoCall)) : option A :=
  match x with
  | SOk a _ => Some a
  | SPanic _ _ => None
  end.

Definition calls {A R} (x : SResult A (R * list RepoCall)) : list RepoCall :=
  match x with
  | SOk _ s => snd s
  | SPanic _ s => snd s
  end.

(* ===================================================================== *)
(** * Evaluation lemmas *)
(* ===================================================================== *)

Lemma lookup_snoc {A} (l : list A) (x : A) : (l ++ [x]) !! length l = Some x.
Proof. induction l; simpl; auto. Qed.

Lemma insert_snoc {A} (l : list A) (x y : A) :
  <[length l := y]> (l ++ [x]) = l ++ [y].
Proof. induction l; simpl; [reflexivity|]. f_equal. exact IHl. Qed.

Ltac unfold_lib :=
  unfold Close, GetStats in *;
  unfold SetMaxOpenConns, SetMaxIdleConns, SetConnMaxLifetime,
    SetConnMaxIdleTime, Ping, sql_Close, Stats, QueryContext,
    log_Printf, fmt_Println, WaitGroup_Done, WaitGroup_Add, go_client,
    bind, ret, panic, alloc, deref, store, next_tick, emit, set_live in *.

Lemma bind_log {A} (format : string) (args : list Val) (k : unit -> M A)
    (s : Proc) :
  bind (log_Printf format args) k s = k tt (logged (EvLog format args) s).
Proof. reflexivity. Qed.

Lemma logged_one (e : Event) (s : Proc) : logged e s = logs [e] s.
Proof. reflexivity. Qed.

Lemma logged_logs (e : Event) (l : list Event) (s : Proc) :
  logged e (logs l s) = logs (l ++ [e]) s.
Proof. unfold logged, logs. cbn. rewrite <- app_assoc. reflexivity. Qed.

Lemma NewDBPool_eval (drv : Driver) (dsn : string) (config : PoolConfig) (s : Proc) :
  NewDBPool drv dsn config s =
  match drv_open drv "mysql" dsn with
  | Some e => Ok (None, Some (Errorf "failed to open database: %w" e)) s
  | None =>
      let r := drv_ping drv (tick s) dsn in
      let h := mksqlDB dsn false (Some (MaxOpenConns config))
                 (Some (MaxIdleConns config)) (Some (ConnMaxLifetime config))
                 (Some (ConnMaxIdleTime config)) (counters r zeroCounters) in
      match outcome r with
      | Some e =>
          Ok (None, Some (Errorf "failed to ping database: %w" e))
             (mkProc (S (tick s)) (handles s ++ [h]) (out s) (wg s) (tasks s))
      | None =>
          Ok (Some (mkDBPool (Some (length (handles s)))), None)
             (mkProc (S (tick s)) (handles s ++ [h])
                (out s ++
                 [EvLog "Database connection pool configured:" [];
                  EvLog "  Max Open Connections: %d" [VInt (MaxOpenConns config)];
                  EvLog "  Max Idle Connections: %d" [VInt (MaxIdleConns config)];
                  EvLog "  Connection Max Lifetime: %v" [VDur (ConnMaxLifetime config)];
                  EvLog "  Connection Max Idle Time: %v" [VDur (ConnMaxIdleTime config)]])
                (wg s) (tasks s))
      end
  end.
Proof.
  unfold NewDBPool, sql_Open.
  destruct (drv_open drv "mysql" dsn) as [e|]; [reflexivity|].
  unfold_lib. cbn.
  repeat (rewrite ?lookup_snoc, ?insert_snoc; cbn).
  destruct (outcome (drv_ping drv (tick s) dsn)) as [e|]; cbn.
  - reflexivity.
  - repeat rewrite <- app_assoc. reflexivity.
Qed.

Lemma QueryContext_eval (drv : Driver) (i : nat) (d : sqlDB) (ctx : Context)
    (q : string) (args : list Arg) (now : Time) (s : Proc) :
  handles s !! i = Some d ->
  QueryContext drv (Some i) ctx q args now s =
  if db_closed d then Ok (None, Some errDBClosed) s
  else
    match ctx_Err ctx now with
    | Some e => Ok (None, Some e) s
    | None =>
        let r := drv_query drv (tick s) (db_dsn d) q args in
        let s1 := mkProc (S (tick s)) (<[i := set_live d (counters r)]> (handles s))
                         (out s) (wg s) (tasks s) in
        match ctx_Err ctx (now + latency r - 1) with
        | Some e => Ok (None, Some e) s1
        | None =>
            match outcome r with
            | Some e => Ok (None, Some e) s1
            | None => Ok (Some RowsHandle, None) s1
            end
        end
    end.
Proof.
  intros Hd. unfold_lib. rewrite Hd.
  destruct (db_closed d); [reflexivity|].
  destruct (ctx_Err ctx now); [reflexivity|]. cbn.
  destruct (ctx_Err ctx _); [reflexivity|].
  destruct (outcome _); reflexivity.
Qed.

(** [SimulateClientAbort] is decided by what [QueryContext] hands back. *)
Lemma SimulateClientAbort_eval (drv : Driver) (p : DBPool) (ctx : Context)
    (qd aa : Duration) (now : Time) (s : Proc) :
  SimulateClientAbort drv p ctx qd aa now s =
  match QueryContext drv (DB p) (WithTimeout ctx aa now) "SELECT SLEEP(?)"
          [ArgSeconds qd] now (announced qd aa s) with
  | Ok (_, Some DeadlineExceeded) s1 =>
      Ok (Some (Errorf "client abort simulated: %w" DeadlineExceeded))
         (logged (EvLog "Client aborted connection after %v (simulating client abort)"
                        [VDur aa]) s1)
  | Ok (_, Some e) s1 => Ok (Some (Errorf "query failed: %w" e)) s1
  | Ok (_, None) s1 =>
      Ok None (logged (EvLog "Query completed successfully (no abort occurred)" []) s1)
  | Panic msg s1 => Panic msg s1
  end.
Proof.
  unfold SimulateClientAbort, announced, logged.
  unfold bind at 1. unfold log_Printf at 1. unfold emit at 1.
  unfold bind at 1.
  destruct (QueryContext _ _ _ _ _ _ _) as [[rows [e|]] s1| msg s1];
    [destruct e| |]; reflexivity.
Qed.

(* ===================================================================== *)
(** * Pool construction *)
(* ===================================================================== *)

(** C5.  [NewDBPool] always returns; it returns an error exactly when the
    driver rejects the target or, the target being accepted, the probe
    fails; both errors are connection errors and come with a nil pool.
    Whenever the target is accepted one new handle is allocated, it
    carries the four limits of the configuration, and one probe has been
    sent; without error the pool returned wraps that handle, which is
    open. *)
Theorem NewDBPool_opens_configures_probes
    (drv : Driver) (dsn : string) (config : PoolConfig) (s : Proc) :
  exists (p : option DBPool) (err : option error) (s' : Proc),
    NewDBPool drv dsn config s = Ok (p, err) s' /\
    (err <> None <->
       drv_open drv "mysql" dsn <> None \/
       (drv_open drv "mysql" dsn = None /\ outcome (drv_ping drv (tick s) dsn) <> None)) /\
    (forall e, err = Some e -> p = None /\ kind_of e = Some ConnectionError) /\
    (drv_open drv "mysql" dsn <> None -> handles s' = handles s /\ tick s' = tick s) /\
    (drv_open drv "mysql" dsn = None ->
       exists h,
         handles s' = handles s ++ [h] /\
         db_dsn h = dsn /\
         db_maxOpen h = Some (MaxOpenConns config) /\
         db_maxIdle h = Some (MaxIdleConns config) /\
         db_maxLifetime h = Some (ConnMaxLifetime config) /\
         db_maxIdleTime h = Some (ConnMaxIdleTime config) /\
         db_closed h = false /\
         tick s' = S (tick s) /\
         (err = None -> p = Some (mkDBPool (Some (length (handles s)))) /\
                        pool_handle (mkDBPool (Some (length (handles s)))) s' h)).
Proof.
  rewrite NewDBPool_eval.
  destruct (drv_open drv "mysql" dsn) as [e|] eqn:Hopen.
  - eexists _, _, _. split; [reflexivity|].
    split; [split; [intros _; left; congruence | congruence]|].
    split; [intros e' [= <-]; split; reflexivity|].
    split; [intros _; split; reflexivity|]. congruence.
  - cbn zeta.
    destruct (outcome (drv_ping drv (tick s) dsn)) as [e|] eqn:Hping.
    + eexists _, _, _. split; [reflexivity|].
      split; [split; [intros _; right; split; congruence | congruence]|].
      split; [intros e' [= <-]; split; reflexivity|].
      split; [congruence|]. intros _.
      eexists. cbn.
      split; [reflexivity|]. do 7 (split; [reflexivity|]). congruence.
    + eexists _, _, _. split; [reflexivity|].
      split; [split; [congruence | intros [H|[_ H]]; congruence]|].
      split; [congruence|].
      split; [congruence|]. intros _.
      eexists. cbn.
      split; [reflexivity|]. do 7 (split; [reflexivity|]). intros _.
      split; [reflexivity|].
      exists (length (handles s)). split; [reflexivity|]. cbn.
      apply lookup_snoc.
Qed.

(** C9.  When the driver accepts the target and the probe fails,
    [NewDBPool] returns a nil pool and a non-nil error, and the handle it
    opened and configured stays behind in the process, not closed: the
    only interaction with the driver was the probe. *)
Theorem NewDBPool_ping_failure_leaves_handle_open
    (drv : Driver) (dsn : string) (config : PoolConfig) (s : Proc) (e : error) :
  drv_open drv "mysql" dsn = None ->
  outcome (drv_ping drv (tick s) dsn) = Some e ->
  exists (s' : Proc) (h : sqlDB),
    NewDBPool drv dsn config s =
      Ok (None, Some (Errorf "failed to ping database: %w" e)) s' /\
    handles s' = handles s ++ [h] /\
    handles s' !! length (handles s) = Some h /\
    db_closed h = false /\
    db_maxOpen h = Some (MaxOpenConns config) /\
    db_maxIdle h = Some (MaxIdleConns config) /\
    db_maxLifetime h = Some (ConnMaxLifetime config) /\
    db_maxIdleTime h = Some (ConnMaxIdleTime config) /\
    tick s' = S (tick s).
Proof.
  intros Hopen Hping. rewrite NewDBPool_eval, Hopen. cbn zeta. rewrite Hping.
  eexists _, _. split; [reflexivity|]. cbn.
  repeat split; try reflexivity. apply lookup_snoc.
Qed.

Lemma NewDBPool_ping_failure_witness :
  exists (s' : Proc) (h : sqlDB),
    NewDBPool downStore "dsn" (config mainSetup) emptyProc =
      Ok (None, Some (Errorf "failed to ping database: %w"
                        (DriverError "dial tcp: connection refused"))) s' /\
    handles s' = handles emptyProc ++ [h] /\
    handles s' !! length (handles emptyProc) = Some h /\
    db_closed h = false /\
    db_maxOpen h = Some (MaxOpenConns (config mainSetup)) /\
    db_maxIdle h = Some (MaxIdleConns (config mainSetup)) /\
    db_maxLifetime h = Some (ConnMaxLifetime (config mainSetup)) /\
    db_maxIdleTime h = Some (ConnMaxIdleTime (config mainSetup)) /\
    tick s' = S (tick emptyProc).
Proof.
  apply (NewDBPool_ping_failure_leaves_handle_open downStore "dsn"
           (config mainSetup) emptyProc
           (DriverError "dial tcp: connection refused"));
    reflexivity.
Defined.

(* ===================================================================== *)
(** * Statistics *)
(* ===================================================================== *)

Lemma GetStats_eval (i : nat) (d : sqlDB) (s : Proc) :
  handles s !! i = Some d ->
  GetStats (mkDBPool (Some i)) s = Ok (snapshot d) s.
Proof. intros Hd. unfold_lib. cbn [DB]. rewrite Hd. reflexivity. Qed.

Lemma PrintStats_eval (i : nat) (d : sqlDB) (s : Proc) :
  handles s !! i = Some d ->
  PrintStats (mkDBPool (Some i)) s =
  Ok tt (mkProc (tick s) (handles s) (out s ++ stats_lines (snapshot d))
                (wg s) (tasks s)).
Proof.
  intros Hd. unfold PrintStats. unfold bind at 1.
  rewrite (GetStats_eval i d s Hd).
  repeat rewrite bind_log. rewrite (logged_one _ s).
  repeat rewrite logged_logs. cbn [app].
  unfold log_Printf, emit, logs. cbn [tick handles out wg tasks].
  rewrite <- app_assoc. reflexivity.
Qed.

(** C6.  On a pool whose handle exists, [GetStats] returns the live
    counters of the handle as they are at the call and hands the process
    state back as it was; however often [GetStats] and [PrintStats] are
    called, they return normally, no handle changes (nor the driver's
    interaction count, the wait group or the tasks): [PrintStats] only
    appends its nine lines to the output. *)
Theorem stats_are_pure_reads (p : DBPool) (s : Proc) (d : sqlDB) (k : nat) :
  pool_handle p s d ->
  GetStats p s = Ok (snapshot d) s /\
  times k (GetStats p ;;; ret tt) s = Ok tt s /\
  exists s',
    times k (PrintStats p) s = Ok tt s' /\
    handles s' = handles s /\
    tick s' = tick s /\ wg s' = wg s /\ tasks s' = tasks s /\
    out s' = out s ++ concat (replicate k (stats_lines (snapshot d))) /\
    GetStats p s' = Ok (snapshot d) s'.
Proof.
  intros (i & Hp & Hd). destruct p as [h]. cbn in Hp. subst h.
  split; [exact (GetStats_eval i d s Hd)|].
  split.
  - induction k as [|k IH]; [reflexivity|].
    cbn [times]. unfold bind at 1. unfold bind at 1.
    rewrite (GetStats_eval i d s Hd). exact IH.
  - revert s Hd. induction k as [|k IH]; intros s Hd.
    + exists s. cbn. rewrite app_nil_r.
      repeat split; try reflexivity. exact (GetStats_eval i d s Hd).
    + cbn [times]. unfold bind at 1. rewrite (PrintStats_eval i d s Hd).
      destruct (IH (mkProc (tick s) (handles s) (out s ++ stats_lines (snapshot d))
                           (wg s) (tasks s)) Hd)
        as (s' & Hrun & Hh & Ht & Hw & Hts & Hout & Hget).
      exists s'. cbn in *.
      repeat split; try assumption.
      rewrite Hout, <- app_assoc. reflexivity.
Qed.

Lemma stats_are_pure_reads_witness :
  GetStats pool0 oneHandle = Ok (snapshot handle0) oneHandle /\
  times 3 (GetStats pool0 ;;; ret tt) oneHandle = Ok tt oneHandle /\
  exists s',
    times 3 (PrintStats pool0) oneHandle = Ok tt s' /\
    handles s' = handles oneHandle /\
    tick s' = tick oneHandle /\ wg s' = wg oneHandle /\
    tasks s' = tasks oneHandle /\
    out s' = out oneHandle ++ concat (replicate 3 (stats_lines (snapshot handle0))) /\
    GetStats pool0 s' = Ok (snapshot handle0) s'.
Proof.
  apply (stats_are_pure_reads pool0 oneHandle
           handle0 3).
  exists 0%nat. split; reflexivity.
Defined.

(* ===================================================================== *)
(** * Query execution with a deadline *)
(* ===================================================================== *)

Lemma ctx_Err_mono (c : Context) (t t' : Time) (e : error) :
  ctx_Err c t = Some e -> t <= t' -> ctx_Err c t' = Some e.
Proof.
  unfold ctx_Err. destruct (ctx_fire c) as [[a e0]|]; [|discriminate].
  destruct (a <=? t) eqn:Ha; [|discriminate]. intros [= ->] Hle.
  apply Z.leb_le in Ha.
  destruct (a <=? t') eqn:Hb; [reflexivity|]. apply Z.leb_gt in Hb. lia.
Qed.

Lemma ctx_fire_WithTimeout (ctx : Context) (d : Duration) (now : Time) :
  ctx_cancelAt ctx = None ->
  exists dl, ctx_fire (WithTimeout ctx d now) = Some (dl, DeadlineExceeded) /\
             dl <= now + d.
Proof.
  intros Hc. unfold ctx_fire, WithTimeout. cbn. rewrite Hc.
  destruct (ctx_deadline ctx) as [dl|]; eexists; split; try reflexivity; lia.
Qed.

(** What a call on an open pool returns when the context has fired with
    [DeadlineExceeded] before the reply. *)
Lemma SimulateClientAbort_deadline_first (drv : Driver) (p : DBPool)
    (ctx : Context) (qd aa : Duration) (now : Time) (s : Proc) (d : sqlDB)
    (dl : Time) :
  pool_handle p s d ->
  db_closed d = false ->
  ctx_fire (WithTimeout ctx aa now) = Some (dl, DeadlineExceeded) ->
  dl < now + latency (drv_query drv (tick s) (db_dsn d) "SELECT SLEEP(?)"
                        [ArgSeconds qd]) ->
  exists s',
    SimulateClientAbort drv p ctx qd aa now s =
    Ok (Some (Errorf "client abort simulated: %w" DeadlineExceeded)) s'.
Proof.
  intros (i & Hp & Hd) Hopen Hfire Hlt.
  rewrite SimulateClientAbort_eval, Hp.
  rewrite (QueryContext_eval drv i d _ _ _ _ (announced qd aa s) Hd), Hopen.
  cbn [announced tick]. unfold ctx_Err. rewrite Hfire.
  destruct (dl <=? now) eqn:Hnow; [eexists; reflexivity|].
  cbn zeta.
  match goal with
  | |- context [dl <=? ?b - 1] => destruct (dl <=? b - 1) eqn:Hrace
  end; [eexists; reflexivity|].
  apply Z.leb_gt in Hrace. lia.
Qed.

(** C8.  Let [QueryContext] hand back the error [e].  The client-abort
    wrapper is returned exactly when [e] is the sentinel
    [context.DeadlineExceeded] itself; an [e] that only wraps the sentinel
    ([errors.Is] holds, [==] does not) is reported as a generic query
    failure. *)
Theorem abort_only_for_the_sentinel_itself (drv : Driver) (p : DBPool)
    (ctx : Context) (qd aa : Duration) (now : Time) (s s1 : Proc)
    (rows : option Rows) (e : error) :
  QueryContext drv (DB p) (WithTimeout ctx aa now) "SELECT SLEEP(?)"
    [ArgSeconds qd] now (announced qd aa s) = Ok (rows, Some e) s1 ->
  exists err s',
    SimulateClientAbort drv p ctx qd aa now s = Ok (Some err) s' /\
    (kind_of err = Some ClientAbortedError <-> e = DeadlineExceeded) /\
    (errors_Is e DeadlineExceeded = true -> e <> DeadlineExceeded ->
       err = Errorf "query failed: %w" e /\ s' = s1 /\
       kind_of err = Some QueryError /\ outcome_of (Some err) = Failed).
Proof.
  intros Hq. rewrite SimulateClientAbort_eval, Hq.
  destruct e; eexists _, _; (split; [reflexivity|]); cbn;
    (split; [split; congruence|]); intros _ Hne; try congruence;
    repeat split; reflexivity.
Qed.

Lemma abort_only_for_the_sentinel_itself_witness :
  exists err s',
    SimulateClientAbort wrappingStore pool0 Background (15 * Minute)
      (10 * Minute) 0 oneHandle = Ok (Some err) s' /\
    err = Errorf "query failed: %w" (Errorf "read tcp: %w" DeadlineExceeded) /\
    kind_of err = Some QueryError.
Proof.
  destruct (abort_only_for_the_sentinel_itself wrappingStore pool0 Background
              (15 * Minute) (10 * Minute) 0 oneHandle
              (mkProc 2 (handles oneHandle)
                 (out (announced (15 * Minute) (10 * Minute) oneHandle)) 0 [])
              None (Errorf "read tcp: %w" DeadlineExceeded) eq_refl)
    as (err & s' & Hrun & _ & Hwrap).
  exists err, s'. split; [exact Hrun|].
  destruct (Hwrap eq_refl ltac:(discriminate)) as (He & _ & Hk & _).
  split; assumption.
Defined.

(** C2.  A call on an open pool always returns.  If the abort context
    fires on its deadline before the reply of the store is due, the call
    returns the client-abort error; if the context stays silent until the
    reply and the store reports a failure of its own, the call returns the
    query-failure error.  Whatever error is returned belongs to exactly one
    of the two kinds, and it is a client abort only around the deadline
    sentinel. *)
Theorem client_abort_is_told_apart (drv : Driver) (p : DBPool) (ctx : Context)
    (qd aa : Duration) (now : Time) (s : Proc) (d : sqlDB) :
  pool_handle p s d ->
  db_closed d = false ->
  exists res s',
    SimulateClientAbort drv p ctx qd aa now s = Ok res s' /\
    (forall dl,
       ctx_fire (WithTimeout ctx aa now) = Some (dl, DeadlineExceeded) ->
       dl < now + latency (drv_query drv (tick s) (db_dsn d) "SELECT SLEEP(?)"
                             [ArgSeconds qd]) ->
       res = Some (Errorf "client abort simulated: %w" DeadlineExceeded)) /\
    (forall e,
       ctx_Err (WithTimeout ctx aa now) now = None ->
       ctx_Err (WithTimeout ctx aa now)
         (now + latency (drv_query drv (tick s) (db_dsn d) "SELECT SLEEP(?)"
                           [ArgSeconds qd]) - 1) = None ->
       outcome (drv_query drv (tick s) (db_dsn d) "SELECT SLEEP(?)"
                  [ArgSeconds qd]) = Some e ->
       e <> DeadlineExceeded ->
       res = Some (Errorf "query failed: %w" e)) /\
    (forall err, res = Some err ->
       (kind_of err = Some ClientAbortedError /\ outcome_of res = Aborted /\
        Unwrap err = Some DeadlineExceeded) \/
       (kind_of err = Some QueryError /\ outcome_of res = Failed /\
        Unwrap err <> Some DeadlineExceeded)).
Proof.
  intros Hh Hopen.
  assert (Hret : exists res s', SimulateClientAbort drv p ctx qd aa now s = Ok res s' /\
            (forall err, res = Some err ->
               (kind_of err = Some ClientAbortedError /\ outcome_of res = Aborted /\
                Unwrap err = Some DeadlineExceeded) \/
               (kind_of err = Some QueryError /\ outcome_of res = Failed /\
                Unwrap err <> Some DeadlineExceeded))).
  { destruct Hh as (i & Hp & Hd).
    rewrite SimulateClientAbort_eval, Hp.
    rewrite (QueryContext_eval drv i d _ _ _ _ (announced qd aa s) Hd), Hopen.
    assert (Hcase : forall (rows : option Rows) (e : error) (s1 : Proc),
      exists res s',
        match e with
        | DeadlineExceeded =>
            Ok (Some (Errorf "client abort simulated: %w" DeadlineExceeded))
               (logged (EvLog "Client aborted connection after %v (simulating client abort)"
                              [VDur aa]) s1)
        | _ => Ok (Some (Errorf "query failed: %w" e)) s1
        end = Ok res s' /\
        (forall err, res = Some err ->
           (kind_of err = Some ClientAbortedError /\ outcome_of res = Aborted /\
            Unwrap err = Some DeadlineExceeded) \/
           (kind_of err = Some QueryError /\ outcome_of res = Failed /\
            Unwrap err <> Some DeadlineExceeded))).
    { intros _ e s1. destruct e; eexists _, _; (split; [reflexivity|]);
        intros err [= <-]; cbn; first [left; repeat split; congruence
                                      | right; repeat split; congruence]. }
    destruct (ctx_Err _ now) as [e|]; [exact (Hcase None e _)|].
    cbn zeta. destruct (ctx_Err _ _) as [e|]; [exact (Hcase None e _)|].
    destruct (outcome _) as [e|]; [exact (Hcase None e _)|].
    eexists _, _. split; [reflexivity|]. discriminate. }
  destruct Hret as (res & s' & Hrun & Hkinds).
  exists res, s'. split; [exact Hrun|]. split; [|split; [|exact Hkinds]].
  - intros dl Hfire Hlt.
    destruct (SimulateClientAbort_deadline_first drv p ctx qd aa now s d dl
                Hh Hopen Hfire Hlt) as (s2 & Hrun2).
    congruence.
  - intros e Hnow Hrace Hout Hne.
    destruct Hh as (i & Hp & Hd).
    rewrite SimulateClientAbort_eval, Hp in Hrun.
    rewrite (QueryContext_eval drv i d _ _ _ _ (announced qd aa s) Hd), Hopen in Hrun.
    rewrite Hnow in Hrun. cbn zeta in Hrun. cbn [announced tick] in Hrun.
    rewrite Hrace, Hout in Hrun.
    destruct e; congruence.
Qed.

Lemma client_abort_is_told_apart_witness :
  exists s',
    SimulateClientAbort sleepyStore pool0 Background (15 * Minute) (10 * Minute)
      0 oneHandle =
    Ok (Some (Errorf "client abort simulated: %w" DeadlineExceeded)) s'.
Proof.
  destruct (client_abort_is_told_apart sleepyStore pool0 Background
              (15 * Minute) (10 * Minute) 0 oneHandle
              handle0
              (ex_intro _ 0%nat (conj eq_refl eq_refl)) eq_refl)
    as (res & s' & Hrun & Habort & _).
  exists s'. rewrite Hrun. f_equal.
  apply (Habort (10 * Minute)); [reflexivity | vm_compute; reflexivity].
Defined.

(** On an open pool, under a context nobody cancels and with a store that
    sleeps as long as asked, a deadline shorter than the query aborts the
    call. *)
Lemma shorter_deadline_aborts (drv : Driver) (p : DBPool) (ctx : Context)
    (qd aa : Duration) (now : Time) (s : Proc) :
  sleep_like drv ->
  open_pool p s ->
  ctx_cancelAt ctx = None ->
  aa < qd ->
  exists s', SimulateClientAbort drv p ctx qd aa now s = Ok (Some abort_err) s'.
Proof.
  intros Hsleep (d & Hh & Hopen) Hcancel Hlt.
  destruct (ctx_fire_WithTimeout ctx aa now Hcancel) as (dl & Hfire & Hdl).
  apply (SimulateClientAbort_deadline_first drv p ctx qd aa now s d dl
           Hh Hopen Hfire).
  specialize (Hsleep (tick s) (db_dsn d) qd). lia.
Qed.

Lemma sleepyStore_sleep_like : sleep_like sleepyStore.
Proof. intros k dsn d. cbn. lia. Qed.

(* ===================================================================== *)
(** * After Close *)
(* ===================================================================== *)

Lemma Close_closes (drv : Driver) (p : DBPool) (s : Proc) (d : sqlDB) :
  pool_handle p s d ->
  exists err s', Close drv p s = Ok err s' /\ pool_closed p s'.
Proof.
  intros (i & Hp & Hd). unfold_lib. rewrite Hp, Hd.
  destruct (db_closed d) eqn:Hc.
  - eexists _, _. split; [reflexivity|].
    exists d. split; [exists i; auto | exact Hc].
  - cbn. eexists _, _. split; [reflexivity|].
    eexists. split; [exists i; split; [exact Hp|] | ].
    + cbn. apply list_lookup_insert_eq. eapply lookup_lt_Some; eauto.
    + reflexivity.
Qed.

Lemma closed_query_fails (drv : Driver) (p : DBPool) (ctx : Context)
    (qd aa : Duration) (now : Time) (s : Proc) :
  pool_closed p s ->
  SimulateClientAbort drv p ctx qd aa now s =
    Ok (Some (Errorf "query failed: %w" errDBClosed)) (announced qd aa s).
Proof.
  intros (d & (i & Hp & Hd) & Hc).
  rewrite SimulateClientAbort_eval, Hp.
  rewrite (QueryContext_eval drv i d _ _ _ _ (announced qd aa s) Hd), Hc.
  reflexivity.
Qed.

Lemma pool_closed_announced (p : DBPool) (qd aa : Duration) (s : Proc) :
  pool_closed p s -> pool_closed p (announced qd aa s).
Proof. intros H. exact H. Qed.

(** A closed pool stays closed whatever is done next. *)
Lemma closed_stays_closed (drv : Driver) (p : DBPool) (o : PoolOp) (s : Proc) :
  pool_closed p s ->
  exists s', do_op drv p o s = Ok tt s' /\ pool_closed p s'.
Proof.
  intros Hc. pose proof Hc as (d & (i & Hp & Hd) & Hcl).
  destruct p as [h]. cbn in Hp. subst h.
  destruct o as [| | |c|dsn config]; cbn [do_op].
  - unfold bind. rewrite (GetStats_eval i d s Hd). eexists; split; [reflexivity|exact Hc].
  - rewrite (PrintStats_eval i d s Hd). eexists; split; [reflexivity|exact Hc].
  - unfold_lib. cbn [DB]. rewrite Hd, Hcl. eexists; split; [reflexivity|exact Hc].
  - unfold bind. rewrite (closed_query_fails drv _ _ _ _ _ s Hc).
    eexists; split; [reflexivity|exact Hc].
  - unfold bind. rewrite NewDBPool_eval.
    destruct (drv_open drv "mysql" dsn); [eexists; split; [reflexivity|exact Hc]|].
    cbn zeta.
    destruct (outcome _); (eexists; split; [reflexivity|]);
      exists d; (split; [exists i; split; [reflexivity|]|exact Hcl]);
      cbn; apply lookup_app_l_Some; exact Hd.
Qed.

Lemma closed_stays_closed_ops (drv : Driver) (p : DBPool) (ops : list PoolOp)
    (s : Proc) :
  pool_closed p s ->
  exists s', do_ops drv p ops s = Ok tt s' /\ pool_closed p s'.
Proof.
  revert s. induction ops as [|o ops IH]; intros s Hc.
  - exists s. split; [reflexivity|exact Hc].
  - cbn [do_ops]. unfold bind at 1.
    destruct (closed_stays_closed drv p o s Hc) as (s1 & -> & Hc1).
    exact (IH s1 Hc1).
Qed.

(** C4, as the code has it.  Once [Close] has been called on a pool whose
    handle exists, every later query execution, whatever was done to the
    pool in between, fails: it returns neither [nil] nor the client-abort
    error but the generic query-failure error, wrapped around the
    database-is-closed error of the handle. *)
Theorem closed_pool_fails_as_query_failure (drv : Driver) (p : DBPool)
    (s : Proc) (d : sqlDB) (ops : list PoolOp) (c : Call) :
  pool_handle p s d ->
  exists res s',
    (Close drv p ;;; do_ops drv p ops ;;;
     SimulateClientAbort drv p (call_ctx c) (call_queryDuration c)
       (call_abortAfter c) (call_now c)) s = Ok res s' /\
    res = Some (Errorf "query failed: %w" errDBClosed) /\
    kind_of (Errorf "query failed: %w" errDBClosed) = Some QueryError /\
    errors_Is (Errorf "query failed: %w" errDBClosed) errDBClosed = true /\
    outcome_of res = Failed.
Proof.
  intros Hh.
  destruct (Close_closes drv p s d Hh) as (err & s1 & Hclose & Hc1).
  destruct (closed_stays_closed_ops drv p ops s1 Hc1) as (s2 & Hops & Hc2).
  unfold bind. rewrite Hclose, Hops, (closed_query_fails drv _ _ _ _ _ s2 Hc2).
  eexists _, _. split; [reflexivity|]. repeat split; reflexivity.
Qed.

Lemma closed_pool_fails_as_query_failure_witness :
  exists res s',
    (Close sleepyStore pool0 ;;;
     do_ops sleepyStore pool0 [OpPrintStats; OpClose] ;;;
     SimulateClientAbort sleepyStore pool0 Background (15 * Minute)
       (10 * Minute) 0) oneHandle = Ok res s' /\
    res = Some (Errorf "query failed: %w" errDBClosed) /\
    kind_of (Errorf "query failed: %w" errDBClosed) = Some QueryError /\
    errors_Is (Errorf "query failed: %w" errDBClosed) errDBClosed = true /\
    outcome_of res = Failed.
Proof.
  apply (closed_pool_fails_as_query_failure sleepyStore pool0 oneHandle
           handle0
           [OpPrintStats; OpClose]
           (mkCall Background (15 * Minute) (10 * Minute) 0)).
  exists 0%nat. split; reflexivity.
Defined.

(** C4, as stated, fails: on a pool that has been closed the call returns
    an error of the query-failure kind, the same kind a fault of the store
    gets on an open pool, and not of a pool-closed kind. *)
Lemma closed_pool_error_has_the_query_failure_kind :
  exists e e' s1 s2,
    (Close sleepyStore pool0 ;;;
     SimulateClientAbort sleepyStore pool0 Background (15 * Minute)
       (10 * Minute) 0) oneHandle = Ok (Some e) s1 /\
    SimulateClientAbort faultyStore pool0 Background (15 * Minute)
       (10 * Minute) 0 oneHandle = Ok (Some e') s2 /\
    kind_of e = Some QueryError /\
    kind_of e = kind_of e' /\
    kind_of e <> Some PoolClosedError.
Proof.
  eexists _, _, _, _. split; [reflexivity|]. split; [reflexivity|].
  split; [reflexivity|]. split; [reflexivity|]. discriminate.
Qed.

(* ===================================================================== *)
(** * Spawning the clients *)
(* ===================================================================== *)

Lemma for_loop_spawn (p : DBPool) (ctx : Context) (qd aa : Duration)
    (k : nat) (i : Z) (s : Proc) :
  for_loop k i (fun i => go_client (mkClient (i + 1) p ctx qd aa CStart)) s =
  Ok tt (mkProc (tick s) (handles s) (out s) (wg s)
                (tasks s ++ clients_from p ctx qd aa i k)).
Proof.
  revert i s. induction k as [|k IH]; intros i s; cbn [for_loop clients_from].
  - unfold ret. rewrite app_nil_r. destruct s; reflexivity.
  - unfold bind, go_client. rewrite IH. cbn. rewrite <- app_assoc. reflexivity.
Qed.

Lemma SimulateMultipleClientAborts_eval (p : DBPool) (ctx : Context) (n : Z)
    (qd aa : Duration) (s : Proc) :
  SimulateMultipleClientAborts p ctx n qd aa s =
  match wg_Add n (wg s) with
  | Some v =>
      Ok tt (mkProc (tick s) (handles s)
               (out s ++ [EvLog "Simulating %d client aborts" [VInt n]]) v
               (tasks s ++ clients_from p ctx qd aa 0 (Z.to_nat n)))
  | None =>
      Panic "sync: negative WaitGroup counter"
            (logged (EvLog "Simulating %d client aborts" [VInt n]) s)
  end.
Proof.
  unfold SimulateMultipleClientAborts.
  unfold bind at 1. unfold log_Printf, emit. unfold bind at 1.
  unfold WaitGroup_Add. cbn [wg].
  destruct (wg_Add n (wg s)) as [v|]; [|reflexivity].
  rewrite for_loop_spawn. reflexivity.
Qed.

Lemma wrap32_small (z : Z) : - 2 ^ 31 <= z < 2 ^ 31 -> wrap32 z = z.
Proof.
  intros H. unfold wrap32. rewrite Z.mod_small; lia.
Qed.

Lemma wg_Add_in_range (delta c : Z) :
  0 <= c + delta < 2 ^ 31 -> wg_Add delta c = Some (c + delta).
Proof.
  intros H. unfold wg_Add. rewrite wrap32_small by lia.
  destruct (c + delta <? 0) eqn:E; [apply Z.ltb_lt in E; lia | reflexivity].
Qed.

(** The counter has 32 bits: a count of [2^31] panics, one of [2^32 + 1]
    is taken for 1. *)
Example wait_group_counter_wraps :
  wg_Add (2 ^ 31) 0 = None /\ wg_Add (2 ^ 32 + 1) 0 = Some 1.
Proof. split; reflexivity. Qed.

Lemma wg_Add_negative (delta c : Z) :
  - 2 ^ 31 <= c + delta < 0 -> wg_Add delta c = None.
Proof.
  intros H. unfold wg_Add. rewrite wrap32_small by lia.
  destruct (c + delta <? 0) eqn:E; [reflexivity | apply Z.ltb_ge in E; lia].
Qed.

(** C10, as the code has it.  [SimulateMultipleClientAborts] does not
    check its client count.  On a wait group whose counter [wg s] is a
    valid one: with [numClients = 0] it spawns nothing and leaves the
    counter as it is, so that a [Wait] on a counter that was zero passes at
    once; with [numClients < 0] it spawns nothing either, and it panics
    when [wg.Add] takes the counter below zero within the 32 bits of the
    counter, as on the fresh wait group of the caller, but returns normally
    when the counter stays non-negative. *)
Theorem client_count_is_not_validated (p : DBPool) (ctx : Context) (n : Z)
    (qd aa : Duration) (s : Proc) :
  0 <= wg s < 2 ^ 31 ->
  let s0 := logged (EvLog "Simulating %d client aborts" [VInt n]) s in
  (n = 0 ->
     SimulateMultipleClientAborts p ctx n qd aa s = Ok tt s0 /\
     tasks s0 = tasks s /\ wg s0 = wg s /\
     (wg s = 0 ->
        forall pg pl m,
          simulateClientAborts_step pg (mkSys s0 pl m SWait None) =
          Some (mkSys s0 pl m SStats None))) /\
  (n < 0 -> - 2 ^ 31 <= wg s + n < 0 ->
     SimulateMultipleClientAborts p ctx n qd aa s =
       Panic "sync: negative WaitGroup counter" s0 /\
     tasks s0 = tasks s) /\
  (n < 0 -> 0 <= wg s + n ->
     SimulateMultipleClientAborts p ctx n qd aa s =
       Ok tt (mkProc (tick s0) (handles s0) (out s0) (wg s + n) (tasks s))) /\
  (wg s = 0 -> - 2 ^ 31 <= n < 0 ->
     SimulateMultipleClientAborts p ctx n qd aa s =
       Panic "sync: negative WaitGroup counter" s0).
Proof.
  intros Hwg s0. subst s0. rewrite SimulateMultipleClientAborts_eval.
  split; [|split; [|split]].
  - intros ->. rewrite wg_Add_in_range by lia. cbn.
    rewrite app_nil_r, Z.add_0_r.
    split; [reflexivity|]. split; [reflexivity|]. split; [reflexivity|].
    intros Hz pg pl m. unfold simulateClientAborts_step. cbn. rewrite Hz. reflexivity.
  - intros Hn Hlow. rewrite wg_Add_negative by lia. split; reflexivity.
  - intros Hn Hlow. rewrite wg_Add_in_range by lia.
    replace (Z.to_nat n) with 0%nat by lia. cbn. rewrite app_nil_r. reflexivity.
  - intros Hz Hn. rewrite wg_Add_negative by lia. reflexivity.
Qed.

Lemma client_count_is_not_validated_witness :
  SimulateMultipleClientAborts pool0 Background (-3) (15 * Minute) (10 * Minute)
    oneHandle =
  Panic "sync: negative WaitGroup counter"
        (logged (EvLog "Simulating %d client aborts" [VInt (-3)]) oneHandle).
Proof.
  refine (proj2 (proj2 (proj2
            (client_count_is_not_validated pool0 Background (-3) (15 * Minute)
               (10 * Minute) oneHandle _))) eq_refl _);
    cbn; lia.
Defined.

(** C10, as stated, fails: a negative client count need not panic.  On a
    fresh wait group [-2^32] leaves the 32-bit counter at zero; on a wait
    group that already counts one task, [-1] takes it to zero. *)
Lemma negative_client_count_need_not_panic :
  (exists s',
     SimulateMultipleClientAborts pool0 Background (-4294967296) (15 * Minute)
       (10 * Minute) oneHandle = Ok tt s' /\
     wg oneHandle = 0 /\ wg s' = 0 /\ tasks s' = []) /\
  (exists s',
     SimulateMultipleClientAborts pool0 Background (-1) (15 * Minute)
       (10 * Minute)
       (mkProc (tick oneHandle) (handles oneHandle) (out oneHandle) 1 []) =
     Ok tt s' /\
     wg s' = 0 /\ tasks s' = []).
Proof.
  split; eexists; (split; [reflexivity|]); repeat split; reflexivity.
Qed.

(* ===================================================================== *)
(** * Effects that do not touch the wait group, the tasks or the outcomes *)
(* ===================================================================== *)

Lemma outcomes_app (a b : list Event) :
  outcomes (a ++ b) = outcomes a + outcomes b.
Proof. induction a as [|e a IH]; cbn [outcomes app]; lia. Qed.

Lemma outcomes_nonneg (l : list Event) : 0 <= outcomes l.
Proof.
  induction l as [|e l IH]; cbn [outcomes]; [lia|].
  destruct (is_outcome e); lia.
Qed.

Lemma same_counts_refl (s : Proc) : same_counts s s.
Proof. repeat split. Qed.

Lemma same_counts_trans (a b c : Proc) :
  same_counts a b -> same_counts b c -> same_counts a c.
Proof. unfold same_counts. intros (?&?&?) (?&?&?). repeat split; congruence. Qed.

Lemma only_logs_same_counts (s s' : Proc) : only_logs s s' -> same_counts s s'.
Proof.
  intros (Hw & Ht & l & Ho & Hl). split; [exact Hw|]. split; [exact Ht|].
  rewrite Ho, outcomes_app. lia.
Qed.

Lemma only_logs_refl (s : Proc) : only_logs s s.
Proof.
  split; [reflexivity|]. split; [reflexivity|].
  exists []. split; [symmetry; apply app_nil_r | reflexivity].
Qed.

Lemma only_logs_trans (a b c : Proc) :
  only_logs a b -> only_logs b c -> only_logs a c.
Proof.
  intros (Hw1 & Ht1 & l1 & Ho1 & Hl1) (Hw2 & Ht2 & l2 & Ho2 & Hl2).
  split; [congruence|]. split; [congruence|].
  exists (l1 ++ l2). split.
  - rewrite Ho2, Ho1, <- app_assoc. reflexivity.
  - rewrite outcomes_app. lia.
Qed.

Lemma quiet_ret {A} (a : A) : quiet (ret a).
Proof. intros s. apply only_logs_refl. Qed.

Lemma quiet_panic {A} (msg : string) : quiet (@panic A msg).
Proof. intros s. apply only_logs_refl. Qed.

Lemma quiet_bind {A B} (m : M A) (k : A -> M B) :
  quiet m -> (forall a, quiet (k a)) -> quiet (bind m k).
Proof.
  intros Hm Hk s. unfold bind. specialize (Hm s).
  destruct (m s) as [a s1|msg s1]; cbn [final] in *.
  - eapply only_logs_trans; [exact Hm | apply Hk].
  - exact Hm.
Qed.

Lemma quiet_emit (e : Event) : is_outcome e = false -> quiet (emit e).
Proof.
  intros He s. unfold emit, only_logs. cbn.
  split; [reflexivity|]. split; [reflexivity|].
  exists [e]. split; [reflexivity|]. cbn. rewrite He. reflexivity.
Qed.

Lemma quiet_next_tick : quiet next_tick.
Proof. intros s. apply (only_logs_trans _ s); [apply only_logs_refl|].
  split; [reflexivity|]. split; [reflexivity|].
  exists []. split; [symmetry; apply app_nil_r | reflexivity].
Qed.

Lemma quiet_alloc (d : sqlDB) : quiet (alloc d).
Proof.
  intros s. split; [reflexivity|]. split; [reflexivity|].
  exists []. split; [symmetry; apply app_nil_r | reflexivity].
Qed.

Lemma quiet_deref (h : ptr) : quiet (deref h).
Proof.
  intros s. unfold deref. destruct h as [i|]; [destruct (handles s !! i)|];
    apply only_logs_refl.
Qed.

Lemma quiet_store (h : ptr) (d : sqlDB) : quiet (store h d).
Proof.
  intros s. unfold store. destruct h; [|apply only_logs_refl].
  split; [reflexivity|]. split; [reflexivity|].
  exists []. split; [symmetry; apply app_nil_r | reflexivity].
Qed.

Lemma quiet_log_Printf (format : string) (args : list Val) :
  is_outcome (EvLog format args) = false -> quiet (log_Printf format args).
Proof. apply quiet_emit. Qed.

Ltac quiet_step :=
  lazymatch goal with
  | |- quiet (bind _ _) => apply quiet_bind; [|intros]
  | |- quiet (ret _) => apply quiet_ret
  | |- quiet (panic _) => apply quiet_panic
  | |- quiet next_tick => apply quiet_next_tick
  | |- quiet (alloc _) => apply quiet_alloc
  | |- quiet (deref _) => apply quiet_deref
  | |- quiet (store _ _) => apply quiet_store
  | |- quiet (log_Printf _ _) => apply quiet_log_Printf; reflexivity
  | |- quiet (emit _) => apply quiet_emit; reflexivity
  | |- quiet (match ?x with _ => _ end) => destruct x
  end.

Ltac quiet_tac := repeat quiet_step.

Lemma quiet_PrintStats (p : DBPool) : quiet (PrintStats p).
Proof. unfold PrintStats, GetStats, Stats. quiet_tac. Qed.

Lemma quiet_Close (drv : Driver) (p : DBPool) : quiet (Close drv p).
Proof. unfold Close, sql_Close. quiet_tac. Qed.

Lemma quiet_NewDBPool (drv : Driver) (dsn : string) (config : PoolConfig) :
  quiet (NewDBPool drv dsn config).
Proof.
  unfold NewDBPool, sql_Open, SetMaxOpenConns, SetMaxIdleConns,
    SetConnMaxLifetime, SetConnMaxIdleTime, Ping.
  quiet_tac.
Qed.

Lemma quiet_SimulateClientAbort (drv : Driver) (p : DBPool) (ctx : Context)
    (qd aa : Duration) (now : Time) :
  quiet (SimulateClientAbort drv p ctx qd aa now).
Proof.
  unfold SimulateClientAbort, QueryContext. quiet_tac.
Qed.

Lemma quiet_on_pool {A} (s : Sys) (f : DBPool -> M A) :
  (forall p, quiet (f p)) -> quiet (on_pool s f).
Proof. intros H. unfold on_pool. destruct (pool s); [apply H | apply quiet_panic]. Qed.

(* ===================================================================== *)
(** * Counting tasks *)
(* ===================================================================== *)

Lemma count_pc_insert (f : ClientPC -> Z) (ts : list Client) (i : nat)
    (c c' : Client) :
  ts !! i = Some c ->
  count_pc f (<[i := c']> ts) = count_pc f ts - f (c_pc c) + f (c_pc c').
Proof.
  revert i. induction ts as [|t ts IH]; intros i Hi; [discriminate|].
  destruct i as [|i].
  - injection Hi as ->. cbn [insert list_insert count_pc]. lia.
  - change (ts !! i = Some c) in Hi. specialize (IH i Hi).
    change (<[S i := c']> (t :: ts)) with (t :: <[i := c']> ts).
    cbn [count_pc]. lia.
Qed.

Lemma pending_lookup (ts : list Client) (i : nat) (c : Client) :
  ts !! i = Some c -> holds_wg (c_pc c) <= pending ts.
Proof.
  assert (Hnn : forall l, 0 <= pending l).
  { induction l as [|t l IH]; cbn; [lia|].
    unfold pending in IH. destruct (c_pc t); cbn; lia. }
  revert i. induction ts as [|t ts IH]; intros i Hi; [discriminate|].
  destruct i as [|i].
  - injection Hi as ->. specialize (Hnn ts). unfold pending in *.
    cbn [count_pc]. lia.
  - change (ts !! i = Some c) in Hi. specialize (IH i Hi).
    unfold pending in *. cbn [count_pc].
    destruct (c_pc t); cbn [holds_wg]; lia.
Qed.

Lemma pending_zero_finished (ts : list Client) :
  pending ts = 0 -> Forall finished ts.
Proof.
  intros Hz. apply Forall_forall. intros c Hin.
  apply list_elem_of_lookup in Hin as [i Hi].
  pose proof (pending_lookup ts i c Hi) as Hle.
  unfold finished. destruct (c_pc c); cbn in Hle; try lia. reflexivity.
Qed.

Lemma finished_reported (ts : list Client) :
  Forall finished ts -> reported ts = Z.of_nat (length ts).
Proof.
  induction 1 as [|c ts Hc _ IH]; [reflexivity|].
  unfold reported in *. cbn [count_pc length].
  unfold finished in Hc. rewrite Hc, IH. cbn [has_reported]. lia.
Qed.

Lemma clients_from_counts (p : DBPool) (ctx : Context) (qd aa : Duration)
    (k : nat) (i : Z) :
  length (clients_from p ctx qd aa i k) = k /\
  pending (clients_from p ctx qd aa i k) = Z.of_nat k /\
  reported (clients_from p ctx qd aa i k) = 0.
Proof.
  revert i. induction k as [|k IH]; intros i; [repeat split|].
  destruct (IH (i + 1)) as (Hl & Hp & Hr).
  unfold pending, reported in *. cbn [clients_from length count_pc c_pc].
  rewrite Hl, Hp, Hr. cbn [holds_wg has_reported]. repeat split; lia.
Qed.

(* ===================================================================== *)
(** * The invariant of the process *)
(* ===================================================================== *)

Lemma quiet_Ok {A} (m : M A) (s s' : Proc) (a : A) :
  quiet m -> m s = Ok a s' -> same_counts s s'.
Proof.
  intros Hq Hm. specialize (Hq s). rewrite Hm in Hq.
  exact (only_logs_same_counts _ _ Hq).
Qed.

Lemma quiet_Panic {A} (m : M A) (s s' : Proc) (msg : string) :
  quiet m -> m s = Panic msg s' -> same_counts s s'.
Proof.
  intros Hq Hm. specialize (Hq s). rewrite Hm in Hq.
  exact (only_logs_same_counts _ _ Hq).
Qed.

Lemma quiet_Ok_logs {A} (m : M A) (s s' : Proc) (a : A) :
  quiet m -> m s = Ok a s' -> only_logs s s'.
Proof. intros Hq Hm. specialize (Hq s). rewrite Hm in Hq. exact Hq. Qed.

Lemma quiet_Panic_logs {A} (m : M A) (s s' : Proc) (msg : string) :
  quiet m -> m s = Panic msg s' -> only_logs s s'.
Proof. intros Hq Hm. specialize (Hq s). rewrite Hm in Hq. exact Hq. Qed.

Lemma run_in_cases {A} (s : Sys) (m : M A) (k : A -> Proc -> Sys)
    (P : Sys -> Prop) :
  (forall a p', m (proc s) = Ok a p' -> P (k a p')) ->
  (forall msg p', m (proc s) = Panic msg p' ->
     P (mkSys p' (pool s) (mainpc s) (simpc s) (Some (Crash msg)))) ->
  P (run_in s m k).
Proof.
  intros Hok Hpanic. unfold run_in.
  destruct (m (proc s)) as [a p'|msg p']; [apply Hok | apply Hpanic]; reflexivity.
Qed.

Lemma run_in_quiet {A} (s : Sys) (m : M A) (k : A -> Proc -> Sys)
    (P : Sys -> Prop) :
  quiet m ->
  (forall a p', same_counts (proc s) p' -> P (k a p')) ->
  (forall msg p', same_counts (proc s) p' ->
     P (mkSys p' (pool s) (mainpc s) (simpc s) (Some (Crash msg)))) ->
  P (run_in s m k).
Proof.
  intros Hq Hok Hpanic. apply run_in_cases; intros.
  - apply Hok. eapply quiet_Ok; eauto.
  - apply Hpanic. eapply quiet_Panic; eauto.
Qed.

Lemma set_pc_eval (i : nat) (pc : ClientPC) (s : Proc) (c : Client) :
  tasks s !! i = Some c ->
  set_pc i pc s =
  mkProc (tick s) (handles s) (out s) (wg s)
    (<[i := mkClient (c_id c) (c_pool c) (c_ctx c) (c_queryDuration c)
                     (c_abortAfter c) pc]> (tasks s)).
Proof. intros H. unfold set_pc. rewrite H. reflexivity. Qed.

Lemma Inv_same_counts (n base : Z) (s s' : Sys) :
  Inv n base s ->
  same_counts (proc s) (proc s') ->
  simpc s' = simpc s ->
  (mainpc s' = MStart \/ mainpc s' = MInit -> simpc s' = SNone) ->
  Inv n base s'.
Proof.
  intros [_ HI] (Hw & Ht & Ho) Hs Hm. split; [exact Hm|].
  rewrite Hs. unfold spawned, spawning in *. rewrite Hw, Ht, Ho. exact HI.
Qed.

Lemma pending_bounds (l : list Client) :
  0 <= pending l <= Z.of_nat (length l).
Proof.
  induction l as [|t l IH]; [cbn; lia|].
  unfold pending in *. cbn [count_pc length].
  destruct (c_pc t); cbn [holds_wg]; lia.
Qed.

Lemma pending_snoc (l : list Client) (c : Client) :
  pending (l ++ [c]) = pending l + holds_wg (c_pc c).
Proof.
  unfold pending. induction l as [|t l IH]; cbn [app count_pc]; lia.
Qed.

Lemma reported_snoc (l : list Client) (c : Client) :
  reported (l ++ [c]) = reported l + has_reported (c_pc c).
Proof.
  unfold reported. induction l as [|t l IH]; cbn [app count_pc]; lia.
Qed.

(** Under the invariant the wait group counts at least the tasks that
    have not finished, and at most the clients of the scenario. *)
Lemma Inv_wg (n base : Z) (s : Sys) :
  0 <= n -> Inv n base s ->
  pending (tasks (proc s)) <= wg (proc s) <= n.
Proof.
  intros Hn [_ HI].
  pose proof (pending_bounds (tasks (proc s))) as Hb.
  destruct (simpc s).
  - destruct HI as (Ht & Hw & _). rewrite Ht, Hw. cbn. lia.
  - destruct HI as (Ht & Hw & _). rewrite Ht, Hw. cbn. lia.
  - destruct HI as (Ht & Hw & _). rewrite Ht, Hw. cbn. lia.
  - destruct HI as (Ht & Hw & _). rewrite Ht, Hw. cbn. lia.
  - destruct HI as (Hi & Hl & Hw & _). lia.
  - destruct HI as (Hl & Hw & _). lia.
  - destruct HI as ((Hl & Hw & _) & _). lia.
  - destruct HI as ((Hl & Hw & _) & _). lia.
  - destruct HI as ((Hl & Hw & _) & _). lia.
Qed.

Section Safety.
Variable drv : Driver.
Variable pg : Setup.
Variable base : Z.
Hypothesis Hn : 0 <= numClients (scenario pg) < 2 ^ 31.

Lemma Inv_client_step (s s' : Sys) (i : nat) (now : Time) :
  Inv (numClients (scenario pg)) base s ->
  client_step drv i now s = Some s' ->
  Inv (numClients (scenario pg)) base s'.
Proof.
  intros HI Hstep. unfold client_step in Hstep.
  destruct (tasks (proc s) !! i) as [c|] eqn:Hc; [|discriminate].
  pose proof (Inv_wg _ _ s (proj1 Hn) HI) as Hwg.
  pose proof (pending_lookup _ _ _ Hc) as Hle.
  assert (Hm : mainpc s = MStart \/ mainpc s = MInit -> simpc s = SNone)
    by exact (proj1 HI).
  assert (Hcrash : forall msg p', same_counts (proc s) p' ->
            Inv (numClients (scenario pg)) base
                (mkSys p' (pool s) (mainpc s) (simpc s) (Some (Crash msg)))).
  { intros msg p' Hsame. apply (Inv_same_counts _ _ s); try assumption.
    reflexivity. }
  (* the state after client [i] has moved to [pc'], its effect having
     changed the wait group by [dw] and the outcome lines by [dout] *)
  assert (Hmove : forall pc' p' dw dout,
            tasks p' = tasks (proc s) ->
            wg p' = wg (proc s) + dw ->
            outcomes (out p') = outcomes (out (proc s)) + dout ->
            holds_wg pc' = holds_wg (c_pc c) + dw ->
            has_reported pc' = has_reported (c_pc c) + dout ->
            wg (proc s) <> 0 ->
            Inv (numClients (scenario pg)) base
                (mkSys (set_pc i pc' p') (pool s) (mainpc s) (simpc s) None)).
  { intros pc' p' dw dout Ht Hw Ho Hh Hr Hz.
    rewrite (set_pc_eval i pc' p' c) by (rewrite Ht; exact Hc).
    split; [exact Hm|]. cbn [simpc proc].
    destruct HI as [_ HI].
    destruct (simpc s);
      try (destruct HI as (Hnil & _); rewrite Hnil in Hc; discriminate);
      try (destruct HI as (_ & Hz0); elim (Hz Hz0)).
    - destruct HI as (Hi & Hl & Hwg' & Hout). unfold spawning, pending, reported.
      cbn [tasks wg out]. rewrite Ht, length_insert.
      rewrite !(count_pc_insert _ _ _ c) by exact Hc. cbn [c_pc].
      unfold pending, reported in *. repeat split; lia.
    - destruct HI as (Hl & Hwg' & Hout). unfold spawned, pending, reported.
      cbn [tasks wg out]. rewrite Ht, length_insert.
      rewrite !(count_pc_insert _ _ _ c) by exact Hc. cbn [c_pc].
      unfold pending, reported in *. repeat split; lia. }
  assert (Hbusy : c_pc c <> CDone -> wg (proc s) <> 0).
  { intros Hnd Hz. destruct (c_pc c); cbn in Hle; try lia. congruence. }
  destruct (c_pc c) eqn:Hpc; try discriminate; injection Hstep as <-.
  - apply run_in_quiet; [apply quiet_emit; reflexivity| |exact Hcrash].
    intros _ p' (Hw & Ht & Ho).
    apply (Hmove CQuery p' 0 0); try assumption; try lia; try reflexivity.
    apply Hbusy. discriminate.
  - apply run_in_quiet; [apply quiet_SimulateClientAbort| |exact Hcrash].
    intros err p' (Hw & Ht & Ho).
    apply (Hmove (CReport err) p' 0 0); try assumption; try lia; try reflexivity.
    apply Hbusy. discriminate.
  - apply run_in_cases.
    + intros [] p' Hrun.
      assert (Hp' : tasks p' = tasks (proc s) /\ wg p' = wg (proc s) /\
                    outcomes (out p') = outcomes (out (proc s)) + 1).
      { destruct err; unfold log_Printf, emit in Hrun; injection Hrun as <-;
          cbn; rewrite outcomes_app; cbn; repeat split; lia. }
      destruct Hp' as (Ht & Hw & Ho).
      apply (Hmove CDefer p' 0 1); try assumption; try lia; try reflexivity.
      apply Hbusy. discriminate.
    + intros msg p' Hrun. destruct err; discriminate.
  - cbn [holds_wg] in Hle.
    apply run_in_cases.
    + intros [] p' Hrun. unfold WaitGroup_Done, WaitGroup_Add in Hrun.
      rewrite wg_Add_in_range in Hrun by lia. injection Hrun as <-.
      apply (Hmove CDone _ (-1) 0); try reflexivity; cbn; try lia.
    + intros msg p' Hrun. apply Hcrash.
      unfold WaitGroup_Done, WaitGroup_Add in Hrun.
      destruct (wg_Add _ _); [discriminate|]. injection Hrun as _ <-.
      apply same_counts_refl.
Qed.

Lemma Inv_step (s s' : Sys) (a : Action) :
  Inv (numClients (scenario pg)) base s ->
  step drv pg a s = Some s' ->
  Inv (numClients (scenario pg)) base s'.
Proof.
  intros HI Hstep. unfold step in Hstep.
  destruct (halted s); [discriminate|].
  destruct a as [| | | |i now]; [| | | |exact (Inv_client_step s s' i now HI Hstep)].
  - (* main *)
    unfold main_step in Hstep.
    destruct (mainpc s) eqn:Hm; try discriminate; injection Hstep as <-.
    + pose proof (proj1 HI (or_introl Hm)) as Hs.
      apply run_in_quiet; [apply quiet_NewDBPool| |].
      * intros [p [err|]] p' Hsame.
        -- apply (Inv_same_counts _ _ s); auto.
           eapply same_counts_trans; [exact Hsame|].
           apply only_logs_same_counts.
           apply (quiet_emit (EvLog "Failed to create database pool: %v" [VErr err]));
             reflexivity.
        -- apply (Inv_same_counts _ _ s); auto.
      * intros msg p' Hsame. apply (Inv_same_counts _ _ s); auto.
    + pose proof (proj1 HI (or_intror Hm)) as Hs.
      apply run_in_quiet.
      * apply quiet_bind; [apply quiet_emit; reflexivity|intros _].
        apply quiet_on_pool, quiet_PrintStats.
      * intros _ p' (Hw & Ht & Ho). destruct HI as [_ HI]. rewrite Hs in HI.
        split; [cbn; intros [|]; discriminate|]. cbn. rewrite Hw, Ht, Ho. exact HI.
      * intros msg p' Hsame. apply (Inv_same_counts _ _ s); auto.
    + assert (Hkeep : mainpc s = MStart \/ mainpc s = MInit -> simpc s = SNone)
        by (rewrite Hm; intros [|]; discriminate).
      apply run_in_quiet; [apply quiet_on_pool, quiet_Close| |].
      * intros _ p' Hsame. apply (Inv_same_counts _ _ s); auto.
        cbn. intros [|]; discriminate.
      * intros msg p' Hsame. apply (Inv_same_counts _ _ s); auto.
  - (* tick *)
    unfold main_tick in Hstep.
    destruct (mainpc s) eqn:Hm; try discriminate; injection Hstep as <-.
    assert (Hkeep : mainpc s = MStart \/ mainpc s = MInit -> simpc s = SNone)
      by (rewrite Hm; intros [|]; discriminate).
    apply run_in_quiet; [apply quiet_on_pool, quiet_PrintStats| |].
    + intros _ p' Hsame. apply (Inv_same_counts _ _ s); auto.
      cbn. intros [|]; discriminate.
    + intros msg p' Hsame. apply (Inv_same_counts _ _ s); auto.
  - (* rendezvous on the channel *)
    unfold main_recv in Hstep.
    destruct (mainpc s) eqn:Hm; try discriminate.
    destruct (simpc s) eqn:Hs; try discriminate. injection Hstep as <-.
    apply run_in_quiet; [apply quiet_emit; reflexivity| |].
    + intros _ p' (Hw & Ht & Ho). destruct HI as [_ HI]. rewrite Hs in HI.
      split; [cbn; intros [|]; discriminate|]. cbn.
      unfold spawned in *. rewrite Hw, Ht, Ho. exact HI.
    + intros msg p' Hsame. apply (Inv_same_counts _ _ s); auto.
      cbn. rewrite Hm. intros [|]; discriminate.
  - (* simulateClientAborts *)
    unfold simulateClientAborts_step in Hstep.
    assert (Hkeep : simpc s <> SNone ->
              mainpc s = MStart \/ mainpc s = MInit -> False).
    { intros Hne Hmain. apply Hne, (proj1 HI Hmain). }
    assert (Hmain : forall pc, simpc s <> SNone ->
              mainpc s = MStart \/ mainpc s = MInit -> pc = SNone).
    { intros pc Hne Hm. elim (Hkeep Hne Hm). }
    destruct (simpc s) eqn:Hs; try discriminate.
    + (* fmt.Println *)
      injection Hstep as <-. destruct HI as [_ HI]. rewrite Hs in HI.
      apply run_in_quiet; [apply quiet_emit; reflexivity| |].
      * intros _ p' (Hw & Ht & Ho).
        split; [cbn; apply Hmain; discriminate|].
        cbn. rewrite Hw, Ht, Ho. exact HI.
      * intros msg p' (Hw & Ht & Ho).
        split; [cbn; rewrite Hs; apply Hmain; discriminate|].
        cbn. rewrite Hs, Hw, Ht, Ho. exact HI.
    + (* the line of SimulateMultipleClientAborts *)
      injection Hstep as <-. destruct HI as [_ HI]. rewrite Hs in HI.
      apply run_in_quiet; [apply quiet_emit; reflexivity| |].
      * intros _ p' (Hw & Ht & Ho).
        split; [cbn; apply Hmain; discriminate|].
        cbn. rewrite Hw, Ht, Ho. exact HI.
      * intros msg p' (Hw & Ht & Ho).
        split; [cbn; rewrite Hs; apply Hmain; discriminate|].
        cbn. rewrite Hs, Hw, Ht, Ho. exact HI.
    + (* wg.Add *)
      injection Hstep as <-. destruct HI as [_ HI]. rewrite Hs in HI.
      destruct HI as (Ht & Hw & Ho).
      unfold run_in, WaitGroup_Add. rewrite Hw, (wg_Add_in_range _ 0) by lia.
      split; [cbn; apply Hmain; discriminate|].
      cbn. rewrite Ht. unfold spawning. cbn. repeat split; lia.
    + (* a turn of the loop *)
      destruct HI as [_ HI]. rewrite Hs in HI.
      destruct HI as (Hi & Hl & Hw & Ho).
      destruct (i <? numClients (scenario pg)) eqn:Hlt; injection Hstep as <-.
      * apply Z.ltb_lt in Hlt. unfold run_in, on_pool, go_client.
        destruct (pool s) as [p|].
        -- split; [cbn; apply Hmain; discriminate|].
           cbn [simpc proc]. unfold spawning. cbn [tasks wg out].
           rewrite length_app, pending_snoc, reported_snoc. cbn.
           repeat split; lia.
        -- split; [cbn; rewrite Hs; apply Hmain; discriminate|].
           cbn. rewrite Hs. repeat split; assumption || lia.
      * apply Z.ltb_ge in Hlt.
        split; [cbn; apply Hmain; discriminate|].
        cbn. assert (i = numClients (scenario pg)) as <- by lia.
        unfold spawned. repeat split; lia.
    + (* wg.Wait() *)
      destruct (wg (proc s) =? 0) eqn:Hz; [|discriminate]. injection Hstep as <-.
      apply Z.eqb_eq in Hz. destruct HI as [_ HI]. rewrite Hs in HI.
      split; [cbn; intros Hmain'; exfalso; apply Hkeep; [discriminate|exact Hmain']|].
      cbn. split; assumption.
    + injection Hstep as <-.
      apply run_in_quiet; [apply quiet_on_pool, quiet_PrintStats| |].
      * intros _ p' (Hw & Ht & Ho). destruct HI as [_ HI]. rewrite Hs in HI.
        split; [cbn; intros Hmain'; exfalso; apply Hkeep; [discriminate|exact Hmain']|].
        cbn. unfold spawned in *. rewrite Hw, Ht, Ho. exact HI.
      * intros msg p' Hsame. apply (Inv_same_counts _ _ s); auto.
Qed.

Lemma Inv_run (acts : list Action) (s s' : Sys) :
  Inv (numClients (scenario pg)) base s ->
  run drv pg acts s = Some s' ->
  Inv (numClients (scenario pg)) base s'.
Proof.
  revert s. induction acts as [|a acts IH]; intros s HI Hrun; cbn in Hrun.
  - injection Hrun as <-. exact HI.
  - destruct (step drv pg a s) as [s1|] eqn:Hstep; [|discriminate].
    exact (IH s1 (Inv_step s s1 a HI Hstep) Hrun).
Qed.

End Safety.

(* ===================================================================== *)
(** * Progress of the simulation *)
(* ===================================================================== *)

Lemma valid_pool_handle (p : DBPool) (s : Proc) :
  valid_pool p s -> exists d, pool_handle p s d.
Proof.
  intros (i & Hp & Hi). destruct (lookup_lt_is_Some_2 (handles s) i Hi) as [d Hd].
  exists d, i. split; assumption.
Qed.

Lemma SimulateClientAbort_returns (drv : Driver) (p : DBPool) (ctx : Context)
    (qd aa : Duration) (now : Time) (s : Proc) :
  valid_pool p s ->
  exists res s',
    SimulateClientAbort drv p ctx qd aa now s = Ok res s' /\
    length (handles s') = length (handles s).
Proof.
  intros Hv. destruct (valid_pool_handle p s Hv) as (d & i & Hp & Hd).
  rewrite SimulateClientAbort_eval, Hp.
  rewrite (QueryContext_eval drv i d _ _ _ _ (announced qd aa s) Hd).
  destruct (db_closed d); [eexists _, _; split; reflexivity|].
  destruct (ctx_Err _ now) as [e|];
    [destruct e; eexists _, _; split; reflexivity|].
  cbn zeta.
  destruct (ctx_Err _ _) as [e|];
    [destruct e; eexists _, _; (split; [reflexivity|]); cbn;
     apply length_insert|].
  destruct (outcome _) as [e|];
    [destruct e|]; eexists _, _; (split; [reflexivity|]); cbn;
    apply length_insert.
Qed.

Lemma PrintStats_returns (p : DBPool) (s : Proc) :
  valid_pool p s ->
  exists s', PrintStats p s = Ok tt s' /\ handles s' = handles s.
Proof.
  intros Hv. destruct (valid_pool_handle p s Hv) as (d & i & Hp & Hd).
  destruct p as [h]. cbn in Hp. subst h.
  rewrite (PrintStats_eval i d s Hd). eexists. split; reflexivity.
Qed.

Lemma todo_positive (ts : list Client) :
  0 <= todo ts /\
  (0 < todo ts -> exists i c, ts !! i = Some c /\ c_pc c <> CDone) /\
  (todo ts = 0 -> pending ts = 0).
Proof.
  induction ts as [|t ts (Hnn & Hex & Hz)]; [cbn; repeat split; lia|].
  unfold todo, pending in *. cbn [count_pc].
  assert (Hr : 0 <= remaining (c_pc t)) by (destruct (c_pc t); cbn; lia).
  split; [lia|]. split.
  - intros Hpos. destruct (c_pc t) eqn:Hpc;
      try (exists 0%nat, t; split; [reflexivity|congruence]).
    cbn in Hpos. destruct (Hex ltac:(lia)) as (i & c & Hi & Hc).
    exists (S i), c. split; assumption.
  - intros Hzero. destruct (c_pc t); cbn in *; lia.
Qed.

Section Liveness.
Variable drv : Driver.
Variable pg : Setup.
Variable base : Z.
Variable p : DBPool.
Hypothesis Hn : 0 <= numClients (scenario pg) < 2 ^ 31.

(** Before [wg.Wait()] has returned, a task that is not finished can run
    its next statement, and nothing panics. *)
Lemma client_step_live (s : Sys) (i : nat) (now : Time) (c : Client) :
  Inv (numClients (scenario pg)) base s ->
  Live p s ->
  joining s ->
  tasks (proc s) !! i = Some c ->
  c_pc c <> CDone ->
  exists pc' p',
    step drv pg (ActClient i now) s =
      Some (mkSys (set_pc i pc' p') (pool s) (mainpc s) (simpc s) None) /\
    length (handles p') = length (handles (proc s)) /\
    tasks p' = tasks (proc s) /\
    remaining pc' = remaining (c_pc c) - 1.
Proof.
  intros HI [_ HL] Hphase Hc Hnd.
  destruct (HL Hphase) as (Hpool & Hv & Hall & Hh & Hm).
  unfold step. rewrite Hh. unfold client_step. rewrite Hc.
  assert (Hcp : c_pool c = p).
  { rewrite Forall_forall in Hall. apply Hall.
    apply list_elem_of_lookup. exists i. exact Hc. }
  destruct (c_pc c) eqn:Hpc; try congruence.
  - eexists _, _. split; [reflexivity|]. cbn. repeat split; reflexivity.
  - destruct (SimulateClientAbort_returns drv p (c_ctx c) (c_queryDuration c)
                (c_abortAfter c) now (proc s) Hv) as (res & s1 & Hrun & Hlen).
    unfold run_in. rewrite Hcp, Hrun.
    eexists _, _. split; [reflexivity|].
    split; [exact Hlen|]. split; [|reflexivity].
    pose proof (quiet_Ok _ _ _ _ (quiet_SimulateClientAbort drv p (c_ctx c)
                  (c_queryDuration c) (c_abortAfter c) now) Hrun) as (_ & Ht & _).
    exact Ht.
  - destruct err; eexists _, _; (split; [reflexivity|]); cbn;
      repeat split; reflexivity.
  - pose proof (Inv_wg _ _ s (proj1 Hn) HI) as Hwg.
    pose proof (pending_lookup _ _ _ Hc) as Hle. rewrite Hpc in Hle. cbn in Hle.
    unfold run_in, WaitGroup_Done, WaitGroup_Add.
    rewrite wg_Add_in_range by lia.
    eexists _, _. split; [reflexivity|]. cbn. repeat split; reflexivity.
Qed.

Lemma set_pc_pools (i : nat) (pc : ClientPC) (s : Proc) :
  Forall (fun c => c_pool c = p) (tasks s) ->
  Forall (fun c => c_pool c = p) (tasks (set_pc i pc s)).
Proof.
  intros Hall. unfold set_pc.
  destruct (tasks s !! i) as [c|] eqn:Hc; [|exact Hall]. cbn.
  apply Forall_insert; [exact Hall|]. cbn.
  rewrite Forall_forall in Hall. apply Hall.
  apply list_elem_of_lookup. exists i. exact Hc.
Qed.

Lemma clients_from_pools (ctx : Context) (qd aa : Duration) (k : nat) (i : Z) :
  Forall (fun c => c_pool c = p) (clients_from p ctx qd aa i k).
Proof.
  revert i. induction k as [|k IH]; intros i; cbn; constructor; auto.
Qed.

Lemma handles_set_pc (i : nat) (pc : ClientPC) (s : Proc) :
  handles (set_pc i pc s) = handles s.
Proof. unfold set_pc. destruct (tasks s !! i); reflexivity. Qed.

(** The goroutine [simulateClientAborts] never goes back. *)
Lemma late_step (s s' : Sys) (a : Action) :
  Inv (numClients (scenario pg)) base s ->
  step drv pg a s = Some s' ->
  wait_returned s -> wait_returned s'.
Proof.
  intros HI Hstep Hlate. unfold step in Hstep.
  destruct (halted s); [discriminate|].
  assert (Hmain : mainpc s <> MStart /\ mainpc s <> MInit).
  { split; intros Hm; [pose proof (proj1 HI (or_introl Hm)) as Hs
                      |pose proof (proj1 HI (or_intror Hm)) as Hs];
      destruct Hlate as [H|[H|H]]; congruence. }
  destruct Hmain as (Hm1 & Hm2).
  destruct a as [| | | |i now].
  - unfold main_step in Hstep.
    destruct (mainpc s); try congruence; injection Hstep as <-.
    apply run_in_cases; intros; exact Hlate.
  - unfold main_tick in Hstep.
    destruct (mainpc s); try congruence; injection Hstep as <-.
    apply run_in_cases; intros; exact Hlate.
  - unfold main_recv in Hstep.
    destruct (mainpc s); try congruence.
    destruct (simpc s); try congruence. injection Hstep as <-.
    apply run_in_cases; intros; [right; right; reflexivity | exact Hlate].
  - unfold simulateClientAborts_step in Hstep.
    destruct (simpc s) eqn:Hs;
      try (destruct Hlate as [H|[H|H]]; congruence).
    injection Hstep as <-.
    apply run_in_cases; intros; [right; left; reflexivity|].
    unfold wait_returned. cbn. rewrite Hs. left. reflexivity.
  - unfold client_step in Hstep.
    destruct (tasks (proc s) !! i) as [c|]; [|discriminate].
    destruct (c_pc c); try discriminate; injection Hstep as <-;
      apply run_in_cases; intros; exact Hlate.
Qed.

Lemma Live_step (s s' : Sys) (a : Action) :
  Inv (numClients (scenario pg)) base s ->
  Live p s ->
  step drv pg a s = Some s' ->
  Live p s'.
Proof.
  intros HI HL Hstep.
  assert (Hcases : joining s \/ wait_returned s).
  { destruct HL as [Hne _]. unfold joining, wait_returned.
    destruct (simpc s); try congruence; tauto. }
  assert (Hlate : wait_returned s' -> Live p s').
  { intros Hl. split; destruct Hl as [H|[H|H]]; unfold joining; rewrite H;
      try discriminate; intros []. }
  destruct Hcases as [Hj|Hs]; [|exact (Hlate (late_step s s' a HI Hstep Hs))].
  destruct (proj2 HL Hj) as (Hpool & Hv & Hall & Hh & Hm).
  (* the process goes on, with the handles there and the tasks on [p] *)
  assert (Hkeep : forall pc' p',
            pc' <> SNone ->
            Forall (fun c => c_pool c = p) (tasks p') ->
            length (handles p') = length (handles (proc s)) ->
            Live p (mkSys p' (Some p) MLoop pc' None)).
  { intros pc' p' Hne Hall' Hlen. split; cbn; [exact Hne|]. intros _.
    split; [reflexivity|]. split; [|split; [exact Hall'|split; reflexivity]].
    destruct Hv as (j & Hj' & Hlt). exists j. split; [exact Hj'|].
    rewrite Hlen. exact Hlt. }
  unfold step in Hstep. rewrite Hh in Hstep.
  destruct a as [| | | |i now].
  - unfold main_step in Hstep. rewrite Hm in Hstep. discriminate.
  - unfold main_tick, run_in, on_pool in Hstep. rewrite Hm, Hpool in Hstep.
    destruct (PrintStats_returns p (proc s) Hv) as (s1 & Hrun & Hhs).
    pose proof (quiet_Ok _ _ _ _ (quiet_PrintStats p) Hrun) as (_ & Hts & _).
    rewrite Hrun in Hstep. injection Hstep as <-.
    apply Hkeep; [exact (proj1 HL) | rewrite Hts; exact Hall | rewrite Hhs; reflexivity].
  - unfold main_recv in Hstep. rewrite Hm in Hstep. unfold joining in Hj.
    destruct (simpc s); try discriminate; elim Hj.
  - unfold simulateClientAborts_step in Hstep. rewrite Hpool, Hm in Hstep.
    pose proof HI as [_ HI']. unfold joining in Hj.
    destruct (simpc s) eqn:Hs; try (elim Hj).
    + unfold run_in, fmt_Println, emit in Hstep. injection Hstep as <-.
      apply Hkeep; [discriminate | exact Hall | reflexivity].
    + unfold run_in, log_Printf, emit in Hstep. injection Hstep as <-.
      apply Hkeep; [discriminate | exact Hall | reflexivity].
    + destruct HI' as (Ht & Hw & _).
      unfold run_in, WaitGroup_Add in Hstep.
      rewrite Hw, (wg_Add_in_range _ 0) in Hstep by lia. injection Hstep as <-.
      apply Hkeep; [discriminate | exact Hall | reflexivity].
    + destruct (i <? numClients (scenario pg)); injection Hstep as <-.
      * unfold run_in, on_pool, go_client. rewrite Hpool.
        apply Hkeep; [discriminate | | reflexivity]. cbn [tasks].
        apply Forall_app. split; [exact Hall|]. constructor; [reflexivity|constructor].
      * apply Hkeep; [discriminate | exact Hall | reflexivity].
    + destruct (wg (proc s) =? 0); [|discriminate]. injection Hstep as <-.
      apply Hlate. left. reflexivity.
  - destruct (tasks (proc s) !! i) as [c|] eqn:Hc.
    + destruct (c_pc c) eqn:Hpc;
        try (destruct (client_step_live s i now c HI HL Hj Hc ltac:(congruence))
               as (pc' & p' & Hrun & Hlen & Hts & _);
             unfold step in Hrun; rewrite Hh in Hrun;
             rewrite Hrun in Hstep; injection Hstep as <-;
             rewrite Hpool, Hm; apply Hkeep;
             [exact (proj1 HL)
             |apply set_pc_pools; rewrite Hts; exact Hall
             |rewrite handles_set_pc; exact Hlen]).
      unfold client_step in Hstep. rewrite Hc, Hpc in Hstep. discriminate.
    + unfold client_step in Hstep. rewrite Hc in Hstep. discriminate.
Qed.

End Liveness.

Lemma run_app (drv : Driver) (pg : Setup) (a b : list Action) (s : Sys) :
  run drv pg (a ++ b) s =
  match run drv pg a s with
  | Some s1 => run drv pg b s1
  | None => None
  end.
Proof.
  revert s. induction a as [|x a IH]; intros s; [reflexivity|].
  cbn [app run]. destruct (step drv pg x s); [apply IH|reflexivity].
Qed.

Lemma reaches_refl (drv : Driver) (pg : Setup) (s : Sys) : reaches drv pg s s.
Proof. exists []. reflexivity. Qed.

Lemma reaches_trans (drv : Driver) (pg : Setup) (a b c : Sys) :
  reaches drv pg a b -> reaches drv pg b c -> reaches drv pg a c.
Proof.
  intros [l1 H1] [l2 H2]. exists (l1 ++ l2). rewrite run_app, H1. exact H2.
Qed.

Lemma reaches_step (drv : Driver) (pg : Setup) (x : Action) (a b : Sys) :
  step drv pg x a = Some b -> reaches drv pg a b.
Proof. intros H. exists [x]. cbn. rewrite H. reflexivity. Qed.

Lemma joining_SWait (s : Sys) : simpc s = SWait -> joining s.
Proof. intros H. unfold joining. rewrite H. exact I. Qed.

Section Join.
Variable drv : Driver.
Variable pg : Setup.
Variable base : Z.
Variable p : DBPool.
Hypothesis Hn : 0 <= numClients (scenario pg) < 2 ^ 31.

Lemma Live_run (acts : list Action) (s s' : Sys) :
  Inv (numClients (scenario pg)) base s ->
  Live p s ->
  run drv pg acts s = Some s' ->
  Live p s'.
Proof.
  revert s. induction acts as [|a acts IH]; intros s HI HL Hrun; cbn in Hrun.
  - injection Hrun as <-. exact HL.
  - destruct (step drv pg a s) as [s1|] eqn:Hstep; [|discriminate].
    exact (IH s1 (Inv_step drv pg base Hn s s1 a HI Hstep)
                 (Live_step drv pg base p Hn s s1 a HI HL Hstep) Hrun).
Qed.

(** While [simulateClientAborts] waits, the clients can be run to their
    end. *)
Lemma drain (k : nat) (s : Sys) :
  Inv (numClients (scenario pg)) base s ->
  Live p s ->
  simpc s = SWait ->
  todo (tasks (proc s)) = Z.of_nat k ->
  exists s',
    reaches drv pg s s' /\
    Inv (numClients (scenario pg)) base s' /\ Live p s' /\
    simpc s' = SWait /\ todo (tasks (proc s')) = 0.
Proof.
  revert s. induction k as [|k IH]; intros s HI HL Hs Htodo.
  - exists s. split; [apply reaches_refl|].
    split; [exact HI|]. split; [exact HL|]. split; [exact Hs|]. lia.
  - destruct (todo_positive (tasks (proc s))) as (_ & Hex & _).
    destruct (Hex ltac:(lia)) as (i & c & Hc & Hnd).
    destruct (client_step_live drv pg base p Hn s i 0 c HI HL (joining_SWait s Hs) Hc Hnd)
      as (pc' & p' & Hstep & _ & Hts & Hrem).
    pose proof (Inv_step drv pg base Hn _ _ _ HI Hstep) as HI1.
    pose proof (Live_step drv pg base p Hn _ _ _ HI HL Hstep) as HL1.
    destruct (IH _ HI1 HL1) as (s' & Hreach & Hrest).
    + exact Hs.
    + cbn [proc]. rewrite (set_pc_eval i pc' p' c) by (rewrite Hts; exact Hc).
      cbn [tasks]. unfold todo in *. rewrite Hts.
      rewrite (count_pc_insert _ _ _ c) by exact Hc. cbn [c_pc]. lia.
    + exists s'. split; [|exact Hrest].
      eapply reaches_trans; [eapply reaches_step; exact Hstep | exact Hreach].
Qed.

(** The turns of the loop that are left, the clients not running: they
    start the clients [i + 1], ..., and the call returns. *)
Lemma spawn_rest (q : DBPool) (k : nat) :
  forall (s : Sys) (i : Z),
    halted s = None -> pool s = Some q -> simpc s = SSpawn i ->
    numClients (scenario pg) - i = Z.of_nat k ->
    run drv pg (repeat ActSim (S k)) s =
    Some (mkSys (mkProc (tick (proc s)) (handles (proc s)) (out (proc s))
                   (wg (proc s))
                   (tasks (proc s) ++
                    clients_from q (sc_ctx (scenario pg)) (queryDuration (scenario pg))
                      (abortAfter (scenario pg)) i k))
                (pool s) (mainpc s) SWait None).
Proof.
  induction k as [|k IH]; intros s i Hh Hp Hs Hk.
  - cbn [repeat run]. unfold step. rewrite Hh.
    unfold simulateClientAborts_step. rewrite Hs.
    assert (Hlt : (i <? numClients (scenario pg)) = false) by (apply Z.ltb_ge; lia).
    rewrite Hlt. cbn [clients_from]. rewrite app_nil_r.
    destruct s as [[t h o g ts] po m sp hl]. reflexivity.
  - change (repeat ActSim (S (S k))) with (ActSim :: repeat ActSim (S k)).
    cbn [run]. unfold step at 1. rewrite Hh.
    unfold simulateClientAborts_step. rewrite Hs.
    assert (Hlt : (i <? numClients (scenario pg)) = true) by (apply Z.ltb_lt; lia).
    rewrite Hlt. unfold run_in, on_pool, go_client. rewrite Hp.
    rewrite (IH _ (i + 1)); try reflexivity; [|lia].
    cbn [proc tick handles out wg tasks pool mainpc clients_from].
    rewrite <- app_assoc. reflexivity.
Qed.

(** The three statements before the loop, then the loop. *)
Lemma spawn_run (s : Sys) (q : DBPool) :
  halted s = None -> pool s = Some q -> simpc s = SStart -> wg (proc s) = 0 ->
  run drv pg (repeat ActSim (Z.to_nat (numClients (scenario pg)) + 4)) s =
  Some (mkSys (mkProc (tick (proc s)) (handles (proc s))
                 (out (proc s) ++
                  [EvPrintln "Multiple concurrent client aborts:";
                   EvLog "Simulating %d client aborts"
                         [VInt (numClients (scenario pg))]])
                 (numClients (scenario pg))
                 (tasks (proc s) ++
                  clients_from q (sc_ctx (scenario pg)) (queryDuration (scenario pg))
                    (abortAfter (scenario pg)) 0
                    (Z.to_nat (numClients (scenario pg)))))
              (pool s) (mainpc s) SWait None).
Proof.
  intros Hh Hp Hs Hw.
  replace (Z.to_nat (numClients (scenario pg)) + 4)%nat
    with (S (S (S (S (Z.to_nat (numClients (scenario pg)))))))%nat by lia.
  set (N := Z.to_nat (numClients (scenario pg))).
  change (repeat ActSim (S (S (S (S N)))))
    with (ActSim :: ActSim :: ActSim :: repeat ActSim (S N)).
  set (s1 := mkSys (logged (EvPrintln "Multiple concurrent client aborts:") (proc s))
                   (pool s) (mainpc s) SCall None).
  assert (H1 : step drv pg ActSim s = Some s1).
  { unfold step. rewrite Hh. unfold simulateClientAborts_step. rewrite Hs.
    reflexivity. }
  set (s2 := mkSys (logged (EvLog "Simulating %d client aborts"
                                  [VInt (numClients (scenario pg))]) (proc s1))
                   (pool s) (mainpc s) SAdd None).
  assert (H2 : step drv pg ActSim s1 = Some s2) by reflexivity.
  set (s3 := mkSys (mkProc (tick (proc s)) (handles (proc s)) (out (proc s2))
                      (numClients (scenario pg)) (tasks (proc s)))
                   (pool s) (mainpc s) (SSpawn 0) None).
  assert (H3 : step drv pg ActSim s2 = Some s3).
  { unfold step, simulateClientAborts_step, run_in, WaitGroup_Add.
    cbn [halted s2 simpc proc wg logged s1].
    rewrite Hw, (wg_Add_in_range _ 0) by lia. reflexivity. }
  cbn [run]. rewrite H1, H2, H3.
  rewrite (spawn_rest q N s3 0); [|reflexivity|exact Hp|reflexivity|subst N; lia].
  subst s3 s2 s1. cbn. rewrite <- app_assoc. reflexivity.
Qed.

(** Run on its own, the call does what the function
    [SimulateMultipleClientAborts] does. *)
Lemma spawn_steps_agree (s : Sys) (q : DBPool) (w' : Proc) :
  halted s = None -> pool s = Some q -> simpc s = SStart -> wg (proc s) = 0 ->
  SimulateMultipleClientAborts q (sc_ctx (scenario pg)) (numClients (scenario pg))
    (queryDuration (scenario pg)) (abortAfter (scenario pg))
    (logged (EvPrintln "Multiple concurrent client aborts:") (proc s)) = Ok tt w' ->
  run drv pg (repeat ActSim (Z.to_nat (numClients (scenario pg)) + 4)) s =
  Some (mkSys w' (pool s) (mainpc s) SWait None).
Proof.
  intros Hh Hp Hs Hw Hrun. rewrite (spawn_run s q Hh Hp Hs Hw).
  rewrite SimulateMultipleClientAborts_eval in Hrun. cbn [logged wg] in Hrun.
  rewrite Hw, (wg_Add_in_range _ 0) in Hrun by lia.
  injection Hrun as <-. cbn. rewrite <- app_assoc. reflexivity.
Qed.

(** Before [wg.Wait()], [simulateClientAborts] can run its next
    statement. *)
Lemma sim_can_step (s : Sys) :
  Inv (numClients (scenario pg)) base s ->
  Live p s ->
  joining s ->
  simpc s <> SWait ->
  exists s1,
    step drv pg ActSim s = Some s1 /\
    simpc s1 =
      match simpc s with
      | SStart => SCall
      | SCall => SAdd
      | SAdd => SSpawn 0
      | SSpawn i => if i <? numClients (scenario pg) then SSpawn (i + 1) else SWait
      | pc => pc
      end.
Proof.
  intros [_ HI] [_ HL] Hj Hnw.
  destruct (HL Hj) as (Hp & _ & _ & Hh & _).
  unfold step. rewrite Hh. unfold simulateClientAborts_step.
  unfold joining in Hj.
  destruct (simpc s); try (elim Hj); try congruence.
  - eexists. split; [reflexivity|]. reflexivity.
  - eexists. split; [reflexivity|]. reflexivity.
  - destruct HI as (_ & Hw & _). unfold run_in, WaitGroup_Add.
    rewrite Hw, (wg_Add_in_range _ 0) by lia.
    eexists. split; reflexivity.
  - destruct (i <? numClients (scenario pg)).
    + unfold run_in, on_pool, go_client. rewrite Hp. eexists. split; reflexivity.
    + eexists. split; reflexivity.
Qed.

(** The loop comes to its end. *)
Lemma loop_can_finish (k : nat) :
  forall (s : Sys) (i : Z),
    Inv (numClients (scenario pg)) base s ->
    Live p s ->
    simpc s = SSpawn i ->
    numClients (scenario pg) - i = Z.of_nat k ->
    exists s',
      reaches drv pg s s' /\
      Inv (numClients (scenario pg)) base s' /\ Live p s' /\ simpc s' = SWait.
Proof.
  induction k as [|k IH]; intros s i HI HL Hs Hk.
  - assert (Hj : joining s) by (unfold joining; rewrite Hs; exact I).
    destruct (sim_can_step s HI HL Hj ltac:(congruence)) as (s1 & Hstep & Hs1).
    rewrite Hs in Hs1.
    assert (Hlt : (i <? numClients (scenario pg)) = false) by (apply Z.ltb_ge; lia).
    rewrite Hlt in Hs1.
    exists s1. split; [eapply reaches_step; exact Hstep|].
    split; [exact (Inv_step drv pg base Hn _ _ _ HI Hstep)|].
    split; [exact (Live_step drv pg base p Hn _ _ _ HI HL Hstep) | exact Hs1].
  - assert (Hj : joining s) by (unfold joining; rewrite Hs; exact I).
    destruct (sim_can_step s HI HL Hj ltac:(congruence)) as (s1 & Hstep & Hs1).
    rewrite Hs in Hs1.
    assert (Hlt : (i <? numClients (scenario pg)) = true) by (apply Z.ltb_lt; lia).
    rewrite Hlt in Hs1.
    destruct (IH s1 (i + 1) (Inv_step drv pg base Hn _ _ _ HI Hstep)
                (Live_step drv pg base p Hn _ _ _ HI HL Hstep) Hs1 ltac:(lia))
      as (s' & Hreach & Hrest).
    exists s'. split; [|exact Hrest].
    eapply reaches_trans; [eapply reaches_step; exact Hstep | exact Hreach].
Qed.

(** The call of [SimulateMultipleClientAborts] can always return. *)
Lemma call_can_return :
  forall s : Sys,
  Inv (numClients (scenario pg)) base s ->
  Live p s ->
  joining s ->
  exists s',
    reaches drv pg s s' /\
    Inv (numClients (scenario pg)) base s' /\ Live p s' /\ simpc s' = SWait.
Proof.
  assert (Hloop : forall s i,
            Inv (numClients (scenario pg)) base s -> Live p s ->
            simpc s = SSpawn i ->
            exists s',
              reaches drv pg s s' /\
              Inv (numClients (scenario pg)) base s' /\ Live p s' /\
              simpc s' = SWait).
  { intros s i HI HL Hs.
    pose proof HI as [_ HI']. rewrite Hs in HI'. destruct HI' as (Hi & _).
    apply (loop_can_finish (Z.to_nat (numClients (scenario pg) - i)) s i);
      try assumption. lia. }
  assert (Hnext : forall s,
            Inv (numClients (scenario pg)) base s -> Live p s -> joining s ->
            simpc s <> SWait ->
            (forall s1,
               Inv (numClients (scenario pg)) base s1 -> Live p s1 ->
               simpc s1 = match simpc s with
                          | SStart => SCall
                          | SCall => SAdd
                          | SAdd => SSpawn 0
                          | SSpawn i =>
                              if i <? numClients (scenario pg)
                              then SSpawn (i + 1) else SWait
                          | pc => pc
                          end ->
               exists s',
                 reaches drv pg s1 s' /\
                 Inv (numClients (scenario pg)) base s' /\ Live p s' /\
                 simpc s' = SWait) ->
            exists s',
              reaches drv pg s s' /\
              Inv (numClients (scenario pg)) base s' /\ Live p s' /\
              simpc s' = SWait).
  { intros s HI HL Hj Hnw Hcont.
    destruct (sim_can_step s HI HL Hj Hnw) as (s1 & Hstep & Hs1).
    destruct (Hcont s1 (Inv_step drv pg base Hn _ _ _ HI Hstep)
                (Live_step drv pg base p Hn _ _ _ HI HL Hstep) Hs1)
      as (s' & Hreach & Hrest).
    exists s'. split; [|exact Hrest].
    eapply reaches_trans; [eapply reaches_step; exact Hstep | exact Hreach]. }
  assert (HAdd : forall s,
            Inv (numClients (scenario pg)) base s -> Live p s -> simpc s = SAdd ->
            exists s',
              reaches drv pg s s' /\
              Inv (numClients (scenario pg)) base s' /\ Live p s' /\
              simpc s' = SWait).
  { intros s HI HL Hs.
    apply (Hnext s HI HL); [unfold joining; rewrite Hs; exact I|congruence|].
    rewrite Hs. intros s1 HI1 HL1 Hs1. exact (Hloop s1 0 HI1 HL1 Hs1). }
  assert (HCall : forall s,
            Inv (numClients (scenario pg)) base s -> Live p s -> simpc s = SCall ->
            exists s',
              reaches drv pg s s' /\
              Inv (numClients (scenario pg)) base s' /\ Live p s' /\
              simpc s' = SWait).
  { intros s HI HL Hs.
    apply (Hnext s HI HL); [unfold joining; rewrite Hs; exact I|congruence|].
    rewrite Hs. intros s1 HI1 HL1 Hs1. exact (HAdd s1 HI1 HL1 Hs1). }
  intros s HI HL Hj.
  destruct (simpc s) eqn:Hs; try (unfold joining in Hj; rewrite Hs in Hj; contradiction).
  - apply (Hnext s HI HL Hj); [congruence|].
    rewrite Hs. intros s1 HI1 HL1 Hs1. exact (HCall s1 HI1 HL1 Hs1).
  - exact (HCall s HI HL Hs).
  - exact (HAdd s HI HL Hs).
  - exact (Hloop s i HI HL Hs).
  - exists s. split; [apply reaches_refl|].
    split; [exact HI|]. split; [exact HL | exact Hs].
Qed.

Lemma wait_can_return (s : Sys) :
  Inv (numClients (scenario pg)) base s ->
  Live p s ->
  exists s', reaches drv pg s s' /\ wait_returned s'.
Proof.
  intros HI HL.
  assert (Hwait : forall s0, Inv (numClients (scenario pg)) base s0 ->
            Live p s0 -> simpc s0 = SWait ->
            exists s', reaches drv pg s0 s' /\ wait_returned s').
  { intros s0 HI0 HL0 Hs0.
    destruct (todo_positive (tasks (proc s0))) as (Hnn & _ & _).
    destruct (drain (Z.to_nat (todo (tasks (proc s0)))) s0 HI0 HL0 Hs0
                ltac:(lia)) as (s1 & Hreach & HI1 & HL1 & Hs1 & Hz).
    destruct (proj2 HL1 (joining_SWait s1 Hs1)) as (_ & _ & _ & Hh & _).
    pose proof HI1 as [_ Hsp]. rewrite Hs1 in Hsp. destruct Hsp as (_ & Hwg & _).
    destruct (todo_positive (tasks (proc s1))) as (_ & _ & Hpz).
    exists (mkSys (proc s1) (pool s1) (mainpc s1) SStats None). split.
    - eapply reaches_trans; [exact Hreach|].
      apply (reaches_step _ _ ActSim). unfold step. rewrite Hh.
      unfold simulateClientAborts_step. rewrite Hs1, Hwg, (Hpz Hz). reflexivity.
    - left. reflexivity. }
  assert (Hcases : joining s \/ wait_returned s).
  { destruct HL as [Hne _]. unfold joining, wait_returned.
    destruct (simpc s); try congruence; tauto. }
  destruct Hcases as [Hj|Hs].
  - destruct (call_can_return s HI HL Hj) as (s1 & Hreach1 & HI1 & HL1 & Hs1).
    destruct (Hwait s1 HI1 HL1 Hs1) as (s' & Hreach & Hret).
    exists s'. split; [|exact Hret].
    eapply reaches_trans; eassumption.
  - exists s. split; [apply reaches_refl | exact Hs].
Qed.

End Join.

Lemma Inv_launch (n : Z) (p : DBPool) (w : Proc) :
  Inv n (outcomes (out w)) (launch p w).
Proof.
  split; cbn; [intros [|]; discriminate|]. repeat split.
Qed.

Lemma Live_launch (p : DBPool) (w : Proc) :
  valid_pool p w -> Live p (launch p w).
Proof.
  intros Hv. split; cbn; [discriminate|]. intros _.
  split; [reflexivity|]. split; [exact Hv|]. split; [constructor|].
  split; reflexivity.
Qed.

Lemma clients_from_not_started (p : DBPool) (ctx : Context) (qd aa : Duration)
    (k : nat) (i : Z) :
  Forall (fun c => c_pc c = CStart) (clients_from p ctx qd aa i k).
Proof. revert i. induction k as [|k IH]; intros i; cbn; constructor; auto. Qed.

(* ===================================================================== *)
(** * Joining the clients *)
(* ===================================================================== *)

(** C1, as the code has it.  Take any pool, any process state and any
    scenario with [0 < n < 2^31] clients (the counter of the wait group has
    32 bits), and start [simulateClientAborts].  The call of
    [SimulateMultipleClientAborts] does not wait for the clients: there is
    a run, that in which the statements of the call are run on their own
    and do what the function does, in which it returns with the [n] tasks
    started, none of which has run a statement, and no outcome recorded;
    and in every
    interleaving, when it has returned, [n] tasks have been started, the
    wait group counts those of them that have not finished, and the
    outcome lines added are those of the tasks that have reported.  The
    join is the [wg.Wait()] of the caller: in every state of every
    interleaving in which it has returned there are exactly [n] tasks,
    all finished, and exactly [n] outcome lines have been added to the
    output.  When the handle of the pool exists, from every state reached
    the run can go on to a state where [wg.Wait()] has returned. *)
Theorem wait_joins_all_clients (drv : Driver) (pg : Setup) (p : DBPool)
    (w : Proc) :
  0 < numClients (scenario pg) < 2 ^ 31 ->
  (exists w1,
     SimulateMultipleClientAborts p (sc_ctx (scenario pg))
       (numClients (scenario pg)) (queryDuration (scenario pg))
       (abortAfter (scenario pg))
       (logged (EvPrintln "Multiple concurrent client aborts:")
               (proc (launch p w))) = Ok tt w1 /\
     run drv pg (repeat ActSim (Z.to_nat (numClients (scenario pg)) + 4))
       (launch p w) = Some (mkSys w1 (Some p) MLoop SWait None) /\
     length (tasks w1) = Z.to_nat (numClients (scenario pg)) /\
     Forall (fun c => c_pc c = CStart) (tasks w1) /\
     wg w1 = numClients (scenario pg) /\
     outcomes (out w1) = outcomes (out w)) /\
  (forall s,
     reaches drv pg (launch p w) s ->
     simpc s = SWait ->
     length (tasks (proc s)) = Z.to_nat (numClients (scenario pg)) /\
     wg (proc s) = pending (tasks (proc s)) /\
     outcomes (out (proc s)) = outcomes (out w) + reported (tasks (proc s))) /\
  (forall s,
     reaches drv pg (launch p w) s ->
     wait_returned s ->
     length (tasks (proc s)) = Z.to_nat (numClients (scenario pg)) /\
     Forall finished (tasks (proc s)) /\
     outcomes (out (proc s)) = outcomes (out w) + numClients (scenario pg)) /\
  (valid_pool p w ->
   forall s,
     reaches drv pg (launch p w) s ->
     exists s', reaches drv pg s s' /\ wait_returned s').
Proof.
  intros Hn. assert (Hn' : 0 <= numClients (scenario pg) < 2 ^ 31) by lia.
  split; [|split; [|split]].
  - eexists. split.
    { rewrite SimulateMultipleClientAborts_eval. cbn [logged launch proc wg].
      rewrite (wg_Add_in_range _ 0) by lia. reflexivity. }
    split.
    { apply (spawn_steps_agree drv pg Hn' (launch p w) p); try reflexivity.
      rewrite SimulateMultipleClientAborts_eval. cbn [logged launch proc wg].
      rewrite (wg_Add_in_range _ 0) by lia. reflexivity. }
    cbn. split; [apply clients_from_counts|].
    split; [apply clients_from_not_started|].
    split; [lia|]. rewrite !outcomes_app. cbn. lia.
  - intros s [acts Hrun] Hs.
    pose proof (Inv_run drv pg _ Hn' acts _ _ (Inv_launch _ p w) Hrun) as [_ HI].
    rewrite Hs in HI. exact HI.
  - intros s [acts Hrun] Hret.
    pose proof (Inv_run drv pg _ Hn' acts _ _ (Inv_launch _ p w) Hrun) as [_ HI].
    assert (Hsp : spawned (numClients (scenario pg)) (outcomes (out w)) (proc s) /\
                  wg (proc s) = 0).
    { destruct Hret as [H|[H|H]]; rewrite H in HI; exact HI. }
    destruct Hsp as ((Hl & Hwg & Ho) & Hz).
    assert (Hfin : Forall finished (tasks (proc s)))
      by (apply pending_zero_finished; lia).
    split; [exact Hl|]. split; [exact Hfin|].
    rewrite Ho, (finished_reported _ Hfin), Hl. lia.
  - intros Hv s [acts Hrun].
    apply (wait_can_return drv pg (outcomes (out w)) p Hn').
    + exact (Inv_run drv pg _ Hn' acts _ _ (Inv_launch _ p w) Hrun).
    + exact (Live_run drv pg _ p Hn' acts _ _ (Inv_launch _ p w)
               (Live_launch p w Hv) Hrun).
Qed.

Lemma wait_joins_all_clients_witness :
  exists s,
    reaches sleepyStore mainSetup (launch pool0 oneHandle) s /\
    wait_returned s /\
    length (tasks (proc s)) = 5%nat /\
    Forall finished (tasks (proc s)) /\
    outcomes (out (proc s)) = 5.
Proof.
  destruct (wait_joins_all_clients sleepyStore mainSetup pool0 oneHandle)
    as (_ & _ & Hsafe & Hlive); [cbn; lia|].
  destruct (Hlive (ex_intro _ 0%nat (conj eq_refl (Nat.lt_0_succ 0)))
              (launch pool0 oneHandle) (reaches_refl _ _ _))
    as (s & Hreach & Hret).
  exists s. split; [exact Hreach|]. split; [exact Hret|].
  exact (Hsafe s Hreach Hret).
Defined.

(** C1, as stated, fails: in the run of a one-client scenario in which
    only [simulateClientAborts] moves, [SimulateMultipleClientAborts] has
    returned to its caller, which is at its [wg.Wait()], while the one task
    has not run a single statement and no outcome has been recorded. *)
Lemma SimulateMultipleClientAborts_returns_before_the_clients :
  exists s,
    run sleepyStore (setup_of 1) (repeat ActSim 5) (launch pool0 oneHandle) = Some s /\
    simpc s = SWait /\
    tasks (proc s) =
      [mkClient 1 pool0 Background (15 * Minute) (10 * Minute) CStart] /\
    ~ Forall finished (tasks (proc s)) /\
    wg (proc s) = 1 /\
    outcomes (out (proc s)) = 0 /\
    outcomes (out (proc s)) <> outcomes (out oneHandle) + 1.
Proof.
  eexists. split; [reflexivity|]. cbn.
  split; [reflexivity|]. split; [reflexivity|].
  split; [|repeat split; discriminate].
  intros H. inversion H as [|c l Hc _]. discriminate Hc.
Qed.

(** The schedule that runs the clients one after the other, for one, five
    and fifty clients. *)
Example join_1 :
  match run sleepyStore (setup_of 1) (one_by_one 1 0) (launch pool0 oneHandle) with
  | Some s => simpc s = SStats /\ outcomes (out (proc s)) = 1
  | None => False
  end.
Proof. vm_compute. split; reflexivity. Qed.

Example join_5 :
  match run sleepyStore (setup_of 5) (one_by_one 5 0) (launch pool0 oneHandle) with
  | Some s => simpc s = SStats /\ outcomes (out (proc s)) = 5
  | None => False
  end.
Proof. vm_compute. split; reflexivity. Qed.

Example join_50 :
  match run sleepyStore (setup_of 50) (one_by_one 50 0) (launch pool0 oneHandle) with
  | Some s => simpc s = SStats /\ outcomes (out (proc s)) = 50
  | None => False
  end.
Proof. vm_compute. split; reflexivity. Qed.

(** The schedule in which every client runs to its end before the next
    one is started: the first has finished while the loop still runs. *)
Example join_at_once :
  match run sleepyStore (setup_of 5) (at_once 5 0) (launch pool0 oneHandle) with
  | Some s => simpc s = SStats /\ outcomes (out (proc s)) = 5
  | None => False
  end.
Proof. vm_compute. split; reflexivity. Qed.

Example first_client_done_in_the_loop :
  match run sleepyStore (setup_of 5)
          (repeat ActSim 4 ++ client_turn 0 0%nat) (launch pool0 oneHandle) with
  | Some s =>
      simpc s = SSpawn 1 /\ wg (proc s) = 4 /\
      map c_pc (tasks (proc s)) = [CDone] /\ outcomes (out (proc s)) = 1
  | None => False
  end.
Proof. vm_compute. repeat split; reflexivity. Qed.

(** The whole program against a reachable store: it ends with exit status
    0, the five outcomes recorded, all of them aborts. *)
Example main_runs_to_completion :
  match run sleepyStore mainSetup
          ([ActMain; ActMain] ++ one_by_one 5 0 ++ [ActSim; ActRecv; ActMain]) boot with
  | Some s =>
      halted s = Some (Exit 0) /\ outcomes (out (proc s)) = 5 /\
      Forall (fun e => is_outcome e = true ->
                exists k, e = EvLog "Client %d: %v"
                      [VInt k; VErr (Errorf "client abort simulated: %w"
                                            DeadlineExceeded)])
             (out (proc s))
  | None => False
  end.
Proof.
  vm_compute. split; [reflexivity|]. split; [reflexivity|].
  repeat constructor; try discriminate; intros _; eexists; reflexivity.
Qed.

(* ===================================================================== *)
(** * A failed construction *)
(* ===================================================================== *)

Lemma run_halted (drv : Driver) (pg : Setup) (acts : list Action) (s s' : Sys) :
  halted s <> None -> run drv pg acts s = Some s' -> s' = s.
Proof.
  intros Hh. destruct acts as [|a acts]; cbn.
  - congruence.
  - unfold step. destruct (halted s); [discriminate|congruence].
Qed.

(** C7.  Let the construction of the pool fail, that is let [NewDBPool]
    return the error [e] in the fresh process.  Then the only step of the
    process is the fatal exit of [main] with status 1, after which nothing
    runs; in every state reached the orchestrator is still [Starting], the
    simulator has not been launched (no goroutine, no task), and no
    statistics have been printed: the output holds at most the line of
    [log.Fatalf]. *)
Theorem construction_failure_is_fatal (drv : Driver) (pg : Setup)
    (po : option DBPool) (e : error) (p' : Proc) (s : Sys) :
  NewDBPool drv (dsn pg) (config pg) emptyProc = Ok (po, Some e) p' ->
  reaches drv pg boot s ->
  (s = boot \/ halted s = Some (Exit 1)) /\
  phase s = Starting /\
  mainpc s = MStart /\
  simpc s = SNone /\
  tasks (proc s) = [] /\
  (out (proc s) = [] \/
   out (proc s) = [EvLog "Failed to create database pool: %v" [VErr e]]) /\
  (forall a s', step drv pg a s = Some s' ->
     a = ActMain /\ s = boot /\ halted s' = Some (Exit 1)).
Proof.
  intros Hnew [acts Hrun].
  set (fatal := mkSys (logged (EvLog "Failed to create database pool: %v" [VErr e]) p')
                      None MStart SNone (Some (Exit 1))).
  assert (Hboot : forall a s', step drv pg a boot = Some s' ->
                    a = ActMain /\ s' = fatal).
  { intros a s' Hstep. destruct a; try discriminate.
    split; [reflexivity|].
    unfold step, main_step, run_in in Hstep. cbn [halted boot mainpc proc] in Hstep.
    rewrite Hnew in Hstep. injection Hstep as <-. reflexivity. }
  assert (Hp' : out p' = [] /\ tasks p' = []).
  { rewrite NewDBPool_eval in Hnew.
    destruct (drv_open drv "mysql" (dsn pg)); [injection Hnew as _ _ <-; split; reflexivity|].
    cbn zeta in Hnew.
    destruct (outcome _); [injection Hnew as _ _ <-; split; reflexivity|].
    discriminate. }
  assert (Hs : s = boot \/ s = fatal).
  { destruct acts as [|a acts]; cbn [run] in Hrun; [left; congruence|].
    destruct (step drv pg a boot) as [s1|] eqn:Hstep; [|discriminate].
    destruct (Hboot a s1 Hstep) as (_ & ->).
    right. apply (run_halted drv pg acts fatal s); [cbn; discriminate|exact Hrun]. }
  destruct Hp' as (Hout & Hts).
  destruct Hs as [->| ->].
  - split; [left; reflexivity|]. repeat (split; [reflexivity|]).
    split; [left; reflexivity|].
    intros a s' Hstep. destruct (Hboot a s' Hstep) as (-> & ->).
    repeat split.
  - split; [right; reflexivity|]. repeat (split; [reflexivity|]).
    split; [exact Hts|].
    split; [right; cbn; rewrite Hout; reflexivity|].
    intros a s' Hstep. discriminate.
Qed.

Lemma construction_failure_is_fatal_witness :
  exists s,
    run downStore mainSetup [ActMain] boot = Some s /\
    halted s = Some (Exit 1) /\
    phase s = Starting /\ simpc s = SNone /\ tasks (proc s) = [] /\
    forall a s', step downStore mainSetup a s = Some s' ->
      a = ActMain /\ s = boot /\ halted s' = Some (Exit 1).
Proof.
  eexists. split; [reflexivity|].
  destruct (construction_failure_is_fatal downStore mainSetup None
              (Errorf "failed to ping database: %w"
                 (DriverError "dial tcp: connection refused"))
              _ _ eq_refl (ex_intro _ [ActMain] eq_refl))
    as (_ & Hph & _ & Hs & Ht & _ & Hnext).
  split; [reflexivity|]. split; [exact Hph|]. split; [exact Hs|].
  split; [exact Ht|exact Hnext].
Defined.

(* ===================================================================== *)
(** * Every client of a scenario with the shorter deadline is aborted *)
(* ===================================================================== *)

Lemma outcomes_zero_aborted (l : list Event) :
  outcomes l = 0 -> Forall aborted_line l.
Proof.
  induction l as [|e l IH]; intros Hz; constructor.
  - intros He. cbn [outcomes] in Hz. rewrite He in Hz.
    pose proof (outcomes_nonneg l). lia.
  - apply IH. cbn [outcomes] in Hz. pose proof (outcomes_nonneg l).
    destruct (is_outcome e); lia.
Qed.

Lemma open_pool_handles (p : DBPool) (s s' : Proc) :
  handles s' = handles s -> open_pool p s -> open_pool p s'.
Proof.
  intros Hh (d & (i & Hp & Hd) & Hc). exists d. split; [|exact Hc].
  exists i. rewrite Hh. split; assumption.
Qed.

Lemma SimulateClientAbort_keeps_open (drv : Driver) (p : DBPool) (ctx : Context)
    (qd aa : Duration) (now : Time) (s s' : Proc) (r : option error) :
  open_pool p s ->
  SimulateClientAbort drv p ctx qd aa now s = Ok r s' ->
  open_pool p s'.
Proof.
  intros (d & (i & Hp & Hd) & Hc) Hrun.
  assert (Hsame : open_pool p (announced qd aa s)).
  { exists d. split; [exists i; split; assumption | exact Hc]. }
  assert (Hins : forall f l,
            open_pool p (mkProc (S (tick s)) (<[i := set_live d f]> (handles s))
                                l (wg s) (tasks s))).
  { intros f l. exists (set_live d f). split; [|exact Hc].
    exists i. split; [exact Hp|]. cbn.
    apply list_lookup_insert_eq. eapply lookup_lt_Some; exact Hd. }
  rewrite SimulateClientAbort_eval, Hp in Hrun.
  rewrite (QueryContext_eval drv i d _ _ _ _ (announced qd aa s) Hd), Hc in Hrun.
  destruct (ctx_Err _ now) as [e|].
  - destruct e; injection Hrun as _ <-; exact Hsame.
  - cbn zeta in Hrun. cbn [announced tick handles out wg tasks] in Hrun.
    destruct (ctx_Err _ _) as [e|];
      [destruct e; injection Hrun as _ <-; apply Hins|].
    destruct (outcome _) as [e|];
      [destruct e|]; injection Hrun as _ <-; apply Hins.
Qed.

Section Aborts.
Variable drv : Driver.
Variable pg : Setup.
Variable base : Z.
Variable p : DBPool.
Variable w : Proc.
Hypothesis Hn : 0 <= numClients (scenario pg) < 2 ^ 31.
Hypothesis Hsleep : sleep_like drv.
Hypothesis Hcancel : ctx_cancelAt (sc_ctx (scenario pg)) = None.
Hypothesis Hlt : abortAfter (scenario pg) < queryDuration (scenario pg).

Lemma run_in_logs {A} (s : Sys) (m : M A) (k : A -> Proc -> Sys) :
  quiet m ->
  (forall a p', proc (k a p') = p') ->
  only_logs (proc s) (proc (run_in s m k)).
Proof.
  intros Hq Hk. unfold run_in. specialize (Hq (proc s)).
  destruct (m (proc s)) as [a p'|msg p']; cbn [final] in Hq.
  - rewrite Hk. exact Hq.
  - exact Hq.
Qed.

(** Once [wg.Wait()] has returned, the rest of the run only logs. *)
Lemma late_step_logs (s s' : Sys) (a : Action) :
  Inv (numClients (scenario pg)) base s ->
  wait_returned s ->
  step drv pg a s = Some s' ->
  only_logs (proc s) (proc s').
Proof.
  intros HI Hlate Hstep. unfold step in Hstep.
  destruct (halted s); [discriminate|].
  assert (Hmain : mainpc s <> MStart /\ mainpc s <> MInit).
  { split; intros Hm; [pose proof (proj1 HI (or_introl Hm)) as Hs
                      |pose proof (proj1 HI (or_intror Hm)) as Hs];
      destruct Hlate as [H|[H|H]]; congruence. }
  destruct Hmain as (Hm1 & Hm2).
  destruct a as [| | | |i now].
  - unfold main_step in Hstep.
    destruct (mainpc s); try congruence; injection Hstep as <-.
    apply run_in_logs; [apply quiet_on_pool, quiet_Close | reflexivity].
  - unfold main_tick in Hstep.
    destruct (mainpc s); try congruence; injection Hstep as <-.
    apply run_in_logs; [apply quiet_on_pool, quiet_PrintStats | reflexivity].
  - unfold main_recv in Hstep.
    destruct (mainpc s); try congruence.
    destruct (simpc s); try congruence. injection Hstep as <-.
    apply run_in_logs; [apply quiet_emit; reflexivity | reflexivity].
  - unfold simulateClientAborts_step in Hstep.
    destruct (simpc s) eqn:Hs;
      try (destruct Hlate as [H|[H|H]]; congruence).
    injection Hstep as <-.
    apply run_in_logs; [apply quiet_on_pool, quiet_PrintStats | reflexivity].
  - unfold client_step in Hstep.
    destruct (tasks (proc s) !! i) as [c|] eqn:Hc; [|discriminate].
    destruct HI as [_ HI].
    assert (Hz : pending (tasks (proc s)) = 0).
    { destruct Hlate as [H|[H|H]]; rewrite H in HI;
        destruct HI as ((_ & Hwg & _) & Hz); lia. }
    pose proof (pending_lookup _ _ _ Hc) as Hle.
    destruct (c_pc c); cbn in Hle; try lia. discriminate.
Qed.

Lemma AllAbort_logs (s s' : Sys) :
  AllAbort p w (scenario pg) s ->
  only_logs (proc s) (proc s') ->
  (joining s' -> open_pool p (proc s')) ->
  AllAbort p w (scenario pg) s'.
Proof.
  intros (_ & Hts & l & Ho & Hl) (_ & Ht & l' & Ho' & Hl') Hopen.
  split; [exact Hopen|]. split; [rewrite Ht; exact Hts|].
  exists (l ++ l'). split.
  - rewrite Ho', Ho, <- app_assoc. reflexivity.
  - apply Forall_app. split; [exact Hl | apply outcomes_zero_aborted, Hl'].
Qed.

(** Client [i] moves on to [pc']. *)
Lemma AllAbort_move (s : Sys) (i : nat) (c : Client) (pc' : ClientPC)
    (p' : Proc) (l' : list Event) (h : option Halt) :
  AllAbort p w (scenario pg) s ->
  tasks (proc s) !! i = Some c ->
  open_pool p p' ->
  tasks p' = tasks (proc s) ->
  out p' = out (proc s) ++ l' ->
  Forall aborted_line l' ->
  (forall r, pc' = CReport r -> r = Some abort_err) ->
  AllAbort p w (scenario pg)
    (mkSys (set_pc i pc' p') (pool s) (mainpc s) (simpc s) h).
Proof.
  intros (_ & Hts & l & Ho & Hl) Hc Hopen Ht Ho' Hl' Hpc.
  rewrite (set_pc_eval i pc' p' c) by (rewrite Ht; exact Hc).
  split; [intros _; revert Hopen; apply open_pool_handles; reflexivity|].
  cbn [proc tasks out]. split.
  - rewrite Ht. apply Forall_insert; [exact Hts|].
    rewrite Forall_forall in Hts.
    destruct (Hts c) as (H1 & H2 & H3 & H4 & _).
    { apply list_elem_of_lookup. exists i. exact Hc. }
    repeat split; assumption.
  - exists (l ++ l'). split.
    + rewrite Ho', Ho, <- app_assoc. reflexivity.
    + apply Forall_app. split; assumption.
Qed.

Lemma clients_from_ok (k : nat) (i : Z) :
  Forall (client_ok p (scenario pg))
    (clients_from p (sc_ctx (scenario pg)) (queryDuration (scenario pg))
       (abortAfter (scenario pg)) i k).
Proof.
  revert i. induction k as [|k IH]; intros i; cbn; constructor; auto.
  repeat split. cbn. discriminate.
Qed.

(** A statement that changes neither the tasks nor the output. *)
Lemma AllAbort_same (s s' : Sys) :
  AllAbort p w (scenario pg) s ->
  tasks (proc s') = tasks (proc s) ->
  out (proc s') = out (proc s) ->
  (joining s' -> open_pool p (proc s')) ->
  AllAbort p w (scenario pg) s'.
Proof.
  intros (_ & Hts & l & Ho & Hl) Ht Ho' Hopen.
  split; [exact Hopen|]. split; [rewrite Ht; exact Hts|].
  exists l. split; [rewrite Ho'; exact Ho | exact Hl].
Qed.

Lemma AllAbort_step (s s' : Sys) (a : Action) :
  Inv (numClients (scenario pg)) base s ->
  Live p s ->
  AllAbort p w (scenario pg) s ->
  step drv pg a s = Some s' ->
  AllAbort p w (scenario pg) s'.
Proof.
  intros HI HL HA Hstep.
  assert (Hcases : joining s \/ wait_returned s).
  { destruct HL as [Hne _]. unfold joining, wait_returned.
    destruct (simpc s); try congruence; tauto. }
  assert (Hlate : wait_returned s' -> joining s' -> open_pool p (proc s')).
  { unfold joining. intros [H|[H|H]]; rewrite H; intros []. }
  destruct Hcases as [Hj|Hs].
  - destruct (proj2 HL Hj) as (Hp & Hv & _ & Hh & Hm).
    pose proof (proj1 HA Hj) as Hopen.
    unfold step in Hstep. rewrite Hh in Hstep.
    destruct a as [| | | |i now].
    + unfold main_step in Hstep. rewrite Hm in Hstep. discriminate.
    + unfold main_tick in Hstep. rewrite Hm in Hstep. injection Hstep as <-.
      apply (AllAbort_logs s); [exact HA| |].
      * apply run_in_logs; [apply quiet_on_pool, quiet_PrintStats|reflexivity].
      * intros _. unfold run_in, on_pool. rewrite Hp.
        destruct (PrintStats_returns p (proc s) Hv) as (s1 & -> & Hhs).
        cbn. exact (open_pool_handles p _ _ Hhs Hopen).
    + unfold main_recv in Hstep. rewrite Hm in Hstep. unfold joining in Hj.
      destruct (simpc s); try discriminate; contradiction.
    + unfold simulateClientAborts_step in Hstep. unfold joining in Hj.
      destruct (simpc s) eqn:Hs; try contradiction.
      * injection Hstep as <-.
        apply (AllAbort_logs s); [exact HA| |].
        -- apply run_in_logs; [apply quiet_emit; reflexivity|reflexivity].
        -- intros _. revert Hopen. apply open_pool_handles. reflexivity.
      * injection Hstep as <-.
        apply (AllAbort_logs s); [exact HA| |].
        -- apply run_in_logs; [apply quiet_emit; reflexivity|reflexivity].
        -- intros _. revert Hopen. apply open_pool_handles. reflexivity.
      * injection Hstep as <-. unfold run_in, WaitGroup_Add.
        destruct (wg_Add _ _);
          (apply (AllAbort_same s); [exact HA|reflexivity|reflexivity|]);
          intros _; revert Hopen; apply open_pool_handles; reflexivity.
      * destruct (i <? numClients (scenario pg)); injection Hstep as <-.
        -- unfold run_in, on_pool, go_client. rewrite Hp.
           destruct HA as (_ & Hts & l & Ho & Hl).
           split; [intros _; revert Hopen; apply open_pool_handles; reflexivity|].
           cbn [proc tasks out]. split.
           ++ apply Forall_app. split; [exact Hts|].
              constructor; [|constructor]. repeat split. cbn. discriminate.
           ++ exists l. split; assumption.
        -- apply (AllAbort_same s); [exact HA|reflexivity|reflexivity|].
           intros _. exact Hopen.
      * destruct (wg (proc s) =? 0); [|discriminate]. injection Hstep as <-.
        apply (AllAbort_same s); [exact HA|reflexivity|reflexivity|].
        cbn. intros [].
    + unfold client_step in Hstep.
      destruct (tasks (proc s) !! i) as [c|] eqn:Hc; [|discriminate].
      pose proof HA as (_ & Hts & _).
      rewrite Forall_forall in Hts.
      destruct (Hts c) as (Hcp & Hcc & Hcq & Hca & Hcr).
      { apply list_elem_of_lookup. exists i. exact Hc. }
      destruct (c_pc c) eqn:Hpc; try discriminate; injection Hstep as <-.
      * unfold run_in, log_Printf, emit.
        apply (AllAbort_move s i c CQuery _
                 [EvLog "Client %d: Starting simulation" [VInt (c_id c)]] None);
          try assumption; try reflexivity; try discriminate.
        repeat constructor. intros H. discriminate H.
      * rewrite Hcp, Hcc, Hcq, Hca.
        destruct (shorter_deadline_aborts drv p (sc_ctx (scenario pg))
                    (queryDuration (scenario pg)) (abortAfter (scenario pg))
                    now (proc s) Hsleep Hopen Hcancel Hlt) as (s1 & Hrun).
        unfold run_in. rewrite Hrun.
        destruct (quiet_Ok_logs _ _ _ _
                    (quiet_SimulateClientAbort drv p (sc_ctx (scenario pg))
                       (queryDuration (scenario pg)) (abortAfter (scenario pg)) now)
                    Hrun) as (_ & Ht1 & l1 & Ho1 & Hl1).
        apply (AllAbort_move s i c _ s1 l1 None); try assumption.
        -- exact (SimulateClientAbort_keeps_open _ _ _ _ _ _ _ _ _ Hopen Hrun).
        -- apply outcomes_zero_aborted, Hl1.
        -- intros r [= <-]. reflexivity.
      * rewrite (Hcr err eq_refl). unfold run_in, log_Printf, emit.
        apply (AllAbort_move s i c CDefer _
                 [EvLog "Client %d: %v" [VInt (c_id c); VErr abort_err]] None);
          try assumption; try reflexivity; try discriminate.
        repeat constructor. intros _. eexists. reflexivity.
      * unfold run_in, WaitGroup_Done, WaitGroup_Add.
        destruct (wg_Add (-1) (wg (proc s))) as [v|].
        -- apply (AllAbort_move s i c CDone _ [] None);
             try assumption; try reflexivity; try discriminate;
             try constructor.
           cbn. symmetry. apply app_nil_r.
        -- apply (AllAbort_logs s); [exact HA|apply only_logs_refl|].
           intros _. exact Hopen.
  - (* after the join *)
    apply (AllAbort_logs s); [exact HA| |].
    + exact (late_step_logs s s' a HI Hs Hstep).
    + apply Hlate. exact (late_step drv pg base s s' a HI Hstep Hs).
Qed.

Lemma AllAbort_run (acts : list Action) (s s' : Sys) :
  Inv (numClients (scenario pg)) base s ->
  Live p s ->
  AllAbort p w (scenario pg) s ->
  run drv pg acts s = Some s' ->
  AllAbort p w (scenario pg) s'.
Proof.
  revert s. induction acts as [|a acts IH]; intros s HI HL HA Hrun; cbn in Hrun.
  - injection Hrun as <-. exact HA.
  - destruct (step drv pg a s) as [s1|] eqn:Hstep; [|discriminate].
    exact (IH s1 (Inv_step drv pg base Hn s s1 a HI Hstep)
                 (Live_step drv pg base p Hn s s1 a HI HL Hstep)
                 (AllAbort_step s s1 a HI HL HA Hstep) Hrun).
Qed.

End Aborts.

Lemma AllAbort_launch (p : DBPool) (w : Proc) (sc : Scenario) :
  open_pool p w -> AllAbort p w sc (launch p w).
Proof.
  intros Hopen. split; [intros _; revert Hopen; apply open_pool_handles; reflexivity|].
  split; [constructor|]. exists []. cbn. split; [symmetry; apply app_nil_r|constructor].
Qed.

Lemma open_pool_valid (p : DBPool) (s : Proc) : open_pool p s -> valid_pool p s.
Proof.
  intros (d & (i & Hp & Hd) & _). exists i. split; [exact Hp|].
  eapply lookup_lt_Some; exact Hd.
Qed.

(** C3.  Let the store sleep as long as asked, let nobody cancel the
    context, and let [abortAfter] be shorter than [queryDuration].  Then
    every call of [SimulateClientAbort] on an open pool returns the
    client-abort error, whatever the clock reading, the state and the
    answers of the store: the outcome is [Aborted], never [Completed].
    And in every interleaving of a scenario with these durations, started
    on an open pool, every client that has its result has been aborted,
    and every outcome line written reports an abort. *)
Theorem shorter_deadline_always_aborts (drv : Driver) (p : DBPool)
    (ctx : Context) (qd aa : Duration) :
  sleep_like drv ->
  ctx_cancelAt ctx = None ->
  aa < qd ->
  (forall (now : Time) (s : Proc),
     open_pool p s ->
     exists res s',
       SimulateClientAbort drv p ctx qd aa now s = Ok res s' /\
       res = Some (Errorf "client abort simulated: %w" DeadlineExceeded) /\
       outcome_of res = Aborted /\
       outcome_of res <> Completed) /\
  (forall (pg : Setup) (w : Proc) (s : Sys),
     sc_ctx (scenario pg) = ctx ->
     queryDuration (scenario pg) = qd ->
     abortAfter (scenario pg) = aa ->
     0 <= numClients (scenario pg) < 2 ^ 31 ->
     open_pool p w ->
     reaches drv pg (launch p w) s ->
     (forall c r, c ∈ tasks (proc s) -> c_pc c = CReport r ->
        outcome_of r = Aborted) /\
     exists l, out (proc s) = out w ++ l /\ Forall aborted_line l).
Proof.
  intros Hsleep Hcancel Hlt. split.
  - intros now s Hopen.
    destruct (shorter_deadline_aborts drv p ctx qd aa now s Hsleep Hopen
                Hcancel Hlt) as (s' & Hrun).
    exists (Some abort_err), s'. split; [exact Hrun|].
    split; [reflexivity|]. split; [reflexivity|]. discriminate.
  - intros pg w s <- <- <- Hn Hopen [acts Hrun].
    pose proof (AllAbort_run drv pg (outcomes (out w)) p w Hn Hsleep Hcancel Hlt
                  acts _ _ (Inv_launch _ p w)
                  (Live_launch p w (open_pool_valid p w Hopen))
                  (AllAbort_launch p w (scenario pg) Hopen) Hrun)
      as (_ & Hts & Hout).
    split; [|exact Hout].
    intros c r Hin Hpc. rewrite Forall_forall in Hts.
    destruct (Hts c Hin) as (_ & _ & _ & _ & Hr).
    rewrite (Hr r Hpc). reflexivity.
Qed.

Lemma shorter_deadline_always_aborts_witness :
  exists res s',
    SimulateClientAbort sleepyStore pool0 Background (15 * Minute)
      (10 * Minute) 0 oneHandle = Ok res s' /\
    res = Some (Errorf "client abort simulated: %w" DeadlineExceeded) /\
    outcome_of res = Aborted /\
    outcome_of res <> Completed.
Proof.
  refine (proj1 (shorter_deadline_always_aborts sleepyStore pool0 Background
                   (15 * Minute) (10 * Minute) sleepyStore_sleep_like eq_refl _)
                0 oneHandle _).
  - reflexivity.
  - exists handle0. split; [exists 0%nat; split; reflexivity | reflexivity].
Defined.

(* ===================================================================== *)
(** * More on query execution *)
(* ===================================================================== *)

Lemma ctx_Err_live (ctx : Context) (aa : Duration) (now t : Time) :
  ctx_cancelAt ctx = None ->
  t < now + aa ->
  match ctx_deadline ctx with
  | Some dl => t < dl
  | None => True
  end ->
  ctx_Err (WithTimeout ctx aa now) t = None.
Proof.
  intros Hc Ht Hdl. unfold ctx_Err, ctx_fire, WithTimeout. cbn. rewrite Hc.
  destruct (ctx_deadline ctx) as [dl|].
  - destruct (Z.min dl (now + aa) <=? t) eqn:E; [|reflexivity].
    apply Z.leb_le in E. lia.
  - destruct (now + aa <=? t) eqn:E; [|reflexivity].
    apply Z.leb_le in E. lia.
Qed.

(** X1.  On an open pool, under a context nobody cancels: when the reply of
    the store comes without error and not later than [abortAfter] (and not
    later than a deadline of the parent context), the call returns [nil]
    after one interaction with the store; its last log line says that the
    query completed, and the outcome is [Completed]. *)
Theorem reply_in_time_completes (drv : Driver) (p : DBPool) (ctx : Context)
    (qd aa : Duration) (now : Time) (s : Proc) (d : sqlDB) :
  pool_handle p s d ->
  db_closed d = false ->
  ctx_cancelAt ctx = None ->
  0 < aa ->
  latency (drv_query drv (tick s) (db_dsn d) "SELECT SLEEP(?)" [ArgSeconds qd])
    <= aa ->
  match ctx_deadline ctx with
  | Some dl =>
      now < dl /\
      now + latency (drv_query drv (tick s) (db_dsn d) "SELECT SLEEP(?)"
                       [ArgSeconds qd]) <= dl
  | None => True
  end ->
  outcome (drv_query drv (tick s) (db_dsn d) "SELECT SLEEP(?)" [ArgSeconds qd])
    = None ->
  exists s',
    SimulateClientAbort drv p ctx qd aa now s = Ok None s' /\
    outcome_of None = Completed /\
    tick s' = S (tick s) /\
    out s' =
      out s ++
      [EvLog "Starting query that will run for %v, but client will abort after %v"
             [VDur qd; VDur aa];
       EvLog "Query completed successfully (no abort occurred)" []] /\
    open_pool p s'.
Proof.
  intros (i & Hp & Hd) Hopen Hcancel Haa Hlat Hparent Hok.
  rewrite SimulateClientAbort_eval, Hp.
  rewrite (QueryContext_eval drv i d _ _ _ _ (announced qd aa s) Hd), Hopen.
  rewrite (ctx_Err_live ctx aa now now Hcancel) by
    first [lia | destruct (ctx_deadline ctx); [apply Hparent | exact I]].
  cbn zeta. cbn [announced tick].
  rewrite (ctx_Err_live ctx aa now _ Hcancel) by
    first [lia | destruct (ctx_deadline ctx); [lia | exact I]].
  rewrite Hok.
  eexists. split; [reflexivity|]. split; [reflexivity|].
  split; [reflexivity|]. split.
  - cbn. rewrite <- app_assoc. reflexivity.
  - exists (set_live d (counters (drv_query drv (tick s) (db_dsn d)
                                    "SELECT SLEEP(?)" [ArgSeconds qd]))).
    split; [|exact Hopen]. exists i. split; [exact Hp|]. cbn.
    apply list_lookup_insert_eq. eapply lookup_lt_Some; exact Hd.
Qed.

(** A store that answers [SELECT SLEEP(d)] after exactly [d]. *)
Lemma reply_in_time_completes_witness :
  exists s',
    SimulateClientAbort sleepyStore pool0 Background (10 * Minute)
      (15 * Minute) 0 oneHandle = Ok None s' /\
    out s' =
      [EvLog "Starting query that will run for %v, but client will abort after %v"
             [VDur (10 * Minute); VDur (15 * Minute)];
       EvLog "Query completed successfully (no abort occurred)" []].
Proof.
  destruct (reply_in_time_completes sleepyStore pool0 Background (10 * Minute)
              (15 * Minute) 0 oneHandle handle0
              (ex_intro _ 0%nat (conj eq_refl eq_refl)) eq_refl eq_refl)
    as (s' & Hrun & _ & _ & Hout & _);
    [reflexivity | cbn; discriminate | exact I | reflexivity |].
  exists s'. split; [exact Hrun | exact Hout].
Defined.

(** X2.  On an open pool, when the caller's context is cancelled before
    the deadline of the call and before the reply of the store is due, the
    call returns the query-failure error around [context.Canceled]: a
    cancellation by the caller is not reported as a client abort. *)
Theorem caller_cancel_is_a_query_failure (drv : Driver) (p : DBPool)
    (ctx : Context) (qd aa : Duration) (now tc : Time) (s : Proc) (d : sqlDB) :
  pool_handle p s d ->
  db_closed d = false ->
  ctx_cancelAt ctx = Some tc ->
  tc < now + aa ->
  match ctx_deadline ctx with
  | Some dl => tc < dl
  | None => True
  end ->
  tc < now + latency (drv_query drv (tick s) (db_dsn d) "SELECT SLEEP(?)"
                        [ArgSeconds qd]) ->
  exists s',
    SimulateClientAbort drv p ctx qd aa now s =
      Ok (Some (Errorf "query failed: %w" Canceled)) s' /\
    kind_of (Errorf "query failed: %w" Canceled) = Some QueryError /\
    outcome_of (Some (Errorf "query failed: %w" Canceled)) = Failed /\
    (tc <= now -> s' = announced qd aa s).
Proof.
  intros (i & Hp & Hd) Hopen Hcancel Haa Hparent Hlat.
  assert (Hfire : ctx_fire (WithTimeout ctx aa now) = Some (tc, Canceled)).
  { unfold ctx_fire, WithTimeout. cbn. rewrite Hcancel.
    destruct (ctx_deadline ctx) as [dl|].
    - destruct (tc <? Z.min dl (now + aa)) eqn:E; [reflexivity|].
      apply Z.ltb_ge in E. lia.
    - destruct (tc <? now + aa) eqn:E; [reflexivity|].
      apply Z.ltb_ge in E. lia. }
  rewrite SimulateClientAbort_eval, Hp.
  rewrite (QueryContext_eval drv i d _ _ _ _ (announced qd aa s) Hd), Hopen.
  unfold ctx_Err. rewrite Hfire. cbn [announced tick].
  destruct (tc <=? now) eqn:Hnow.
  - eexists. split; [reflexivity|]. repeat split.
  - cbn zeta.
    match goal with
    | |- context [tc <=? ?b - 1] => destruct (tc <=? b - 1) eqn:Hrace
    end.
    + eexists. split; [reflexivity|]. split; [reflexivity|].
      split; [reflexivity|]. apply Z.leb_gt in Hnow. lia.
    + apply Z.leb_gt in Hrace. lia.
Qed.

Lemma caller_cancel_is_a_query_failure_witness :
  exists s',
    SimulateClientAbort sleepyStore pool0 (mkContext None (Some 5))
      (15 * Minute) (10 * Minute) 7 oneHandle =
      Ok (Some (Errorf "query failed: %w" Canceled)) s' /\
    s' = announced (15 * Minute) (10 * Minute) oneHandle.
Proof.
  destruct (caller_cancel_is_a_query_failure sleepyStore pool0
              (mkContext None (Some 5)) (15 * Minute) (10 * Minute) 7 5
              oneHandle handle0
              (ex_intro _ 0%nat (conj eq_refl eq_refl)) eq_refl eq_refl)
    as (s' & Hrun & _ & _ & Hs);
    [reflexivity | exact I | reflexivity |].
  exists s'. split; [exact Hrun|]. apply Hs. discriminate.
Defined.

(** X3.  On an open pool, under a context nobody cancels, a call whose
    [abortAfter] is zero or negative is aborted without the store being
    asked: the context is done when it is made, the call returns the
    client-abort error, and only the two log lines are added. *)
Theorem no_time_left_aborts_without_asking (drv : Driver) (p : DBPool)
    (ctx : Context) (qd aa : Duration) (now : Time) (s : Proc) (d : sqlDB) :
  pool_handle p s d ->
  db_closed d = false ->
  ctx_cancelAt ctx = None ->
  aa <= 0 ->
  SimulateClientAbort drv p ctx qd aa now s =
    Ok (Some (Errorf "client abort simulated: %w" DeadlineExceeded))
       (mkProc (tick s) (handles s)
          (out s ++
           [EvLog "Starting query that will run for %v, but client will abort after %v"
                  [VDur qd; VDur aa];
            EvLog "Client aborted connection after %v (simulating client abort)"
                  [VDur aa]])
          (wg s) (tasks s)).
Proof.
  intros (i & Hp & Hd) Hopen Hcancel Haa.
  destruct (ctx_fire_WithTimeout ctx aa now Hcancel) as (dl & Hfire & Hdl).
  rewrite SimulateClientAbort_eval, Hp.
  rewrite (QueryContext_eval drv i d _ _ _ _ (announced qd aa s) Hd), Hopen.
  unfold ctx_Err. rewrite Hfire.
  destruct (dl <=? now) eqn:Hnow; [|apply Z.leb_gt in Hnow; lia].
  unfold logged, announced. cbn. rewrite <- app_assoc. reflexivity.
Qed.

Lemma no_time_left_aborts_without_asking_witness :
  tick (final (SimulateClientAbort sleepyStore pool0 Background (15 * Minute) 0
                 0 oneHandle)) = tick oneHandle /\
  exists s',
    SimulateClientAbort sleepyStore pool0 Background (15 * Minute) 0 0 oneHandle =
    Ok (Some (Errorf "client abort simulated: %w" DeadlineExceeded)) s'.
Proof.
  rewrite (no_time_left_aborts_without_asking sleepyStore pool0 Background
             (15 * Minute) 0 0 oneHandle handle0
             (ex_intro _ 0%nat (conj eq_refl eq_refl)) eq_refl eq_refl);
    [|reflexivity].
  split; [reflexivity|]. eexists. reflexivity.
Defined.

(* ===================================================================== *)
(** * What the pool operations leave alone *)
(* ===================================================================== *)

Lemma same_config_refl (d : sqlDB) : same_config d d.
Proof. repeat split. Qed.

Lemma same_config_trans (a b c : sqlDB) :
  same_config a b -> same_config b c -> same_config a c.
Proof.
  unfold same_config. intros (?&?&?&?&?&?) (?&?&?&?&?&?).
  repeat split; congruence.
Qed.

Lemma keeps_refl (p : DBPool) (s : Proc) : keeps p s s.
Proof.
  intros j e He. exists e. split; [exact He|].
  split; [apply same_config_refl | reflexivity].
Qed.

Lemma keeps_trans (p : DBPool) (a b c : Proc) :
  keeps p a b -> keeps p b c -> keeps p a c.
Proof.
  intros Hab Hbc j e He.
  destruct (Hab j e He) as (e1 & He1 & Hc1 & Hf1).
  destruct (Hbc j e1 He1) as (e2 & He2 & Hc2 & Hf2).
  exists e2. split; [exact He2|].
  split; [eapply same_config_trans; eassumption|].
  intros Hne. rewrite (Hf2 Hne). exact (Hf1 Hne).
Qed.

Lemma keeps_handles (p : DBPool) (s s' : Proc) :
  handles s' = handles s -> keeps p s s'.
Proof.
  intros Hh j e He. exists e. rewrite Hh. split; [exact He|].
  split; [apply same_config_refl | reflexivity].
Qed.

Lemma keeps_set_live (p : DBPool) (s s' : Proc) (i : nat) (d : sqlDB)
    (f : Counters -> Counters) :
  DB p = Some i ->
  handles s !! i = Some d ->
  handles s' = <[i := set_live d f]> (handles s) ->
  keeps p s s'.
Proof.
  intros Hp Hd Hh j e He. rewrite Hh.
  destruct (decide (i = j)) as [<-|Hne].
  - exists (set_live d f). split.
    + apply list_lookup_insert_eq. eapply lookup_lt_Some; exact Hd.
    + assert (e = d) as -> by congruence.
      split; [repeat split|]. intros Hc. congruence.
  - exists e. split; [rewrite list_lookup_insert_ne by exact Hne; exact He|].
    split; [apply same_config_refl | reflexivity].
Qed.

Lemma SimulateClientAbort_keeps (drv : Driver) (p : DBPool) (ctx : Context)
    (qd aa : Duration) (now : Time) (s : Proc) (d : sqlDB) :
  pool_handle p s d ->
  exists r s', SimulateClientAbort drv p ctx qd aa now s = Ok r s' /\ keeps p s s'.
Proof.
  intros (i & Hp & Hd).
  assert (Hsame : forall l, keeps p s (mkProc (tick s) (handles s) l (wg s) (tasks s))).
  { intros l. apply keeps_handles. reflexivity. }
  assert (Hins : forall f l,
            keeps p s (mkProc (S (tick s)) (<[i := set_live d f]> (handles s))
                              l (wg s) (tasks s))).
  { intros f l. apply (keeps_set_live p s _ i d f Hp Hd). reflexivity. }
  rewrite SimulateClientAbort_eval, Hp.
  rewrite (QueryContext_eval drv i d _ _ _ _ (announced qd aa s) Hd).
  destruct (db_closed d); [eexists _, _; split; [reflexivity|apply Hsame]|].
  destruct (ctx_Err _ now) as [e|];
    [destruct e; eexists _, _; (split; [reflexivity|apply Hsame])|].
  cbn zeta. cbn [announced tick handles out wg tasks].
  destruct (ctx_Err _ _) as [e|];
    [destruct e; eexists _, _; (split; [reflexivity|apply Hins])|].
  destruct (outcome _) as [e|];
    [destruct e|]; eexists _, _; (split; [reflexivity|apply Hins]).
Qed.

Lemma keeps_pool_handle (p : DBPool) (s s' : Proc) (d : sqlDB) :
  keeps p s s' -> pool_handle p s d ->
  exists d', pool_handle p s' d' /\ same_config d d'.
Proof.
  intros Hk (i & Hp & Hd). destruct (Hk i d Hd) as (d' & Hd' & Hc & _).
  exists d'. split; [exists i; split; assumption | exact Hc].
Qed.

Lemma do_op_keeps (drv : Driver) (p : DBPool) (o : PoolOp) (s : Proc)
    (d : sqlDB) :
  is_close o = false ->
  pool_handle p s d ->
  exists s', do_op drv p o s = Ok tt s' /\ keeps p s s'.
Proof.
  intros Ho Hh. pose proof Hh as (i & Hp & Hd).
  destruct o as [| | |c|dsn config]; cbn [do_op]; try discriminate.
  - destruct p as [h]. cbn in Hp. subst h.
    unfold bind. rewrite (GetStats_eval i d s Hd).
    eexists. split; [reflexivity|apply keeps_refl].
  - destruct p as [h]. cbn in Hp. subst h.
    rewrite (PrintStats_eval i d s Hd).
    eexists. split; [reflexivity|apply keeps_handles; reflexivity].
  - destruct (SimulateClientAbort_keeps drv p (call_ctx c) (call_queryDuration c)
                (call_abortAfter c) (call_now c) s d Hh) as (r & s' & Hrun & Hk).
    unfold bind. rewrite Hrun. eexists. split; [reflexivity|exact Hk].
  - unfold bind. rewrite NewDBPool_eval.
    assert (Happ : forall h t l,
              keeps p s (mkProc t (handles s ++ [h]) l (wg s) (tasks s))).
    { intros h t l j e He. exists e. cbn.
      split; [apply lookup_app_l_Some; exact He|].
      split; [apply same_config_refl | reflexivity]. }
    destruct (drv_open drv "mysql" dsn);
      [eexists; split; [reflexivity|apply keeps_refl]|].
    cbn zeta.
    destruct (outcome _); eexists; (split; [reflexivity|apply Happ]).
Qed.

(** X4.  As long as [Close] is not among them, the operations on a pool
    whose handle exists all return, and they leave every handle of the
    process with the configuration and the open or closed state it had;
    the handles of other pools are not changed at all.  In particular an
    open pool stays open, with the limits it was built with. *)
Theorem only_Close_closes (drv : Driver) (p : DBPool) (ops : list PoolOp)
    (s : Proc) (d : sqlDB) :
  Forall (fun o => is_close o = false) ops ->
  pool_handle p s d ->
  exists s' d',
    do_ops drv p ops s = Ok tt s' /\
    keeps p s s' /\
    pool_handle p s' d' /\
    db_closed d' = db_closed d /\
    db_maxOpen d' = db_maxOpen d /\ db_maxIdle d' = db_maxIdle d /\
    db_maxLifetime d' = db_maxLifetime d /\
    db_maxIdleTime d' = db_maxIdleTime d.
Proof.
  intros Hops Hh.
  assert (Hrun : exists s', do_ops drv p ops s = Ok tt s' /\ keeps p s s').
  { revert s d Hh. induction Hops as [|o ops Ho _ IH]; intros s d Hh.
    - exists s. split; [reflexivity|apply keeps_refl].
    - cbn [do_ops]. unfold bind at 1.
      destruct (do_op_keeps drv p o s d Ho Hh) as (s1 & -> & Hk1).
      destruct (keeps_pool_handle p s s1 d Hk1 Hh) as (d1 & Hh1 & _).
      destruct (IH s1 d1 Hh1) as (s2 & Hrun & Hk2).
      exists s2. split; [exact Hrun|]. eapply keeps_trans; eassumption. }
  destruct Hrun as (s' & Hrun & Hk).
  destruct (keeps_pool_handle p s s' d Hk Hh) as (d' & Hh' & Hc).
  exists s', d'. split; [exact Hrun|]. split; [exact Hk|].
  split; [exact Hh'|]. destruct Hc as (_ & H1 & H2 & H3 & H4 & H5).
  repeat split; assumption.
Qed.

Lemma only_Close_closes_witness :
  exists s' d',
    do_ops sleepyStore pool0
      [OpPrintStats; OpQuery (mkCall Background (15 * Minute) (10 * Minute) 0);
       OpNewPool "dsn2" (config mainSetup); OpGetStats] oneHandle = Ok tt s' /\
    pool_handle pool0 s' d' /\
    db_closed d' = false /\ db_maxOpen d' = Some 25.
Proof.
  destruct (only_Close_closes sleepyStore pool0
              [OpPrintStats; OpQuery (mkCall Background (15 * Minute) (10 * Minute) 0);
               OpNewPool "dsn2" (config mainSetup); OpGetStats]
              oneHandle handle0)
    as (s' & d' & Hrun & _ & Hh & Hc & Hm & _).
  - repeat constructor.
  - exists 0%nat. split; reflexivity.
  - exists s', d'. split; [exact Hrun|]. split; [exact Hh|].
    split; [exact Hc | exact Hm].
Defined.

(* ===================================================================== *)
(** * The tasks that are spawned *)
(* ===================================================================== *)

Lemma clients_from_ids (p : DBPool) (ctx : Context) (qd aa : Duration)
    (k : nat) (i : Z) :
  map c_id (clients_from p ctx qd aa i k) = ids_from i k /\
  Forall (fresh_client p ctx qd aa) (clients_from p ctx qd aa i k).
Proof.
  revert i. induction k as [|k IH]; intros i; cbn; [split; constructor|].
  destruct (IH (i + 1)) as (Hm & Hf). split.
  - rewrite Hm. reflexivity.
  - constructor; [repeat split | exact Hf].
Qed.

Lemma ids_from_spec (k : nat) (i x : Z) :
  x ∈ ids_from i k <-> i < x <= i + Z.of_nat k.
Proof.
  revert i. induction k as [|k IH]; intros i; cbn [ids_from].
  - split; [intros H; inversion H | lia].
  - rewrite elem_of_cons, IH. lia.
Qed.

Lemma ids_from_NoDup (k : nat) (i : Z) : NoDup (ids_from i k).
Proof.
  revert i. induction k as [|k IH]; intros i; cbn [ids_from]; constructor.
  - rewrite ids_from_spec. lia.
  - apply IH.
Qed.

(** X5.  For a count [n >= 0] that the wait group can take,
    [SimulateMultipleClientAborts] returns after one log line, having
    added [n] to the wait group and appended [n] tasks behind those there
    already: numbered 1, 2, ..., [n] in this order, without repetition,
    each on the pool, context and durations of the call and not yet
    started. *)
Theorem spawn_numbers_the_clients (p : DBPool) (ctx : Context) (n : Z)
    (qd aa : Duration) (s : Proc) :
  0 <= n ->
  0 <= wg s + n < 2 ^ 31 ->
  exists new,
    SimulateMultipleClientAborts p ctx n qd aa s =
      Ok tt (mkProc (tick s) (handles s)
               (out s ++ [EvLog "Simulating %d client aborts" [VInt n]])
               (wg s + n) (tasks s ++ new)) /\
    length new = Z.to_nat n /\
    map c_id new = ids_from 0 (Z.to_nat n) /\
    NoDup (map c_id new) /\
    (forall k, k ∈ map c_id new <-> 1 <= k <= n) /\
    Forall (fresh_client p ctx qd aa) new.
Proof.
  intros Hn Hwg. rewrite SimulateMultipleClientAborts_eval.
  rewrite wg_Add_in_range by exact Hwg.
  exists (clients_from p ctx qd aa 0 (Z.to_nat n)).
  destruct (clients_from_ids p ctx qd aa (Z.to_nat n) 0) as (Hm & Hf).
  split; [reflexivity|].
  split; [apply clients_from_counts|]. split; [exact Hm|].
  rewrite Hm. split; [apply ids_from_NoDup|]. split; [|exact Hf].
  intros k. rewrite ids_from_spec. lia.
Qed.

Lemma spawn_numbers_the_clients_witness :
  exists new,
    SimulateMultipleClientAborts pool0 Background 3 (15 * Minute) (10 * Minute)
      oneHandle =
      Ok tt (mkProc (tick oneHandle) (handles oneHandle)
               (out oneHandle ++ [EvLog "Simulating %d client aborts" [VInt 3]])
               (wg oneHandle + 3) (tasks oneHandle ++ new)) /\
    map c_id new = [1; 2; 3].
Proof.
  destruct (spawn_numbers_the_clients pool0 Background 3 (15 * Minute)
              (10 * Minute) oneHandle)
    as (new & Hrun & _ & Hids & _); [lia | cbn; lia |].
  exists new. split; [exact Hrun | exact Hids].
Defined.

(* ===================================================================== *)
(** * Every run ends *)
(* ===================================================================== *)

Lemma todo_nonneg (ts : list Client) : 0 <= todo ts.
Proof. apply todo_positive. Qed.

Lemma todo_app (a b : list Client) : todo (a ++ b) = todo a + todo b.
Proof.
  unfold todo. induction a as [|c a IH]; cbn [app count_pc]; lia.
Qed.

Lemma todo_clients_from (p : DBPool) (ctx : Context) (qd aa : Duration)
    (k : nat) (i : Z) :
  todo (clients_from p ctx qd aa i k) = 4 * Z.of_nat k.
Proof.
  revert i. induction k as [|k IH]; intros i; [reflexivity|].
  unfold todo in *. cbn [clients_from count_pc c_pc remaining].
  rewrite IH. lia.
Qed.

Lemma steps_left_nonneg (pg : Setup) (s : Sys) : 0 <= steps_left pg s.
Proof.
  unfold steps_left. destruct (halted s); [lia|].
  pose proof (todo_nonneg (tasks (proc s))).
  destruct (mainpc s), (simpc s); cbn; lia.
Qed.

Lemma todo_set_pc (i : nat) (pc : ClientPC) (s : Proc) (c : Client) :
  tasks s !! i = Some c ->
  todo (tasks (set_pc i pc s)) = todo (tasks s) - remaining (c_pc c) + remaining pc.
Proof.
  intros Hc. rewrite (set_pc_eval i pc s c Hc). cbn [tasks]. unfold todo.
  rewrite (count_pc_insert _ _ _ c) by exact Hc. reflexivity.
Qed.

Section Termination.
Variable drv : Driver.
Variable pg : Setup.

(** A step that is not a tick of the ticker uses up one of the steps
    left; a tick uses up none. *)
Lemma step_uses_up (a : Action) (s s' : Sys) :
  step drv pg a s = Some s' ->
  steps_left pg s' + (if is_tick a then 0 else 1) <= steps_left pg s.
Proof.
  intros Hstep. unfold step in Hstep.
  destruct (halted s) eqn:Hh; [discriminate|].
  pose proof (todo_nonneg (tasks (proc s))) as Hnn.
  assert (Hcrash : forall msg p' m' c',
            steps_left pg (mkSys p' (pool s) m' c' (Some (Crash msg))) + 1
            <= steps_left pg s).
  { intros. unfold steps_left at 1. cbn [halted].
    unfold steps_left. rewrite Hh.
    destruct (mainpc s), (simpc s); cbn; lia. }
  assert (Hquiet : forall {A} (m : M A) k (m' : MainPC) (c' : SimPC) (dec : Z),
            quiet m ->
            (forall a p', k a p' = mkSys p' (pool s) m' c' None) ->
            main_left (Z.to_nat (numClients (scenario pg))) m' +
            sim_left (Z.to_nat (numClients (scenario pg))) c' + dec <=
            main_left (Z.to_nat (numClients (scenario pg))) (mainpc s) +
            sim_left (Z.to_nat (numClients (scenario pg))) (simpc s) ->
            steps_left pg (run_in s m k) + dec <= steps_left pg s).
  { intros A m k m' c' dec Hq Hk Hle. unfold run_in.
    pose proof (Hq (proc s)) as Hlogs.
    destruct (m (proc s)) as [x p'|msg p']; cbn [final] in Hlogs.
    - rewrite Hk. destruct Hlogs as (_ & Ht & _).
      unfold steps_left. cbn [halted mainpc simpc proc]. rewrite Hh, Ht. lia.
    - unfold steps_left at 1. cbn [halted].
      unfold steps_left. rewrite Hh.
      destruct (mainpc s), (simpc s), m', c'; cbn in *; lia. }
  destruct a as [| | | |i now]; cbn [is_tick].
  - unfold main_step in Hstep.
    destruct (mainpc s) eqn:Hm; try discriminate; injection Hstep as <-.
    + unfold run_in.
      destruct (NewDBPool drv (dsn pg) (config pg) (proc s)) as [[p [e|]] p'|msg p'] eqn:Hnew.
      * unfold steps_left at 1. cbn [halted].
        unfold steps_left. rewrite Hh, Hm. destruct (simpc s); cbn; lia.
      * pose proof (quiet_Ok _ _ _ _ (quiet_NewDBPool drv (dsn pg) (config pg)) Hnew)
          as (_ & Ht & _).
        unfold steps_left. cbn [halted mainpc simpc proc]. rewrite Hh, Hm, Ht.
        cbn [main_left]. lia.
      * apply Hcrash.
    + apply (Hquiet _ _ _ MLoop SStart 1).
      * apply quiet_bind; [apply quiet_emit; reflexivity|intros _].
        apply quiet_on_pool, quiet_PrintStats.
      * reflexivity.
      * try rewrite Hm. destruct (simpc s); cbn; lia.
    + unfold run_in.
      destruct (on_pool s (Close drv) (proc s)) as [x p'|msg p'].
      * unfold steps_left at 1. cbn [halted].
        unfold steps_left. rewrite Hh, Hm. destruct (simpc s); cbn; lia.
      * unfold steps_left at 1. cbn [halted].
        unfold steps_left. rewrite Hh, Hm. destruct (simpc s); cbn; lia.
  - unfold main_tick in Hstep.
    destruct (mainpc s) eqn:Hm; try discriminate; injection Hstep as <-.
    apply (Hquiet _ _ _ MLoop (simpc s) 0);
      [apply quiet_on_pool, quiet_PrintStats | reflexivity | try rewrite Hm; lia].
  - unfold main_recv in Hstep.
    destruct (mainpc s) eqn:Hm; try discriminate.
    destruct (simpc s) eqn:Hs; try discriminate. injection Hstep as <-.
    apply (Hquiet _ _ _ MDone SDone 1);
      [apply quiet_emit; reflexivity | reflexivity | try rewrite Hm; try rewrite Hs; cbn; lia].
  - unfold simulateClientAborts_step in Hstep.
    destruct (simpc s) eqn:Hs; try discriminate.
    + injection Hstep as <-.
      apply (Hquiet _ _ _ (mainpc s) SCall 1);
        [apply quiet_emit; reflexivity | reflexivity | try rewrite Hs; cbn; lia].
    + injection Hstep as <-.
      apply (Hquiet _ _ _ (mainpc s) SAdd 1);
        [apply quiet_emit; reflexivity | reflexivity | try rewrite Hs; cbn; lia].
    + injection Hstep as <-. unfold run_in, WaitGroup_Add.
      destruct (wg_Add _ _) as [v|]; [|apply Hcrash].
      unfold steps_left. cbn [halted mainpc simpc proc tasks]. rewrite Hh, Hs.
      cbn [sim_left]. lia.
    + destruct (i <? numClients (scenario pg)) eqn:Hlt; injection Hstep as <-.
      * apply Z.ltb_lt in Hlt. unfold run_in, on_pool, go_client.
        destruct (pool s) as [p|]; [|apply Hcrash].
        unfold steps_left. cbn [halted mainpc simpc proc tasks]. rewrite Hh, Hs.
        rewrite todo_app. unfold todo at 2. cbn [count_pc c_pc remaining sim_left].
        lia.
      * unfold steps_left. cbn [halted mainpc simpc proc]. rewrite Hh, Hs.
        cbn [sim_left]. lia.
    + destruct (wg (proc s) =? 0); [|discriminate]. injection Hstep as <-.
      unfold steps_left. cbn [halted mainpc simpc proc]. rewrite Hh, Hs.
      cbn [sim_left]. lia.
    + injection Hstep as <-.
      apply (Hquiet _ _ _ (mainpc s) SSend 1);
        [apply quiet_on_pool, quiet_PrintStats | reflexivity | try rewrite Hs; cbn; lia].
  - unfold client_step in Hstep.
    destruct (tasks (proc s) !! i) as [c|] eqn:Hc; [|discriminate].
    assert (Hmove : forall {A} (m : M A) pc',
              (forall x p', m (proc s) = Ok x p' -> tasks p' = tasks (proc s)) ->
              remaining pc' + 1 = remaining (c_pc c) ->
              steps_left pg
                (run_in s m (fun _ p' =>
                   mkSys (set_pc i pc' p') (pool s) (mainpc s) (simpc s) None)) + 1
              <= steps_left pg s).
    { intros A m pc' Ht Hrem. unfold run_in.
      destruct (m (proc s)) as [x p'|msg p'] eqn:Hrun; [|apply Hcrash].
      specialize (Ht x p' eq_refl).
      unfold steps_left. cbn [halted mainpc simpc proc]. rewrite Hh.
      rewrite (todo_set_pc i pc' p' c) by (rewrite Ht; exact Hc).
      rewrite Ht. lia. }
    destruct (c_pc c) eqn:Hpc; try discriminate; injection Hstep as <-.
    + apply (Hmove _ _ CQuery); [|reflexivity].
      intros x p' Hrun. inversion Hrun. reflexivity.
    + unfold run_in.
      destruct (SimulateClientAbort _ _ _ _ _ _ _) as [r p'|msg p'] eqn:Hrun;
        [|apply Hcrash].
      pose proof (quiet_Ok _ _ _ _ (quiet_SimulateClientAbort _ _ _ _ _ _) Hrun)
        as (_ & Ht & _).
      unfold steps_left. cbn [halted mainpc simpc proc]. rewrite Hh.
      rewrite (todo_set_pc i _ p' c) by (rewrite Ht; exact Hc).
      rewrite Ht, Hpc. cbn [remaining]. lia.
    + apply (Hmove _ _ CDefer); [|reflexivity].
      intros x p' Hrun. destruct err; inversion Hrun; reflexivity.
    + apply (Hmove _ _ CDone); [|reflexivity].
      intros x p' Hrun. unfold WaitGroup_Done, WaitGroup_Add in Hrun.
      destruct (wg_Add _ _); [inversion Hrun; reflexivity|discriminate].
Qed.

End Termination.

(** X7.  Every run is finite but for the ticks of the ticker: along any
    run the number of steps other than ticks is at most what the start
    state had left, and from the start of the process at most
    [11 + 5 n] for [n] clients, each of which takes a turn of the loop
    and the four statements of its task. *)
Theorem runs_are_bounded (drv : Driver) (pg : Setup) (acts : list Action)
    (s s' : Sys) :
  run drv pg acts s = Some s' ->
  0 <= steps_left pg s' /\
  work acts + steps_left pg s' <= steps_left pg s /\
  (s = boot ->
   work acts <= 11 + 5 * Z.of_nat (Z.to_nat (numClients (scenario pg)))).
Proof.
  intros Hrun.
  assert (Hle : work acts + steps_left pg s' <= steps_left pg s).
  { revert s Hrun. induction acts as [|a acts IH]; intros s Hrun; cbn [run work] in *.
    - injection Hrun as <-. lia.
    - destruct (step drv pg a s) as [s1|] eqn:Hstep; [|discriminate].
      pose proof (step_uses_up drv pg a s s1 Hstep).
      specialize (IH s1 Hrun). lia. }
  pose proof (steps_left_nonneg pg s') as Hnn.
  split; [exact Hnn|]. split; [exact Hle|].
  intros ->. unfold steps_left at 2 in Hle. cbn in Hle. lia.
Qed.

Lemma runs_are_bounded_witness :
  work ([ActMain; ActMain] ++ one_by_one 5 0 ++ [ActSim; ActRecv; ActMain]) <= 36.
Proof.
  destruct (run sleepyStore mainSetup
              ([ActMain; ActMain] ++ one_by_one 5 0 ++ [ActSim; ActRecv; ActMain])
              boot) as [s'|] eqn:Hrun.
  - exact (proj2 (proj2 (runs_are_bounded sleepyStore mainSetup _ boot s' Hrun))
             eq_refl).
  - vm_compute in Hrun. discriminate Hrun.
Defined.

(* ===================================================================== *)
(** * The whole program *)
(* ===================================================================== *)

Lemma pool_closed_valid (p : DBPool) (s : Proc) : pool_closed p s -> valid_pool p s.
Proof.
  intros (d & (i & Hp & Hd) & _). exists i. split; [exact Hp|].
  eapply lookup_lt_Some; exact Hd.
Qed.

Lemma valid_pool_handles (p : DBPool) (s s' : Proc) :
  handles s' = handles s -> valid_pool p s -> valid_pool p s'.
Proof. intros Hh (i & Hp & Hi). exists i. rewrite Hh. split; assumption. Qed.

Lemma keeps_open (p : DBPool) (s s' : Proc) :
  keeps p s s' -> open_pool p s -> open_pool p s'.
Proof.
  intros Hk (d & Hh & Hc).
  destruct (keeps_pool_handle p s s' d Hk Hh) as (d' & Hh' & (_ & Hc' & _)).
  exists d'. split; [exact Hh' | congruence].
Qed.

Lemma Sound_Live (p : DBPool) (s : Sys) :
  Sound p s -> halted s = None -> Live p s.
Proof.
  intros (Hp & Hv & Hall & Hne & Hm & Hd & _) Hh. split; [exact Hne|].
  intros Hs. repeat split; try assumption.
  destruct Hm as [Hm|Hm]; [exact Hm|].
  specialize (Hd Hm). unfold joining in Hs. rewrite Hd in Hs. elim Hs.
Qed.

Section WholeProgram.
Variable drv : Driver.
Variable pg : Setup.
Variable base : Z.
Variable p : DBPool.
Hypothesis Hn : 0 <= numClients (scenario pg) < 2 ^ 31.

Lemma Sound_step (s s' : Sys) (a : Action) :
  Inv (numClients (scenario pg)) base s ->
  Sound p s ->
  step drv pg a s = Some s' ->
  Sound p s'.
Proof.
  intros HI HS Hstep.
  pose proof HS as (Hp & Hv & Hall & Hne & Hm & Hd & Hhalt).
  unfold step in Hstep. destruct (halted s) eqn:Hh; [discriminate|].
  pose proof (Sound_Live p s HS Hh) as HL.
  (* a quiet statement that returns, keeping the handles *)
  assert (Hkeep : forall m' c' p',
            tasks p' = tasks (proc s) ->
            handles p' = handles (proc s) ->
            c' <> SNone ->
            (m' = MLoop \/ m' = MDone) ->
            (m' = MDone -> c' = SDone) ->
            Sound p (mkSys p' (Some p) m' c' None)).
  { intros m' c' p' Ht Hhs Hc Hm' Hd'. unfold Sound. cbn.
    rewrite Ht. repeat split; try assumption.
    - exact (valid_pool_handles p _ _ Hhs Hv).
    - exact (open_pool_handles p _ _ Hhs Hhalt). }
  assert (Hprint : forall m' c',
            c' <> SNone -> (m' = MLoop \/ m' = MDone) -> (m' = MDone -> c' = SDone) ->
            Sound p (run_in s (on_pool s PrintStats)
                       (fun _ p' => mkSys p' (pool s) m' c' None))).
  { intros m' c' Hc Hm' Hd'. unfold run_in, on_pool. rewrite !Hp.
    destruct (PrintStats_returns p (proc s) Hv) as (s1 & Hrun & Hhs).
    pose proof (quiet_Ok _ _ _ _ (quiet_PrintStats p) Hrun) as (_ & Hts & _).
    rewrite Hrun. apply Hkeep; assumption. }
  destruct a as [| | | |i now].
  - unfold main_step in Hstep.
    destruct Hm as [Hm|Hm]; rewrite Hm in Hstep; [discriminate|].
    injection Hstep as <-. unfold run_in, on_pool. rewrite !Hp.
    destruct (valid_pool_handle p (proc s) Hv) as (d & Hhd).
    destruct (Close_closes drv p (proc s) d Hhd) as (err & s1 & Hrun & Hc).
    pose proof (quiet_Ok _ _ _ _ (quiet_Close drv p) Hrun) as (_ & Hts & _).
    rewrite Hrun. unfold Sound. cbn. rewrite Hts.
    repeat split; try assumption; auto.
    exact (pool_closed_valid p s1 Hc).
  - unfold main_tick in Hstep.
    destruct (mainpc s) eqn:Hmp; try discriminate. injection Hstep as <-.
    apply Hprint; [exact Hne | left; reflexivity | discriminate].
  - unfold main_recv in Hstep.
    destruct (mainpc s) eqn:Hmp; try discriminate.
    destruct (simpc s) eqn:Hs; try discriminate. injection Hstep as <-.
    unfold run_in, fmt_Println, emit. rewrite Hp.
    apply Hkeep; try reflexivity; [discriminate | right; reflexivity].
  - unfold simulateClientAborts_step in Hstep.
    assert (Hloop : simpc s <> SDone -> mainpc s = MLoop).
    { intros Hnd. destruct Hm as [Hm|Hm]; [exact Hm|]. elim Hnd. exact (Hd Hm). }
    destruct (simpc s) eqn:Hs; try discriminate.
    + injection Hstep as <-. unfold run_in, fmt_Println, emit. rewrite Hp.
      apply Hkeep; try reflexivity; [discriminate | left; apply Hloop; discriminate |].
      intros Hmd. rewrite Hloop in Hmd by discriminate. discriminate.
    + injection Hstep as <-. unfold run_in, log_Printf, emit. rewrite Hp.
      apply Hkeep; try reflexivity; [discriminate | left; apply Hloop; discriminate |].
      intros Hmd. rewrite Hloop in Hmd by discriminate. discriminate.
    + injection Hstep as <-.
      pose proof HI as [_ HI']. rewrite Hs in HI'. destruct HI' as (Ht & Hw & _).
      unfold run_in, WaitGroup_Add. rewrite Hw, (wg_Add_in_range _ 0) by lia.
      rewrite Hp.
      apply Hkeep; try reflexivity; [discriminate | left; apply Hloop; discriminate |].
      intros Hmd. rewrite Hloop in Hmd by discriminate. discriminate.
    + destruct (i <? numClients (scenario pg)); injection Hstep as <-.
      * unfold run_in, on_pool, go_client. rewrite !Hp.
        unfold Sound. cbn.
        split; [reflexivity|]. split; [exact Hv|].
        split; [apply Forall_app; split; [exact Hall|];
                constructor; [reflexivity|constructor]|].
        split; [discriminate|].
        split; [left; apply Hloop; discriminate|].
        split; [|exact Hhalt].
        intros Hmd. rewrite Hloop in Hmd by discriminate. discriminate.
      * rewrite Hp.
        apply Hkeep; try reflexivity; [discriminate | left; apply Hloop; discriminate |].
        intros Hmd. rewrite Hloop in Hmd by discriminate. discriminate.
    + destruct (wg (proc s) =? 0); [|discriminate]. injection Hstep as <-.
      rewrite Hp. apply Hkeep; try reflexivity; [discriminate | left; apply Hloop; discriminate |].
      intros Hmd. rewrite Hloop in Hmd by discriminate. discriminate.
    + injection Hstep as <-.
      apply Hprint; [discriminate | left; apply Hloop; discriminate |].
      intros Hmd. rewrite Hloop in Hmd by discriminate. discriminate.
  - unfold client_step in Hstep.
    destruct (tasks (proc s) !! i) as [c|] eqn:Hc; [|discriminate].
    assert (Hcp : c_pool c = p).
    { rewrite Forall_forall in Hall. apply Hall.
      apply list_elem_of_lookup. exists i. exact Hc. }
    assert (Hmove : forall pc' p',
              tasks p' = tasks (proc s) ->
              keeps p (proc s) p' ->
              length (handles p') = length (handles (proc s)) ->
              Sound p (mkSys (set_pc i pc' p') (pool s) (mainpc s) (simpc s) None)).
    { intros pc' p' Ht Hk Hlen. unfold Sound. cbn.
      split; [exact Hp|]. split.
      { destruct Hv as (j & Hj & Hlt). exists j. split; [exact Hj|].
        rewrite handles_set_pc, Hlen. exact Hlt. }
      split; [apply (set_pc_pools p); rewrite Ht; exact Hall|].
      split; [exact Hne|]. split; [exact Hm|]. split; [exact Hd|].
      apply (open_pool_handles p p'); [apply handles_set_pc|].
      exact (keeps_open p _ _ Hk Hhalt). }
    destruct (c_pc c) eqn:Hpc; try discriminate; injection Hstep as <-.
    + unfold run_in, log_Printf, emit.
      apply Hmove; [reflexivity | apply keeps_handles; reflexivity | reflexivity].
    + rewrite Hcp.
      destruct (valid_pool_handle p (proc s) Hv) as (d & Hhd).
      destruct (SimulateClientAbort_keeps drv p (c_ctx c) (c_queryDuration c)
                  (c_abortAfter c) now (proc s) d Hhd) as (r & s1 & Hrun & Hk).
      destruct (SimulateClientAbort_returns drv p (c_ctx c) (c_queryDuration c)
                  (c_abortAfter c) now (proc s) Hv) as (r' & s1' & Hrun' & Hlen).
      rewrite Hrun in Hrun'. injection Hrun' as <- <-.
      pose proof (quiet_Ok _ _ _ _ (quiet_SimulateClientAbort drv p (c_ctx c)
                    (c_queryDuration c) (c_abortAfter c) now) Hrun) as (_ & Ht & _).
      unfold run_in. rewrite Hrun. apply Hmove; assumption.
    + unfold run_in.
      destruct err; unfold log_Printf, emit;
        (apply Hmove; [reflexivity | apply keeps_handles; reflexivity | reflexivity]).
    + pose proof (Inv_wg _ _ s (proj1 Hn) HI) as Hwg.
      pose proof (pending_lookup _ _ _ Hc) as Hle. rewrite Hpc in Hle. cbn in Hle.
      unfold run_in, WaitGroup_Done, WaitGroup_Add.
      rewrite wg_Add_in_range by lia.
      apply Hmove; [reflexivity | apply keeps_handles; reflexivity | reflexivity].
Qed.

Lemma Sound_run (acts : list Action) (s s' : Sys) :
  Inv (numClients (scenario pg)) base s ->
  Sound p s ->
  run drv pg acts s = Some s' ->
  Sound p s'.
Proof.
  revert s. induction acts as [|a acts IH]; intros s HI HS Hrun; cbn in Hrun.
  - injection Hrun as <-. exact HS.
  - destruct (step drv pg a s) as [s1|] eqn:Hstep; [|discriminate].
    exact (IH s1 (Inv_step drv pg base Hn s s1 a HI Hstep)
                 (Sound_step s s1 a HI HS Hstep) Hrun).
Qed.

End WholeProgram.

Lemma Sound_launch (p : DBPool) (w : Proc) :
  open_pool p w -> Sound p (launch p w).
Proof.
  intros Hopen. unfold Sound. cbn.
  split; [reflexivity|].
  split; [apply (valid_pool_handles p w); [reflexivity|exact (open_pool_valid p w Hopen)]|].
  split; [constructor|]. split; [discriminate|]. split; [left; reflexivity|].
  split; [discriminate|].
  revert Hopen. apply open_pool_handles. reflexivity.
Qed.

Lemma launch_of_fresh (p : DBPool) (w : Proc) :
  wg w = 0 -> tasks w = [] -> mkSys w (Some p) MLoop SStart None = launch p w.
Proof. intros Hw Ht. unfold launch. destruct w. cbn in *. subst. reflexivity. Qed.

(** What [main] does before the simulation starts: either the pool cannot
    be built and the process exits, or the pool is built, open, and the
    simulation is launched on it with nothing but log lines written. *)
Lemma boot_cases (drv : Driver) (pg : Setup) (s : Sys) :
  reaches drv pg boot s ->
  s = boot \/
  (exists po e w,
     NewDBPool drv (dsn pg) (config pg) emptyProc = Ok (po, Some e) w /\
     s = fatal e w) \/
  (exists p w,
     NewDBPool drv (dsn pg) (config pg) emptyProc = Ok (Some p, None) w /\
     open_pool p w /\ wg w = 0 /\ tasks w = [] /\ outcomes (out w) = 0 /\
     (s = built p w \/
      exists w',
        open_pool p w' /\ outcomes (out w') = 0 /\
        reaches drv pg (launch p w') s)).
Proof.
  intros [acts Hrun].
  destruct acts as [|a acts]; [left; cbn in Hrun; congruence|].
  right. cbn [run] in Hrun.
  destruct (step drv pg a boot) as [s1|] eqn:Hstep; [|discriminate].
  destruct a; try discriminate.
  unfold step, main_step, run_in in Hstep. cbn [halted boot mainpc proc] in Hstep.
  pose proof (quiet_NewDBPool drv (dsn pg) (config pg) emptyProc) as Hq.
  pose proof (NewDBPool_eval drv (dsn pg) (config pg) emptyProc) as Hev.
  destruct (NewDBPool drv (dsn pg) (config pg) emptyProc) as [[po [e|]] w|msg w] eqn:Hnew.
  - left. injection Hstep as <-. exists po, e, w. split; [reflexivity|].
    apply (run_halted drv pg acts _ s); [cbn; discriminate|exact Hrun].
  - right. cbn [final] in Hq. destruct Hq as (Hw & Ht & l & Ho & Hl).
    cbn in Hw, Ht, Ho.
    assert (Hpo : exists h, po = Some (mkDBPool (Some 0%nat)) /\
                            handles w = [h] /\ db_closed h = false).
    { destruct (drv_open drv "mysql" (dsn pg)); [discriminate|]. cbn zeta in Hev.
      destruct (outcome _); [discriminate|].
      injection Hev as -> ->. eexists. repeat split. }
    destruct Hpo as (h & -> & Hh & Hc).
    assert (Hopen : open_pool (mkDBPool (Some 0%nat)) w).
    { exists h. split; [|exact Hc]. exists 0%nat. rewrite Hh. split; reflexivity. }
    assert (Hout : outcomes (out w) = 0) by (rewrite Ho; exact Hl).
    exists (mkDBPool (Some 0%nat)), w. split; [reflexivity|].
    split; [exact Hopen|]. split; [exact Hw|]. split; [exact Ht|].
    split; [exact Hout|].
    injection Hstep as <-. change (simpc boot) with SNone in Hrun.
    destruct acts as [|a acts];
      [left; cbn in Hrun; injection Hrun as <-; reflexivity|].
    right. cbn [run] in Hrun.
    destruct (step drv pg a _) as [s2|] eqn:Hstep; [|discriminate].
    destruct a; try discriminate.
    + unfold step, main_step, run_in, bind, fmt_Println, emit, on_pool in Hstep.
      cbn [halted mainpc proc pool] in Hstep.
      rewrite (PrintStats_eval 0 h) in Hstep by (cbn; rewrite Hh; reflexivity).
      injection Hstep as <-. cbn [pool tick handles out wg tasks] in Hrun.
      rewrite launch_of_fresh in Hrun by assumption.
      eexists. split; [|split; [|exists acts; exact Hrun]].
      * revert Hopen. apply open_pool_handles. reflexivity.
      * cbn. rewrite !outcomes_app, Hout. reflexivity.
    + unfold step, client_step in Hstep. cbn in Hstep. rewrite Ht in Hstep.
      discriminate.
  - exfalso. destruct (drv_open drv "mysql" (dsn pg)); [discriminate|].
    cbn zeta in Hev. destruct (outcome _); discriminate.
Qed.

(** X8.  The program does not panic: whatever the store answers and
    however the goroutines are scheduled, clients running while the loop
    of [SimulateMultipleClientAborts] still starts others, no state
    reached from the start of the process is a crash, for any number of
    clients that the wait group can count.  In particular no [wg.Done()]
    takes the counter below zero: since [wg.Add(numClients)] comes before
    the first [go] statement, the wait group counts, in every state
    reached, at least the tasks that have not finished, and at most
    [numClients]. *)
Theorem main_never_panics (drv : Driver) (pg : Setup) (s : Sys) :
  0 <= numClients (scenario pg) < 2 ^ 31 ->
  reaches drv pg boot s ->
  (forall msg, halted s <> Some (Crash msg)) /\
  pending (tasks (proc s)) <= wg (proc s) <= numClients (scenario pg).
Proof.
  intros Hn Hreach.
  destruct (boot_cases drv pg s Hreach)
    as [->|[(po & e & w & Hnew & ->)|(p & w & _ & _ & Hw & Ht & _ & [->|Hl])]].
  - split; [discriminate|]. cbn. lia.
  - split; [discriminate|].
    pose proof (quiet_Ok _ _ _ _ (quiet_NewDBPool drv (dsn pg) (config pg)) Hnew)
      as (Hw & Ht & _).
    cbn. rewrite Hw, Ht. cbn. lia.
  - split; [discriminate|]. cbn. rewrite Hw, Ht. cbn. lia.
  - destruct Hl as (w' & Hopen & _ & acts & Hrun).
    split.
    + pose proof (Sound_run drv pg (outcomes (out w')) p Hn acts _ _
                    (Inv_launch _ p w') (Sound_launch p w' Hopen) Hrun)
        as (_ & _ & _ & _ & _ & _ & Hh).
      intros msg Heq. rewrite Heq in Hh. exact Hh.
    + apply (Inv_wg _ (outcomes (out w')) s (proj1 Hn)).
      exact (Inv_run drv pg _ Hn acts _ _ (Inv_launch _ p w') Hrun).
Qed.

Lemma main_never_panics_witness :
  exists s,
    reaches faultyStore mainSetup boot s /\
    mainpc s = MDone /\
    forall msg, halted s <> Some (Crash msg).
Proof.
  destruct (run faultyStore mainSetup
              ([ActMain; ActMain] ++ at_once 5 0 ++ [ActSim; ActRecv])
              boot) as [s|] eqn:Hrun; [|vm_compute in Hrun; discriminate Hrun].
  exists s. split; [eexists; exact Hrun|]. split.
  - vm_compute in Hrun. injection Hrun as <-. reflexivity.
  - apply (main_never_panics faultyStore mainSetup s); [cbn; lia|].
    eexists; exact Hrun.
Defined.

(** What the order of [wg.Add] and [go] is for: a task that reaches its
    [wg.Done()] while the wait group does not count it panics. *)
Example done_on_an_uncounted_task_panics :
  forall now : Time,
    step sleepyStore (setup_of 1) (ActClient 0 now)
      (mkSys (mkProc 1 [handle0] [] 0
                [mkClient 1 pool0 Background (15 * Minute) (10 * Minute) CDefer])
             (Some pool0) MLoop SAdd None) =
    Some (mkSys (mkProc 1 [handle0] [] 0
                   [mkClient 1 pool0 Background (15 * Minute) (10 * Minute) CDefer])
                (Some pool0) MLoop SAdd
                (Some (Crash "sync: negative WaitGroup counter"))).
Proof. intros now. reflexivity. Qed.

(** X9.  How the program ends.  In every state reached from the start of
    the process: while the process runs, a pool that has been built is
    open; status 1 is the exit of [main] on a failed construction, with
    nothing launched; status 0 comes only after [wg.Wait()] has returned,
    with all [n] clients finished and their [n] outcomes, the only outcome
    lines of the output, recorded, and with the pool closed. *)
Theorem main_closes_the_pool_last (drv : Driver) (pg : Setup) (s : Sys) :
  0 <= numClients (scenario pg) < 2 ^ 31 ->
  reaches drv pg boot s ->
  (halted s = None -> forall p, pool s = Some p -> open_pool p (proc s)) /\
  (halted s = Some (Exit 1) ->
     exists po e w,
       NewDBPool drv (dsn pg) (config pg) emptyProc = Ok (po, Some e) w /\
       pool s = None /\ simpc s = SNone /\ tasks (proc s) = []) /\
  (halted s = Some (Exit 0) ->
     wait_returned s /\
     length (tasks (proc s)) = Z.to_nat (numClients (scenario pg)) /\
     Forall finished (tasks (proc s)) /\
     outcomes (out (proc s)) = numClients (scenario pg) /\
     exists p, pool s = Some p /\ pool_closed p (proc s)) /\
  (forall z, halted s = Some (Exit z) -> z = 0 \/ z = 1).
Proof.
  intros Hn Hreach.
  destruct (boot_cases drv pg s Hreach)
    as [->|[(po & e & w & Hnew & ->)|(p & w & Hnew & Hopen & Hw & Ht & _ & [->|Hl])]].
  - repeat split; discriminate.
  - split; [discriminate|]. split; [|split; [discriminate|]].
    + intros _. exists po, e, w. split; [exact Hnew|].
      pose proof (quiet_Ok _ _ _ _ (quiet_NewDBPool drv (dsn pg) (config pg)) Hnew)
        as (_ & Hts & _).
      repeat split. exact Hts.
    + intros z [= <-]. right. reflexivity.
  - split; [|split; [discriminate|split; [discriminate|intros z [=]]]].
    intros _ q [= <-]. exact Hopen.
  - destruct Hl as (w' & Hopen' & Hout & acts & Hrun).
    pose proof (Inv_run drv pg _ Hn acts _ _ (Inv_launch _ p w') Hrun) as HI.
    pose proof (Sound_run drv pg (outcomes (out w')) p Hn acts _ _
                  (Inv_launch _ p w') (Sound_launch p w' Hopen') Hrun)
      as (Hp & _ & _ & _ & _ & Hd & Hh).
    split; [|split; [|split]].
    + intros Hnone q Hq. rewrite Hnone in Hh. congruence.
    + intros Hex. rewrite Hex in Hh. destruct Hh as (Hz & _). discriminate.
    + intros Hex. rewrite Hex in Hh. destruct Hh as (_ & Hmd & Hc).
      pose proof (Hd Hmd) as Hsd.
      destruct HI as [_ HI]. rewrite Hsd in HI.
      destruct HI as ((Hl & Hwg & Ho) & Hz).
      assert (Hfin : Forall finished (tasks (proc s)))
        by (apply pending_zero_finished; lia).
      split; [right; right; exact Hsd|]. split; [exact Hl|].
      split; [exact Hfin|]. split.
      * rewrite Ho, (finished_reported _ Hfin), Hl, Hout. lia.
      * exists p. split; assumption.
    + intros z Hex. rewrite Hex in Hh. left. apply Hh.
Qed.

Lemma main_closes_the_pool_last_witness :
  exists s,
    reaches sleepyStore mainSetup boot s /\
    halted s = Some (Exit 0) /\
    outcomes (out (proc s)) = 5 /\
    exists p, pool s = Some p /\ pool_closed p (proc s).
Proof.
  destruct (run sleepyStore mainSetup
              ([ActMain; ActMain] ++ one_by_one 5 0 ++ [ActSim; ActRecv; ActMain])
              boot) as [s|] eqn:Hrun; [|vm_compute in Hrun; discriminate Hrun].
  assert (Hh : halted s = Some (Exit 0)).
  { vm_compute in Hrun. injection Hrun as <-. reflexivity. }
  destruct (main_closes_the_pool_last sleepyStore mainSetup s)
    as (_ & _ & Hexit & _); [cbn; lia | eexists; exact Hrun |].
  destruct (Hexit Hh) as (_ & _ & _ & Ho & Hc).
  exists s. split; [eexists; exact Hrun|]. split; [exact Hh|].
  split; [exact Ho | exact Hc].
Defined.

(* ===================================================================== *)
(** * One outcome line per client *)
(* ===================================================================== *)

Lemma outcomes_of_app (k : Z) (a b : list Event) :
  outcomes_of k (a ++ b) = outcomes_of k a + outcomes_of k b.
Proof. induction a as [|e a IH]; cbn [outcomes_of app]; lia. Qed.

Lemma is_outcome_of_outcome (k : Z) (e : Event) :
  is_outcome_of k e = true -> is_outcome e = true.
Proof.
  unfold is_outcome_of. destruct e as [f args|]; [|discriminate].
  destruct args as [|[j| |] rest]; try discriminate.
  intros H. apply andb_true_iff in H. apply H.
Qed.

Lemma outcomes_of_bound (k : Z) (l : list Event) :
  0 <= outcomes_of k l <= outcomes l.
Proof.
  induction l as [|e l IH]; cbn [outcomes_of outcomes]; [lia|].
  destruct (is_outcome_of k e) eqn:He.
  - rewrite (is_outcome_of_outcome k e He). lia.
  - destruct (is_outcome e); lia.
Qed.

Lemma outcomes_of_zero (k : Z) (l : list Event) :
  outcomes l = 0 -> outcomes_of k l = 0.
Proof. intros H. pose proof (outcomes_of_bound k l). lia. Qed.

Lemma reported_of_app (k : Z) (a b : list Client) :
  reported_of k (a ++ b) = reported_of k a + reported_of k b.
Proof. induction a as [|c a IH]; cbn [reported_of app]; lia. Qed.

Lemma reported_of_insert (k : Z) (ts : list Client) (i : nat) (c c' : Client) :
  ts !! i = Some c -> c_id c' = c_id c ->
  reported_of k (<[i := c']> ts) =
  reported_of k ts +
  (if c_id c =? k then has_reported (c_pc c') - has_reported (c_pc c) else 0).
Proof.
  revert i. induction ts as [|t ts IH]; intros i Hi Hid; [discriminate|].
  destruct i as [|i].
  - injection Hi as ->. cbn [insert list_insert reported_of]. rewrite Hid.
    destruct (c_id c =? k); lia.
  - change (ts !! i = Some c) in Hi. specialize (IH i Hi Hid).
    change (<[S i := c']> (t :: ts)) with (t :: <[i := c']> ts).
    cbn [reported_of]. lia.
Qed.

Lemma ids_insert (ts : list Client) (i : nat) (c c' : Client) :
  ts !! i = Some c -> c_id c' = c_id c ->
  map c_id (<[i := c']> ts) = map c_id ts.
Proof.
  revert i. induction ts as [|t ts IH]; intros i Hi Hid; [discriminate|].
  destruct i as [|i].
  - injection Hi as ->. cbn. rewrite Hid. reflexivity.
  - change (ts !! i = Some c) in Hi. specialize (IH i Hi Hid).
    change (<[S i := c']> (t :: ts)) with (t :: <[i := c']> ts).
    cbn [map]. rewrite IH. reflexivity.
Qed.

Lemma reported_of_clients_from (q : Z) (p : DBPool) (ctx : Context)
    (qd aa : Duration) (k : nat) (i : Z) :
  reported_of q (clients_from p ctx qd aa i k) = 0.
Proof.
  revert i. induction k as [|k IH]; intros i; [reflexivity|].
  cbn [clients_from reported_of c_id c_pc has_reported]. rewrite IH.
  destruct (i + 1 =? q); reflexivity.
Qed.

(** Among tasks with distinct numbers, a number has reported at most
    once, and exactly once when its task has finished. *)
Lemma reported_of_bound (k : Z) (ts : list Client) :
  NoDup (map c_id ts) ->
  0 <= reported_of k ts <= 1 /\
  (k ∉ map c_id ts -> reported_of k ts = 0) /\
  (Forall finished ts -> k ∈ map c_id ts -> reported_of k ts = 1).
Proof.
  induction ts as [|c ts IH]; intros Hnd.
  - cbn. split; [lia|]. split; [reflexivity|]. intros _ H. inversion H.
  - cbn [map] in Hnd. apply NoDup_cons in Hnd as [Hc Hnd].
    destruct (IH Hnd) as (Hb & Hout & Hin). cbn [reported_of map].
    assert (Hr : 0 <= has_reported (c_pc c) <= 1)
      by (destruct (c_pc c); cbn; lia).
    destruct (c_id c =? k) eqn:Hk.
    + apply Z.eqb_eq in Hk. subst k. rewrite (Hout Hc).
      split; [lia|]. split.
      * intros Hn. exfalso. apply Hn. left.
      * intros Hf _. apply Forall_cons in Hf as [Hf _].
        unfold finished in Hf. rewrite Hf. reflexivity.
    + apply Z.eqb_neq in Hk. split; [lia|]. split.
      * intros Hn. rewrite Hout; [lia|]. intros H. apply Hn. right. exact H.
      * intros Hf H. apply Forall_cons in Hf as [_ Hf].
        apply elem_of_cons in H as [H|H]; [congruence|]. rewrite (Hin Hf H). lia.
Qed.

Lemma Tally_logs (s s' : Proc) :
  Tally s -> only_logs s s' -> Tally s'.
Proof.
  intros (Ho & Hi) (_ & Ht & l & Hl & Hz). split.
  - intros k. rewrite Hl, outcomes_of_app, Ht, (outcomes_of_zero k l Hz), Ho. lia.
  - rewrite Ht. exact Hi.
Qed.

Lemma ids_from_snoc (k : nat) (i : Z) :
  ids_from i (S k) = ids_from i k ++ [i + Z.of_nat k + 1].
Proof.
  revert i. induction k as [|k IH]; intros i.
  - cbn. f_equal. lia.
  - change (ids_from i (S (S k))) with ((i + 1) :: ids_from (i + 1) (S k)).
    rewrite IH. cbn [ids_from app]. do 3 f_equal. lia.
Qed.

(** Task [i] moves on to [pc'], the lines [l] having been written. *)
Lemma Tally_move (s s' : Proc) (i : nat) (c : Client) (pc' : ClientPC)
    (l : list Event) :
  Tally s ->
  tasks s !! i = Some c ->
  tasks s' = tasks s ->
  out s' = out s ++ l ->
  (forall k, outcomes_of k l =
             if c_id c =? k then has_reported pc' - has_reported (c_pc c) else 0) ->
  Tally (set_pc i pc' s').
Proof.
  intros (Ho & Hi) Hc Ht Hl Hk.
  rewrite (set_pc_eval i pc' s' c) by (rewrite Ht; exact Hc).
  split; cbn [out tasks].
  - intros k. rewrite Hl, outcomes_of_app, Ht, Ho, Hk.
    rewrite (reported_of_insert k _ i c) by (try exact Hc; reflexivity).
    reflexivity.
  - rewrite Ht, length_insert.
    rewrite (ids_insert _ i c) by (try exact Hc; reflexivity). exact Hi.
Qed.

Lemma Tally_quiet_move (s s' : Proc) (i : nat) (c : Client)
    (pc' : ClientPC) :
  Tally s ->
  tasks s !! i = Some c ->
  only_logs s s' ->
  has_reported pc' = has_reported (c_pc c) ->
  Tally (set_pc i pc' s').
Proof.
  intros HT Hc (_ & Ht & l & Hl & Hz) Hr.
  apply (Tally_move s s' i c pc' l HT Hc Ht Hl).
  intros k. rewrite (outcomes_of_zero k l Hz), Hr.
  destruct (c_id c =? k); lia.
Qed.

Section Tallies.
Variable drv : Driver.
Variable pg : Setup.
Variable base : Z.
Hypothesis Hn : 0 <= numClients (scenario pg) < 2 ^ 31.

Lemma Tally_step (s s' : Sys) (a : Action) :
  Inv (numClients (scenario pg)) base s ->
  Tally (proc s) ->
  step drv pg a s = Some s' ->
  Tally (proc s').
Proof.
  intros HI HT Hstep. unfold step in Hstep.
  destruct (halted s); [discriminate|].
  destruct a as [| | | |i now].
  - unfold main_step in Hstep.
    destruct (mainpc s); try discriminate; injection Hstep as <-.
    + apply run_in_cases.
      * intros [po [e|]] p' Hrun; cbn [proc];
          pose proof (quiet_Ok_logs _ _ _ _ (quiet_NewDBPool _ _ _) Hrun) as Hl.
        -- apply (Tally_logs (proc s)); [exact HT|].
           apply (only_logs_trans _ p'); [exact Hl|].
           apply (quiet_emit (EvLog "Failed to create database pool: %v" [VErr e]));
             reflexivity.
        -- apply (Tally_logs (proc s)); assumption.
      * intros msg p' Hrun. cbn [proc].
        apply (Tally_logs (proc s)); [exact HT|].
        exact (quiet_Panic_logs _ _ _ _ (quiet_NewDBPool _ _ _) Hrun).
    + apply (Tally_logs (proc s)); [exact HT|].
      apply run_in_logs; [|reflexivity].
      apply quiet_bind; [apply quiet_emit; reflexivity|intros _].
      apply quiet_on_pool, quiet_PrintStats.
    + apply (Tally_logs (proc s)); [exact HT|].
      apply run_in_logs; [apply quiet_on_pool, quiet_Close | reflexivity].
  - unfold main_tick in Hstep.
    destruct (mainpc s); try discriminate; injection Hstep as <-.
    apply (Tally_logs (proc s)); [exact HT|].
    apply run_in_logs; [apply quiet_on_pool, quiet_PrintStats | reflexivity].
  - unfold main_recv in Hstep.
    destruct (mainpc s); try discriminate.
    destruct (simpc s); try discriminate. injection Hstep as <-.
    apply (Tally_logs (proc s)); [exact HT|].
    apply run_in_logs; [apply quiet_emit; reflexivity | reflexivity].
  - unfold simulateClientAborts_step in Hstep.
    destruct (simpc s) eqn:Hs; try discriminate.
    + injection Hstep as <-.
      apply (Tally_logs (proc s)); [exact HT|].
      apply run_in_logs; [apply quiet_emit; reflexivity | reflexivity].
    + injection Hstep as <-.
      apply (Tally_logs (proc s)); [exact HT|].
      apply run_in_logs; [apply quiet_emit; reflexivity | reflexivity].
    + injection Hstep as <-. unfold run_in, WaitGroup_Add.
      destruct (wg_Add _ _); exact HT.
    + destruct HI as [_ HI]. rewrite Hs in HI. destruct HI as (Hi & Hl & _).
      destruct (i <? numClients (scenario pg)); injection Hstep as <-; [|exact HT].
      unfold run_in, on_pool, go_client.
      destruct (pool s) as [p|]; [|exact HT].
      destruct HT as (Ho & Hids). split; cbn [proc out tasks].
      * intros k. rewrite reported_of_app, Ho. cbn. destruct (i + 1 =? k); lia.
      * rewrite map_app, length_app, Hids. cbn [map length c_id].
        rewrite Nat.add_1_r, ids_from_snoc. do 2 f_equal. lia.
    + destruct (wg (proc s) =? 0); [|discriminate]. injection Hstep as <-.
      exact HT.
    + injection Hstep as <-.
      apply (Tally_logs (proc s)); [exact HT|].
      apply run_in_logs; [apply quiet_on_pool, quiet_PrintStats | reflexivity].
  - unfold client_step in Hstep.
    destruct (tasks (proc s) !! i) as [c|] eqn:Hc; [|discriminate].
    destruct (c_pc c) eqn:Hpc; try discriminate; injection Hstep as <-.
    + apply run_in_cases; intros; cbn [proc].
      * apply (Tally_quiet_move (proc s) _ i c); try assumption.
        -- eapply quiet_Ok_logs; [|eassumption]. apply quiet_emit. reflexivity.
        -- rewrite Hpc. reflexivity.
      * apply (Tally_logs (proc s)); [exact HT|].
        eapply quiet_Panic_logs; [|eassumption]. apply quiet_emit. reflexivity.
    + apply run_in_cases; intros; cbn [proc].
      * apply (Tally_quiet_move (proc s) _ i c); try assumption.
        -- eapply quiet_Ok_logs; [|eassumption]. apply quiet_SimulateClientAbort.
        -- rewrite Hpc. reflexivity.
      * apply (Tally_logs (proc s)); [exact HT|].
        eapply quiet_Panic_logs; [|eassumption]. apply quiet_SimulateClientAbort.
    + unfold run_in.
      destruct err as [e|]; unfold log_Printf, emit; cbn [proc];
        (eapply (Tally_move (proc s) _ i c);
         [exact HT | exact Hc | reflexivity | reflexivity |]);
        intros k; rewrite Hpc; cbn; destruct (c_id c =? k); reflexivity.
    + unfold run_in, WaitGroup_Done, WaitGroup_Add.
      destruct (wg_Add (-1) (wg (proc s))); cbn [proc]; [|exact HT].
      apply (Tally_move (proc s) _ i c _ []);
        [exact HT | exact Hc | reflexivity | symmetry; apply app_nil_r |].
      intros k. rewrite Hpc. cbn. destruct (c_id c =? k); reflexivity.
Qed.

Lemma Tally_run (acts : list Action) (s s' : Sys) :
  Inv (numClients (scenario pg)) base s ->
  Tally (proc s) ->
  run drv pg acts s = Some s' ->
  Tally (proc s').
Proof.
  revert s. induction acts as [|a acts IH]; intros s HI HT Hrun; cbn in Hrun.
  - injection Hrun as <-. exact HT.
  - destruct (step drv pg a s) as [s1|] eqn:Hstep; [|discriminate].
    exact (IH s1 (Inv_step drv pg base Hn s s1 a HI Hstep)
              (Tally_step s s1 a HI HT Hstep) Hrun).
Qed.

End Tallies.

Lemma Inv_length (n base : Z) (s : Sys) :
  0 <= n -> Inv n base s -> Z.of_nat (length (tasks (proc s))) <= n.
Proof.
  intros Hn [_ HI].
  destruct (simpc s);
    try (destruct HI as (Ht & _); rewrite Ht; cbn; lia);
    try (destruct HI as ((Hl & _) & _); lia).
  destruct HI as (Hi & Hl & _). lia.
Qed.

Lemma is_client_ids (n k : Z) :
  0 <= n -> (is_client n k = true <-> k ∈ ids_from 0 (Z.to_nat n)).
Proof.
  intros Hn. rewrite ids_from_spec. unfold is_client.
  rewrite andb_true_iff, !Z.leb_le. lia.
Qed.

(** X6.  Every client reports once, under its own number.  In every state
    reached from the start of the process, for any number [n] of clients
    that the wait group can count: the output holds at most one outcome
    line ("Client k: <error>" or "Client k: Completed successfully") for
    each number [k], none for a [k] outside [1..n], and once [wg.Wait()]
    has returned exactly one for each [k] in [1..n]. *)
Theorem each_client_reports_once (drv : Driver) (pg : Setup) (s : Sys) (k : Z) :
  0 <= numClients (scenario pg) < 2 ^ 31 ->
  reaches drv pg boot s ->
  0 <= outcomes_of k (out (proc s)) <= 1 /\
  (is_client (numClients (scenario pg)) k = false ->
   outcomes_of k (out (proc s)) = 0) /\
  (wait_returned s -> is_client (numClients (scenario pg)) k = true ->
   outcomes_of k (out (proc s)) = 1).
Proof.
  intros Hn Hreach.
  assert (Hearly : outcomes (out (proc s)) = 0 -> simpc s = SNone ->
            0 <= outcomes_of k (out (proc s)) <= 1 /\
            (is_client (numClients (scenario pg)) k = false ->
             outcomes_of k (out (proc s)) = 0) /\
            (wait_returned s -> is_client (numClients (scenario pg)) k = true ->
             outcomes_of k (out (proc s)) = 1)).
  { intros Hz Hs. rewrite (outcomes_of_zero k _ Hz).
    split; [lia|]. split; [reflexivity|].
    intros [H|[H|H]]; congruence. }
  destruct (boot_cases drv pg s Hreach)
    as [->|[(po & e & w & Hnew & ->)|(p & w & _ & _ & _ & _ & Ho & [->|Hl])]].
  - apply Hearly; reflexivity.
  - apply Hearly; [|reflexivity].
    pose proof (quiet_Ok _ _ _ _ (quiet_NewDBPool drv (dsn pg) (config pg)) Hnew)
      as (_ & _ & Hout).
    cbn. rewrite outcomes_app, Hout. reflexivity.
  - apply Hearly; [exact Ho | reflexivity].
  - destruct Hl as (w' & _ & Hout & acts & Hrun).
    pose proof (Inv_run drv pg _ Hn acts _ _ (Inv_launch _ p w') Hrun) as HI.
    assert (HT0 : Tally (proc (launch p w'))).
    { split; cbn; [|reflexivity].
      intros q. apply outcomes_of_zero. exact Hout. }
    pose proof (Tally_run drv pg _ Hn acts _ _ (Inv_launch _ p w') HT0 Hrun)
      as (Htally & Hids).
    rewrite Htally.
    pose proof (Inv_length _ _ s (proj1 Hn) HI) as Hlen.
    assert (Hnd : NoDup (map c_id (tasks (proc s))))
      by (rewrite Hids; apply ids_from_NoDup).
    destruct (reported_of_bound k _ Hnd) as (Hb & Hnone & Hone).
    split; [exact Hb|]. split.
    + intros Hk. apply Hnone. rewrite Hids, ids_from_spec. intros Hin.
      unfold is_client in Hk. apply andb_false_iff in Hk.
      rewrite Z.leb_gt, Z.leb_gt in Hk. lia.
    + intros Hlate Hk. destruct HI as [_ HI].
      assert (Hsp : spawned (numClients (scenario pg)) (outcomes (out w')) (proc s) /\
                    wg (proc s) = 0).
      { destruct Hlate as [H|[H|H]]; rewrite H in HI; exact HI. }
      destruct Hsp as ((Hl & Hwg & _) & Hz).
      apply Hone.
      * apply pending_zero_finished. lia.
      * rewrite Hids, Hl, <- is_client_ids by lia. exact Hk.
Qed.

Lemma each_client_reports_once_witness :
  exists s,
    reaches sleepyStore mainSetup boot s /\
    outcomes_of 3 (out (proc s)) = 1 /\
    outcomes_of 6 (out (proc s)) = 0.
Proof.
  destruct (run sleepyStore mainSetup
              ([ActMain; ActMain] ++ one_by_one 5 0 ++ [ActSim])
              boot) as [s|] eqn:Hrun; [|vm_compute in Hrun; discriminate Hrun].
  assert (Hlate : wait_returned s).
  { vm_compute in Hrun. injection Hrun as <-. right. left. reflexivity. }
  exists s. split; [eexists; exact Hrun|].
  destruct (each_client_reports_once sleepyStore mainSetup s 3)
    as (_ & _ & H3); [cbn; lia | eexists; exact Hrun |].
  destruct (each_client_reports_once sleepyStore mainSetup s 6)
    as (_ & H6 & _); [cbn; lia | eexists; exact Hrun |].
  split; [apply H3; [exact Hlate | reflexivity] | apply H6; reflexivity].
Defined.

(* ===================================================================== *)
(** * practice/db_connection/queries.go *)
(* ===================================================================== *)

Lemma db_Query_eval (st : Store) (i : nat) (d : sqlDB) (q : string)
    (args : list QArg) (s : QProc) :
  handles (q_proc s) !! i = Some d ->
  db_Query st (Some i) q args s =
  if db_closed d then QOk (None, Some (Lib errDBClosed)) s
  else
    let r := st_query st (tick (q_proc s)) (db_dsn d) q args in
    match qr_result r with
    | inl e =>
        QOk (None, Some e) (mkQProc (asked i d (qr_counters r) (q_proc s)) (q_rows s))
    | inr rs =>
        QOk (Some (length (q_rows s)), None)
            (mkQProc (asked i d (qr_counters r) (q_proc s))
                     (q_rows s ++ [cursor_of rs]))
    end.
Proof.
  intros Hd. destruct s as [P R]. cbn [q_proc q_rows] in *.
  unfold db_Query, qbind, lift, deref. cbn [q_proc q_rows]. rewrite Hd.
  destruct (db_closed d); [reflexivity|].
  unfold next_tick, store, new_rows, qret, asked. cbn [q_proc q_rows tick handles out wg tasks].
  destruct (qr_result _); reflexivity.
Qed.

Lemma db_Query_panics (st : Store) (h : ptr) (q : string) (args : list QArg)
    (s : QProc) :
  (forall i, h = Some i -> handles (q_proc s) !! i = None) ->
  db_Query st h q args s = QPanic nilDeref s.
Proof.
  intros Hh. destruct s as [P R]. cbn [q_proc] in Hh.
  unfold db_Query, qbind, lift, deref. cbn [q_proc q_rows].
  destruct h as [i|]; [rewrite (Hh i eq_refl)|]; reflexivity.
Qed.

Lemma db_Exec_eval (st : Store) (i : nat) (d : sqlDB) (q : string)
    (args : list QArg) (s : QProc) :
  handles (q_proc s) !! i = Some d ->
  db_Exec st (Some i) q args s =
  if db_closed d then QOk (Some (Lib errDBClosed)) s
  else
    let r := st_exec st (tick (q_proc s)) (db_dsn d) q args in
    QOk (ex_err r) (mkQProc (asked i d (ex_counters r) (q_proc s)) (q_rows s)).
Proof.
  intros Hd. destruct s as [P R]. cbn [q_proc q_rows] in *.
  unfold db_Exec, qbind, lift, deref. cbn [q_proc q_rows]. rewrite Hd.
  destruct (db_closed d); reflexivity.
Qed.

Lemma db_Exec_panics (st : Store) (h : ptr) (q : string) (args : list QArg)
    (s : QProc) :
  (forall i, h = Some i -> handles (q_proc s) !! i = None) ->
  db_Exec st h q args s = QPanic nilDeref s.
Proof.
  intros Hh. destruct s as [P R]. cbn [q_proc] in Hh.
  unfold db_Exec, qbind, lift, deref. cbn [q_proc q_rows].
  destruct h as [i|]; [rewrite (Hh i eq_refl)|]; reflexivity.
Qed.

Lemma rows_Next_eval (j : nat) (c : Cursor) (s : QProc) :
  q_rows s !! j = Some c -> cur_closed c = false ->
  rows_Next (Some j) s =
  match cur_rest c with
  | row :: rest =>
      QOk true (mkQProc (q_proc s)
                  (<[j := mkCursor rest (Some row) (cur_end c) (cur_close c)
                                   (cur_lasterr c) false]> (q_rows s)))
  | [] =>
      QOk false (mkQProc (q_proc s)
                   (<[j := mkCursor [] (cur_row c) (cur_end c) (cur_close c)
                                    (cur_end c) true]> (q_rows s)))
  end.
Proof.
  intros Hc Ho. unfold rows_Next, qbind, get_rows. rewrite Hc, Ho.
  destruct (cur_rest c); reflexivity.
Qed.

Lemma rows_Close_eval (j : nat) (c : Cursor) (s : QProc) :
  q_rows s !! j = Some c ->
  rows_Close (Some j) s =
  if cur_closed c then QOk None s
  else QOk (cur_close c)
           (mkQProc (q_proc s)
              (<[j := mkCursor (cur_rest c) (cur_row c) (cur_end c) (cur_close c)
                               (cur_lasterr c) true]> (q_rows s))).
Proof.
  intros Hc. unfold rows_Close, qbind, get_rows. rewrite Hc.
  destruct (cur_closed c); reflexivity.
Qed.

Lemma fold_append {A} (l : list A) (acc : slice A) :
  fold_left append l acc =
  match acc with
  | None => slice_of l
  | Some a => Some (a ++ l)
  end.
Proof.
  revert acc. induction l as [|x l IH]; intros acc.
  - destruct acc; cbn; [rewrite app_nil_r|]; reflexivity.
  - cbn [fold_left]. rewrite IH. destruct acc as [a|]; cbn.
    + rewrite <- app_assoc. reflexivity.
    + reflexivity.
Qed.

(** The loop of the listing functions over a result set that is open:
    it stops at the first row that does not scan, and otherwise runs to
    the end of the rows, where [Next] closes the result set. *)
Lemma for_Next_scan {A} (scan : Row -> A + qerror) (what : string) (j : nat)
    (rows : list Row) :
  forall (fuel : nat) (acc : slice A) (s : QProc) (c : Cursor),
    q_rows s !! j = Some c -> cur_closed c = false -> cur_rest c = rows ->
    (length rows < fuel)%nat ->
    exists c',
      for_Next fuel (Some j)
        (fun acc =>
           qbind (rows_Scan scan (Some j))
             (fun v =>
                match v with
                | inr e => qret (inr (Wrapf what e))
                | inl x => qret (inl (append acc x))
                end))
        acc s =
      QOk match scan_all scan rows with
          | inr e => inr (Wrapf what e)
          | inl l => inl (fold_left append l acc)
          end
          (mkQProc (q_proc s) (<[j := c']> (q_rows s))) /\
      cur_close c' = cur_close c /\ cur_end c' = cur_end c /\
      (forall l, scan_all scan rows = inl l ->
                 cur_closed c' = true /\ cur_lasterr c' = cur_end c).
Proof.
  induction rows as [|r rows IH]; intros fuel acc s c Hc Ho Hr Hf;
    (destruct fuel as [|fuel]; [cbn in Hf; lia|]); cbn [for_Next].
  - unfold qbind at 1. rewrite (rows_Next_eval j c s Hc Ho), Hr.
    eexists. split; [reflexivity|]. cbn. repeat split.
  - unfold qbind at 1. rewrite (rows_Next_eval j c s Hc Ho), Hr.
    set (c1 := mkCursor rows (Some r) (cur_end c) (cur_close c) (cur_lasterr c) false).
    set (s1 := mkQProc (q_proc s) (<[j := c1]> (q_rows s))).
    assert (Hc1 : q_rows s1 !! j = Some c1).
    { subst s1. cbn [q_rows]. apply list_lookup_insert_eq.
      eapply lookup_lt_Some; exact Hc. }
    unfold qbind at 1. unfold qbind at 1. unfold rows_Scan at 1.
    unfold qbind at 1. unfold get_rows. rewrite Hc1. cbn [cur_closed cur_row c1].
    unfold qret at 1. cbn [scan_all].
    destruct (scan r) as [a|e].
    + unfold qret at 1.
      destruct (IH fuel (append acc a) s1 c1 Hc1 eq_refl eq_refl)
        as (c' & Hrun & Hcl & Hen & Hfin); [cbn in Hf; lia|].
      exists c'. rewrite Hrun. subst s1. cbn [q_proc q_rows].
      rewrite list_insert_insert_eq. split; [|split; [exact Hcl|split; [exact Hen|]]].
      * destruct (scan_all scan rows); reflexivity.
      * intros l Hl. destruct (scan_all scan rows) as [l'|]; [|discriminate].
        apply (Hfin l'). reflexivity.
    + exists c1. unfold qret. split; [reflexivity|].
      repeat split; discriminate.
Qed.

Lemma q_frame_refl (p : DBPool) (s : QProc) : q_frame p s s.
Proof.
  unfold q_frame. split; [lia|]. repeat split; try reflexivity.
  - apply keeps_refl.
  - exists []. split; [symmetry; apply app_nil_r | constructor].
Qed.

Lemma q_frame_asked (p : DBPool) (s : QProc) (i : nat) (d : sqlDB)
    (f : Counters -> Counters) (new : list Cursor) :
  DB p = Some i -> handles (q_proc s) !! i = Some d -> closed_rows new ->
  q_frame p s (mkQProc (asked i d f (q_proc s)) (q_rows s ++ new)).
Proof.
  intros Hp Hd Hnew. unfold q_frame, asked. cbn.
  split; [lia|]. repeat split; try reflexivity.
  - apply (keeps_set_live p _ _ i d f Hp Hd). reflexivity.
  - apply length_insert.
  - exists new. split; [reflexivity | exact Hnew].
Qed.

(** The part of a listing function behind its query: the loop, the check
    of [rows.Err()] and the deferred [rows.Close()], on a result set that
    is open.  The result set is closed afterwards, whatever was returned. *)
Lemma listing_eval {A} (scan : Row -> A + qerror) (what : string) (j : nat)
    (s : QProc) (c : Cursor) :
  q_rows s !! j = Some c -> cur_closed c = false ->
  exists c',
    defer (rows_Close (Some j))
      (qbind (rows_bound (Some j)) (fun bound =>
         qbind (for_Next bound (Some j)
                  (fun acc =>
                     qbind (rows_Scan scan (Some j))
                       (fun v =>
                          match v with
                          | inr e => qret (inr (Wrapf what e))
                          | inl x => qret (inl (append acc x))
                          end))
                  None)
           (fun r =>
              match r with
              | inr e => qret (None, Some e)
              | inl l =>
                  qbind (rows_Err (Some j)) (fun e =>
                    match e with
                    | Some e => qret (None, Some (Wrapf "row iteration error: %w" e))
                    | None => qret (l, None)
                    end)
              end))) s =
    QOk match scan_all scan (cur_rest c) with
        | inr e => (None, Some (Wrapf what e))
        | inl l =>
            match cur_end c with
            | Some e => (None, Some (Wrapf "row iteration error: %w" e))
            | None => (slice_of l, None)
            end
        end
        (mkQProc (q_proc s) (<[j := c']> (q_rows s))) /\
    cur_closed c' = true.
Proof.
  intros Hc Ho.
  assert (Hlt : (j < length (q_rows s))%nat) by (eapply lookup_lt_Some; exact Hc).
  destruct (for_Next_scan scan what j (cur_rest c) (S (length (cur_rest c))) None
              s c Hc Ho eq_refl) as (c' & Hrun & Hcl & Hen & Hfin); [lia|].
  unfold defer. unfold qbind at 1. unfold rows_bound at 1. unfold qbind at 1.
  unfold get_rows at 1. rewrite Hc. unfold qret at 1. unfold qbind at 1.
  rewrite Hrun.
  set (s1 := mkQProc (q_proc s) (<[j := c']> (q_rows s))).
  assert (Hc1 : q_rows s1 !! j = Some c')
    by (subst s1; cbn [q_rows]; apply list_lookup_insert_eq; exact Hlt).
  assert (Hclose : forall (a : slice A * option qerror),
            exists c'',
              match rows_Close (Some j) s1 with
              | QOk _ s'' => QOk a s''
              | QPanic msg s'' => QPanic msg s''
              | QBound s'' => QBound s''
              end = QOk a (mkQProc (q_proc s) (<[j := c'']> (q_rows s))) /\
              cur_closed c'' = true).
  { intros a. rewrite (rows_Close_eval j c' s1 Hc1).
    destruct (cur_closed c') eqn:Hcc.
    - exists c'. split; [reflexivity | exact Hcc].
    - eexists. subst s1. cbn [q_proc q_rows]. rewrite list_insert_insert_eq.
      split; reflexivity. }
  destruct (scan_all scan (cur_rest c)) as [l|e].
  - destruct (Hfin l eq_refl) as (Hcc & Hle). rewrite fold_append.
    unfold rows_Err, qbind, get_rows. rewrite Hc1, Hle. unfold qret.
    destruct (cur_end c); apply Hclose.
  - unfold qret. apply Hclose.
Qed.

(** X10.  The listing functions return the rows in the order of the
    result set.  On a pool whose handle is open, when the store answers
    the statement with a result set: [GetAllUsers] (and, for its
    statement and its argument [userID], [GetOrdersByUserID]) returns the
    values scanned from the rows, in their order, as a slice that is [nil]
    when there is no row; the error of the first row that does not scan,
    or else the error the end of the rows reports, is returned instead,
    wrapped, with a [nil] slice.  The call is one interaction with the
    store, and the result set it opened is closed when it returns. *)
Theorem listings_return_the_rows_in_order (st : Store) (p : DBPool) (s : QProc)
    (d : sqlDB) :
  pool_handle p (q_proc s) d -> db_closed d = false ->
  (forall rs,
     qr_result (st_query st (tick (q_proc s)) (db_dsn d)
       "SELECT id, username, email, created_at, updated_at FROM users ORDER BY id"
       []) = inr rs ->
     exists s',
       GetAllUsers st p s =
       QOk (listing (scan_user st) "failed to scan user: %w" rs) s' /\
       tick (q_proc s') = S (tick (q_proc s)) /\ q_frame p s s') /\
  (forall userID rs,
     qr_result (st_query st (tick (q_proc s)) (db_dsn d) orders_query
       [QInt userID]) = inr rs ->
     exists s',
       GetOrdersByUserID st p userID s =
       QOk (listing (scan_order st) "failed to scan order: %w" rs) s' /\
       tick (q_proc s') = S (tick (q_proc s)) /\ q_frame p s s').
Proof.
  intros (i & Hp & Hd) Ho. destruct p as [h]. cbn [DB] in Hp. subst h.
  split; [intros rs Hrs | intros userID rs Hrs].
  - unfold GetAllUsers. unfold qbind at 1.
    rewrite (db_Query_eval st i d _ _ s Hd), Ho. cbn zeta. rewrite Hrs.
    cbn [DB].
    set (s1 := mkQProc _ (q_rows s ++ [cursor_of rs])).
    assert (Hc : q_rows s1 !! length (q_rows s) = Some (cursor_of rs))
      by (subst s1; cbn [q_rows]; apply lookup_snoc).
    destruct (listing_eval (scan_user st) "failed to scan user: %w" _ s1 _ Hc eq_refl)
      as (c' & Hrun & Hcc).
    eexists. split; [exact Hrun|]. subst s1. cbn [q_proc q_rows].
    split; [reflexivity|]. rewrite insert_snoc.
    apply (q_frame_asked (mkDBPool (Some i))); [reflexivity | exact Hd |].
    constructor; [exact Hcc | constructor].
  - unfold GetOrdersByUserID. unfold qbind at 1.
    rewrite (db_Query_eval st i d _ _ s Hd), Ho. cbn zeta. rewrite Hrs.
    cbn [DB].
    set (s1 := mkQProc _ (q_rows s ++ [cursor_of rs])).
    assert (Hc : q_rows s1 !! length (q_rows s) = Some (cursor_of rs))
      by (subst s1; cbn [q_rows]; apply lookup_snoc).
    destruct (listing_eval (scan_order st) "failed to scan order: %w" _ s1 _ Hc eq_refl)
      as (c' & Hrun & Hcc).
    eexists. split; [exact Hrun|]. subst s1. cbn [q_proc q_rows].
    split; [reflexivity|]. rewrite insert_snoc.
    apply (q_frame_asked (mkDBPool (Some i))); [reflexivity | exact Hd |].
    constructor; [exact Hcc | constructor].
Qed.

Lemma listings_return_the_rows_in_order_witness :
  (exists s', GetAllUsers demoStore pool0 q0 = QOk (Some [ann; bob], None) s') /\
  (exists s',
     GetAllUsers nullStore pool0 q0 =
     QOk (None, Some (Wrapf "failed to scan user: %w"
                        (Notef "sql: Scan error on column index %d" [2]))) s').
Proof.
  assert (Hh : pool_handle pool0 (q_proc q0) handle0) by (exists 0%nat; split; reflexivity).
  split.
  - destruct (listings_return_the_rows_in_order demoStore pool0 q0 handle0 Hh eq_refl)
      as [HU _].
    destruct (HU _ eq_refl) as (s' & Hrun & _). exists s'. exact Hrun.
  - destruct (listings_return_the_rows_in_order nullStore pool0 q0 handle0 Hh eq_refl)
      as [HU _].
    destruct (HU _ eq_refl) as (s' & Hrun & _). exists s'. exact Hrun.
Defined.

Ltac q_step :=
  repeat (rewrite ?insert_snoc, ?lookup_snoc;
          cbn [q_rows q_proc cur_closed cur_rest cur_row cur_end cur_close
               cur_lasterr cursor_of]).

Lemma GetUserByID_eval (st : Store) (i : nat) (d : sqlDB) (id : Z) (s : QProc) :
  handles (q_proc s) !! i = Some d -> db_closed d = false ->
  let r := st_query st (tick (q_proc s)) (db_dsn d)
             "SELECT id, username, email, created_at, updated_at FROM users WHERE id = ?"
             [QInt id] in
  match qr_result r with
  | inl e =>
      GetUserByID st (mkDBPool (Some i)) id s =
      QOk (if is_ErrNoRows e
           then (None, Some (Notef "user with id %d not found" [id]))
           else (None, Some (Wrapf "failed to scan user: %w" e)))
          (mkQProc (asked i d (qr_counters r) (q_proc s)) (q_rows s))
  | inr rs =>
      exists c',
        GetUserByID st (mkDBPool (Some i)) id s =
        QOk (lookup_of (scan_user st) id rs)
            (mkQProc (asked i d (qr_counters r) (q_proc s)) (q_rows s ++ [c'])) /\
        cur_closed c' = true
  end.
Proof.
  intros Hd Ho r.
  pose proof (db_Query_eval st i d
    "SELECT id, username, email, created_at, updated_at FROM users WHERE id = ?"
    [QInt id] s Hd) as Hq.
  rewrite Ho in Hq. cbn zeta in Hq. fold r in Hq.
  destruct (qr_result r) as [e|rs].
  - unfold GetUserByID, db_QueryRow. unfold qbind at 1. cbn [DB]. rewrite Hq.
    unfold qbind, row_Scan, qret. destruct (is_ErrNoRows e); reflexivity.
  - unfold GetUserByID, db_QueryRow. cbn [DB].
    assert (Hgoal : forall k : User + qerror -> Q (option User * option qerror),
              qbind (db_Query st (Some i)
                "SELECT id, username, email, created_at, updated_at FROM users WHERE id = ?"
                [QInt id])
                (fun row => qbind (row_Scan (scan_user st) row) k) s =
              qbind (row_Scan (scan_user st) (Some (length (q_rows s)), None)) k
                (mkQProc (asked i d (qr_counters r) (q_proc s))
                         (q_rows s ++ [cursor_of rs]))).
    { intros k. unfold qbind at 1. rewrite Hq. reflexivity. }
    rewrite Hgoal. clear Hgoal.
    unfold lookup_of, row_Scan, defer.
    unfold qbind, rows_Next, rows_Scan, rows_Err, rows_Close, qbind, get_rows,
      set_rows, qret.
    q_step.
    destruct (rs_rows rs) as [|row rest]; q_step.
    + destruct (rs_end rs) as [e|]; q_step;
        [destruct (is_ErrNoRows e)|]; eexists; split; reflexivity.
    + destruct (scan_user st row) as [u|e]; q_step.
      * destruct (rs_close rs) as [e|]; q_step;
          [destruct (is_ErrNoRows e)|]; eexists; split; reflexivity.
      * destruct (is_ErrNoRows e); eexists; split; reflexivity.
Qed.

(** X11.  [GetUserByID] on a pool whose handle is open: the call returns
    a user or an error, never both and never neither; an error is the
    note "user with id <id> not found", which wraps nothing (so
    [errors.Is(err, sql.ErrNoRows)] is false for it), or "failed to scan
    user" wrapped around an error other than [sql.ErrNoRows]; when the
    store answers with no row it is the note; when the first row scans and
    the result set closes without error the user of that row is returned,
    whatever rows follow.  The call is one interaction, and the result set
    is closed when it returns. *)
Theorem GetUserByID_finds_or_says_not_found (st : Store) (p : DBPool) (id : Z)
    (s : QProc) (d : sqlDB) :
  pool_handle p (q_proc s) d -> db_closed d = false ->
  exists u err s',
    GetUserByID st p id s = QOk (u, err) s' /\
    tick (q_proc s') = S (tick (q_proc s)) /\ q_frame p s s' /\
    (u = None <-> err <> None) /\
    (forall e, err = Some e ->
       (e = Notef "user with id %d not found" [id] /\
        qerrors_Is e ErrNoRows = false) \/
       (exists c, e = Wrapf "failed to scan user: %w" c /\ c <> ErrNoRows)) /\
    (forall rs,
       qr_result (st_query st (tick (q_proc s)) (db_dsn d)
         "SELECT id, username, email, created_at, updated_at FROM users WHERE id = ?"
         [QInt id]) = inr rs ->
       (rs_rows rs = [] -> rs_end rs = None ->
        err = Some (Notef "user with id %d not found" [id])) /\
       (forall row rest u0,
          rs_rows rs = row :: rest -> scan_user st row = inl u0 ->
          rs_close rs = None -> u = Some u0 /\ err = None)).
Proof.
  intros (i & Hp & Hd) Ho. destruct p as [h]. cbn [DB] in Hp. subst h.
  pose proof (GetUserByID_eval st i d id s Hd Ho) as Hev. cbn zeta in Hev.
  assert (Hcls : forall e : qerror,
            let r := if is_ErrNoRows e
                     then (@None User, Some (Notef "user with id %d not found" [id]))
                     else (None, Some (Wrapf "failed to scan user: %w" e)) in
            (fst r = None <-> snd r <> None) /\
            (forall e', snd r = Some e' ->
               (e' = Notef "user with id %d not found" [id] /\
                qerrors_Is e' ErrNoRows = false) \/
               (exists c, e' = Wrapf "failed to scan user: %w" c /\ c <> ErrNoRows))).
  { intros e. destruct e; cbn; (split; [split; [discriminate|reflexivity]|]);
      intros e' [= <-]; try (left; split; reflexivity);
      right; eexists; (split; [reflexivity|discriminate]). }
  assert (Hnf : (@None User = None <-> Some (Notef "user with id %d not found" [id]) <> None) /\
            (forall e', Some (Notef "user with id %d not found" [id]) = Some e' ->
               (e' = Notef "user with id %d not found" [id] /\
                qerrors_Is e' ErrNoRows = false) \/
               (exists c, e' = Wrapf "failed to scan user: %w" c /\ c <> ErrNoRows))).
  { split; [split; [discriminate|reflexivity]|].
    intros e' [= <-]. left. split; reflexivity. }
  destruct (qr_result _) as [e|rs] eqn:Hres.
  - destruct (Hcls e) as (Hiff & Hkind).
    eexists _, _, _. split; [rewrite Hev; apply f_equal2; [apply surjective_pairing|reflexivity]|].
    split; [reflexivity|]. split.
    { rewrite <- (app_nil_r (q_rows s)).
      apply (q_frame_asked (mkDBPool (Some i))); [reflexivity|exact Hd|constructor]. }
    split; [exact Hiff|]. split; [exact Hkind|].
    intros rs [=].
  - destruct Hev as (c' & Hev & Hcc).
    eexists _, _, _. split; [rewrite Hev; apply f_equal2; [apply surjective_pairing|reflexivity]|].
    split; [reflexivity|]. split.
    { apply (q_frame_asked (mkDBPool (Some i))); [reflexivity|exact Hd|].
      constructor; [exact Hcc|constructor]. }
    unfold lookup_of.
    destruct (rs_rows rs) as [|row rest] eqn:Hrows.
    + destruct (rs_end rs) as [e|] eqn:Hend.
      * destruct (Hcls e) as (Hiff & Hkind).
        split; [exact Hiff|]. split; [exact Hkind|].
        intros rs' [= <-].
        split; [intros _ Hn; congruence | intros ? ? ? Hr; congruence].
      * destruct Hnf as (Hiff & Hkind). cbn [fst snd].
        split; [exact Hiff|]. split; [exact Hkind|].
        intros rs' [= <-]. split; [reflexivity | intros ? ? ? Hr; congruence].
    + destruct (scan_user st row) as [u|e] eqn:Hscan.
      * destruct (rs_close rs) as [e|] eqn:Hclose.
        -- destruct (Hcls e) as (Hiff & Hkind).
           split; [exact Hiff|]. split; [exact Hkind|].
           intros rs' [= <-].
           split; [intros Hr; congruence | intros ? ? ? _ _ Hn; congruence].
        -- cbn [fst snd]. split; [split; [discriminate|intros H; elim H; reflexivity]|].
           split; [intros e' [=]|].
           intros rs' [= <-]. split; [intros Hr; congruence|].
           intros row' rest' u0 Hr Hs _. rewrite Hrows in Hr.
           injection Hr as <- <-. rewrite Hscan in Hs.
           injection Hs as <-. split; reflexivity.
      * destruct (Hcls e) as (Hiff & Hkind).
        split; [exact Hiff|]. split; [exact Hkind|].
        intros rs' [= <-]. split; [intros Hr; congruence|].
        intros row' rest' u0 Hr Hs. rewrite Hrows in Hr.
        injection Hr as <- <-. rewrite Hscan in Hs. discriminate.
Qed.

Lemma GetUserByID_finds_or_says_not_found_witness :
  (exists s', GetUserByID demoStore pool0 1 q0 = QOk (Some ann, None) s') /\
  (exists s',
     GetUserByID demoStore pool0 7 q0 =
     QOk (None, Some (Notef "user with id %d not found" [7])) s').
Proof.
  assert (Hh : pool_handle pool0 (q_proc q0) handle0) by (exists 0%nat; split; reflexivity).
  split.
  - destruct (GetUserByID_finds_or_says_not_found demoStore pool0 1 q0 handle0 Hh eq_refl)
      as (u & err & s' & Hrun & _ & _ & _ & _ & Hrs).
    destruct (Hrs _ eq_refl) as (_ & Hfound).
    destruct (Hfound _ _ ann eq_refl eq_refl eq_refl) as (-> & ->).
    exists s'. exact Hrun.
  - destruct (GetUserByID_finds_or_says_not_found demoStore pool0 7 q0 handle0 Hh eq_refl)
      as (u & err & s' & Hrun & _ & _ & Hiff & _ & Hrs).
    destruct (Hrs _ eq_refl) as (Hnone & _).
    pose proof (Hnone eq_refl eq_refl) as He. subst err.
    assert (Hu : u = None) by (apply Hiff; discriminate). subst u.
    exists s'. exact Hrun.
Defined.

(** A listing function, whatever the handle and the store do.  [qfail]
    and [what] are the formats of its query error and its scan error. *)
Lemma listing_cases {A} (st : Store) (scan : Row -> A + qerror)
    (qfail what q : string) (args : list QArg) (i : nat) (d : sqlDB) (s : QProc) :
  handles (q_proc s) !! i = Some d ->
  exists s',
    qbind (db_Query st (Some i) q args)
      (fun r =>
         let '(rows, err) := r in
         match err with
         | Some e => qret (None, Some (Wrapf qfail e))
         | None =>
             defer (rows_Close rows)
               (qbind (rows_bound rows) (fun bound =>
                  qbind (for_Next bound rows
                           (fun acc =>
                              qbind (rows_Scan scan rows)
                                (fun v =>
                                   match v with
                                   | inr e => qret (inr (Wrapf what e))
                                   | inl x => qret (inl (append acc x))
                                   end))
                           None)
                    (fun r =>
                       match r with
                       | inr e => qret (None, Some e)
                       | inl l =>
                           qbind (rows_Err rows) (fun e =>
                             match e with
                             | Some e =>
                                 qret (None, Some (Wrapf "row iteration error: %w" e))
                             | None => qret (l, None)
                             end)
                       end)))
         end) s =
    QOk (if db_closed d then (None, Some (Wrapf qfail (Lib errDBClosed)))
         else
           match qr_result (st_query st (tick (q_proc s)) (db_dsn d) q args) with
           | inl e => (None, Some (Wrapf qfail e))
           | inr rs => listing scan what rs
           end) s' /\
    q_frame (mkDBPool (Some i)) s s' /\
    (db_closed d = true -> s' = s) /\
    (db_closed d = false -> tick (q_proc s') = S (tick (q_proc s))).
Proof.
  intros Hd. unfold qbind at 1. rewrite (db_Query_eval st i d q args s Hd).
  destruct (db_closed d) eqn:Hcl.
  - exists s. split; [reflexivity|]. split; [apply q_frame_refl|].
    split; [reflexivity | discriminate].
  - cbn zeta. destruct (qr_result _) as [e|rs].
    + eexists. split; [reflexivity|]. split.
      * rewrite <- (app_nil_r (q_rows s)).
        apply (q_frame_asked (mkDBPool (Some i))); [reflexivity|exact Hd|constructor].
      * split; [discriminate | reflexivity].
    + set (s1 := mkQProc _ (q_rows s ++ [cursor_of rs])).
      assert (Hc : q_rows s1 !! length (q_rows s) = Some (cursor_of rs))
        by (subst s1; cbn [q_rows]; apply lookup_snoc).
      destruct (listing_eval scan what _ s1 _ Hc eq_refl) as (c' & Hrun & Hcc).
      eexists. split; [exact Hrun|]. subst s1. cbn [q_proc q_rows].
      rewrite insert_snoc. split.
      * apply (q_frame_asked (mkDBPool (Some i))); [reflexivity | exact Hd |].
        constructor; [exact Hcc | constructor].
      * split; [discriminate | reflexivity].
Qed.

Lemma GetUserByID_cases (st : Store) (i : nat) (d : sqlDB) (id : Z) (s : QProc) :
  handles (q_proc s) !! i = Some d ->
  exists u err s',
    GetUserByID st (mkDBPool (Some i)) id s = QOk (u, err) s' /\
    q_frame (mkDBPool (Some i)) s s' /\
    (u <> None -> err = None) /\
    (db_closed d = true ->
     s' = s /\ err = Some (Wrapf "failed to scan user: %w" (Lib errDBClosed))) /\
    (forall e,
       db_closed d = false ->
       qr_result (st_query st (tick (q_proc s)) (db_dsn d)
         "SELECT id, username, email, created_at, updated_at FROM users WHERE id = ?"
         [QInt id]) = inl e ->
       e <> ErrNoRows ->
       err = Some (Wrapf "failed to scan user: %w" e)).
Proof.
  intros Hd. destruct (db_closed d) eqn:Hcl.
  - exists None, (Some (Wrapf "failed to scan user: %w" (Lib errDBClosed))), s.
    split.
    + unfold GetUserByID, db_QueryRow. unfold qbind at 1. cbn [DB].
      rewrite (db_Query_eval st i d _ _ s Hd), Hcl. reflexivity.
    + split; [apply q_frame_refl|]. split; [intros H; elim H; reflexivity|].
      split; [intros _; split; reflexivity | discriminate].
  - pose proof (GetUserByID_eval st i d id s Hd Hcl) as Hev. cbn zeta in Hev.
    destruct (qr_result _) as [e|rs].
    + eexists _, _, _.
      split; [rewrite Hev; apply f_equal2; [apply surjective_pairing|reflexivity]|].
      split.
      { rewrite <- (app_nil_r (q_rows s)).
        apply (q_frame_asked (mkDBPool (Some i))); [reflexivity|exact Hd|constructor]. }
      split; [destruct (is_ErrNoRows e); intros H; elim H; reflexivity|].
      split; [discriminate|].
      intros e' _ [= <-] Hne. destruct e; try reflexivity. elim Hne. reflexivity.
    + destruct Hev as (c' & Hev & Hcc).
      eexists _, _, _.
      split; [rewrite Hev; apply f_equal2; [apply surjective_pairing|reflexivity]|].
      split.
      { apply (q_frame_asked (mkDBPool (Some i))); [reflexivity|exact Hd|].
        constructor; [exact Hcc|constructor]. }
      split.
      { unfold lookup_of.
        repeat match goal with
               | |- context [match ?x with _ => _ end] => destruct x
               end; cbn; intros H; try reflexivity; elim H; reflexivity. }
      split; [discriminate|]. intros e' _ [=].
Qed.

Lemma CreateUser_cases (st : Store) (i : nat) (d : sqlDB) (username email : string)
    (s : QProc) :
  handles (q_proc s) !! i = Some d ->
  exists s',
    CreateUser st (mkDBPool (Some i)) username email s =
    QOk (if db_closed d then Some (Wrapf "failed to create user: %w" (Lib errDBClosed))
         else
           match ex_err (st_exec st (tick (q_proc s)) (db_dsn d)
                           "INSERT INTO users (username, email) VALUES (?, ?)"
                           [QStr username; QStr email]) with
           | Some e => Some (Wrapf "failed to create user: %w" e)
           | None => None
           end) s' /\
    q_frame (mkDBPool (Some i)) s s' /\
    (db_closed d = true -> s' = s).
Proof.
  intros Hd. unfold CreateUser. unfold qbind at 1. cbn [DB].
  rewrite (db_Exec_eval st i d _ _ s Hd).
  destruct (db_closed d) eqn:Hcl.
  - exists s. split; [reflexivity|]. split; [apply q_frame_refl | reflexivity].
  - cbn zeta. eexists. split; [destruct (ex_err _); reflexivity|].
    split; [|discriminate].
    rewrite <- (app_nil_r (q_rows s)).
    apply (q_frame_asked (mkDBPool (Some i))); [reflexivity|exact Hd|constructor].
Qed.

Lemma GetAllUsers_cases (st : Store) (i : nat) (d : sqlDB) (s : QProc) :
  handles (q_proc s) !! i = Some d ->
  exists s',
    GetAllUsers st (mkDBPool (Some i)) s =
    QOk (if db_closed d
         then (None, Some (Wrapf "failed to query users: %w" (Lib errDBClosed)))
         else
           match qr_result (st_query st (tick (q_proc s)) (db_dsn d)
                   "SELECT id, username, email, created_at, updated_at FROM users ORDER BY id"
                   []) with
           | inl e => (None, Some (Wrapf "failed to query users: %w" e))
           | inr rs => listing (scan_user st) "failed to scan user: %w" rs
           end) s' /\
    q_frame (mkDBPool (Some i)) s s' /\
    (db_closed d = true -> s' = s) /\
    (db_closed d = false -> tick (q_proc s') = S (tick (q_proc s))).
Proof.
  intros Hd.
  exact (listing_cases st (scan_user st) "failed to query users: %w"
           "failed to scan user: %w" _ [] i d s Hd).
Qed.

Lemma GetOrdersByUserID_cases (st : Store) (i : nat) (d : sqlDB) (userID : Z)
    (s : QProc) :
  handles (q_proc s) !! i = Some d ->
  exists s',
    GetOrdersByUserID st (mkDBPool (Some i)) userID s =
    QOk (if db_closed d
         then (None, Some (Wrapf "failed to query orders: %w" (Lib errDBClosed)))
         else
           match qr_result (st_query st (tick (q_proc s)) (db_dsn d) orders_query
                              [QInt userID]) with
           | inl e => (None, Some (Wrapf "failed to query orders: %w" e))
           | inr rs => listing (scan_order st) "failed to scan order: %w" rs
           end) s' /\
    q_frame (mkDBPool (Some i)) s s' /\
    (db_closed d = true -> s' = s) /\
    (db_closed d = false -> tick (q_proc s') = S (tick (q_proc s))).
Proof.
  intros Hd.
  exact (listing_cases st (scan_order st) "failed to query orders: %w"
           "failed to scan order: %w" _ [QInt userID] i d s Hd).
Qed.

(** X12.  After [Close], every function of [queries.go] fails on the
    pool: each returns its error wrapped around [sql: database is closed]
    ([GetUserByID] as a scan failure), with a [nil] result, and leaves
    the process as it is: the store is not asked. *)
Theorem closed_pool_fails_every_query (drv : Driver) (st : Store) (p : DBPool)
    (s : QProc) (d : sqlDB) (id userID : Z) (username email : string) :
  pool_handle p (q_proc s) d ->
  exists err s1,
    lift (Close drv p) s = QOk err s1 /\
    GetAllUsers st p s1 =
      QOk (None, Some (Wrapf "failed to query users: %w" (Lib errDBClosed))) s1 /\
    GetUserByID st p id s1 =
      QOk (None, Some (Wrapf "failed to scan user: %w" (Lib errDBClosed))) s1 /\
    GetOrdersByUserID st p userID s1 =
      QOk (None, Some (Wrapf "failed to query orders: %w" (Lib errDBClosed))) s1 /\
    CreateUser st p username email s1 =
      QOk (Some (Wrapf "failed to create user: %w" (Lib errDBClosed))) s1.
Proof.
  intros Hh.
  destruct (Close_closes drv p (q_proc s) d Hh) as (err & P1 & Hrun & Hcl).
  exists err, (mkQProc P1 (q_rows s)).
  split; [unfold lift; rewrite Hrun; reflexivity|].
  destruct Hcl as (d1 & (i & Hp & Hd1) & Hc1).
  destruct p as [h]. cbn [DB] in Hp. subst h.
  set (s1 := mkQProc P1 (q_rows s)).
  change (handles (q_proc s1) !! i = Some d1) in Hd1.
  split; [|split; [|split]].
  - destruct (GetAllUsers_cases st i d1 s1 Hd1) as (s' & Hr & _ & Hsame & _).
    rewrite Hr, Hc1, (Hsame Hc1). reflexivity.
  - destruct (GetUserByID_cases st i d1 id s1 Hd1)
      as (u & e & s' & Hr & _ & Hu & Hsame & _).
    destruct (Hsame Hc1) as (-> & ->). rewrite Hr.
    destruct u as [u|]; [|reflexivity].
    assert (Hn : Some u <> None) by discriminate. specialize (Hu Hn). discriminate.
  - destruct (GetOrdersByUserID_cases st i d1 userID s1 Hd1)
      as (s' & Hr & _ & Hsame & _).
    rewrite Hr, Hc1, (Hsame Hc1). reflexivity.
  - destruct (CreateUser_cases st i d1 username email s1 Hd1)
      as (s' & Hr & _ & Hsame).
    rewrite Hr, Hc1, (Hsame Hc1). reflexivity.
Qed.

Lemma closed_pool_fails_every_query_witness :
  exists err s1,
    lift (Close sleepyStore pool0) q0 = QOk err s1 /\
    GetAllUsers demoStore pool0 s1 =
      QOk (None, Some (Wrapf "failed to query users: %w" (Lib errDBClosed))) s1 /\
    CreateUser demoStore pool0 "ann" "ann@example.com" s1 =
      QOk (Some (Wrapf "failed to create user: %w" (Lib errDBClosed))) s1.
Proof.
  assert (Hh : pool_handle pool0 (q_proc q0) handle0) by (exists 0%nat; split; reflexivity).
  destruct (closed_pool_fails_every_query sleepyStore demoStore pool0 q0 handle0 1 1
              "ann" "ann@example.com" Hh) as (err & s1 & Hc & Ha & _ & _ & Hu).
  exists err, s1. split; [exact Hc|]. split; [exact Ha | exact Hu].
Defined.

(** The result of one of the four functions: whether it returned a value
    that is not [nil], and its error. *)
Lemma run_query_cases (st : Store) (i : nat) (d : sqlDB) (o : QueryOp) (s : QProc) :
  handles (q_proc s) !! i = Some d ->
  exists some err s',
    run_query st (mkDBPool (Some i)) o s = QOk (some, err) s' /\
    q_frame (mkDBPool (Some i)) s s' /\
    (some = true -> err = None) /\
    (db_closed d = true -> s' = s /\ exists e, err = Some e /\
                                     qerrors_Is e (Lib errDBClosed) = true).
Proof.
  intros Hd. destruct o as [|id|userID|username email]; unfold run_query, qbind.
  - destruct (GetAllUsers_cases st i d s Hd) as (s' & Hr & Hf & Hsame & _).
    rewrite Hr. eexists _, _, s'. split; [reflexivity|]. split; [exact Hf|].
    cbn [fst snd]. split.
    + destruct (db_closed d); [discriminate|].
      destruct (qr_result _) as [e|rs]; [discriminate|]. unfold listing.
      destruct (scan_all _ _); [|discriminate].
      destruct (rs_end rs); [discriminate|reflexivity].
    + intros Hc. split; [exact (Hsame Hc)|]. rewrite Hc. eexists. split; reflexivity.
  - destruct (GetUserByID_cases st i d id s Hd)
      as (u & err & s' & Hr & Hf & Hu & Hsame & _).
    rewrite Hr. eexists _, _, s'. split; [reflexivity|]. split; [exact Hf|].
    cbn [fst snd]. split.
    + destruct u; [intros _; apply Hu; discriminate | discriminate].
    + intros Hc. destruct (Hsame Hc) as (-> & ->).
      split; [reflexivity|]. eexists. split; reflexivity.
  - destruct (GetOrdersByUserID_cases st i d userID s Hd) as (s' & Hr & Hf & Hsame & _).
    rewrite Hr. eexists _, _, s'. split; [reflexivity|]. split; [exact Hf|].
    cbn [fst snd]. split.
    + destruct (db_closed d); [discriminate|].
      destruct (qr_result _) as [e|rs]; [discriminate|]. unfold listing.
      destruct (scan_all _ _); [|discriminate].
      destruct (rs_end rs); [discriminate|reflexivity].
    + intros Hc. split; [exact (Hsame Hc)|]. rewrite Hc. eexists. split; reflexivity.
  - destruct (CreateUser_cases st i d username email s Hd) as (s' & Hr & Hf & Hsame).
    rewrite Hr. eexists _, _, s'. split; [reflexivity|]. split; [exact Hf|].
    split; [discriminate|].
    intros Hc. split; [exact (Hsame Hc)|]. rewrite Hc. eexists. split; reflexivity.
Qed.

(** X13.  Every call of a function of [queries.go] ends, and leaves no
    result set open.  Whatever the state, the store and the arguments: the
    call returns, unless the pool has no handle, in which case it panics
    on the nil pointer having changed nothing.  When it returns, it has
    made at most one interaction with the store, has logged nothing and
    not touched the wait group, the handles have their configuration and
    are open or closed as before, every result set it opened is closed,
    and a result that is not [nil] comes with a [nil] error. *)
Theorem queries_end_and_leave_no_result_set_open (st : Store) (p : DBPool)
    (o : QueryOp) (s : QProc) :
  match run_query st p o s with
  | QOk (some, err) s' =>
      q_frame p s s' /\ (some = true -> err = None) /\
      exists d, pool_handle p (q_proc s) d
  | QPanic msg s' =>
      msg = nilDeref /\ s' = s /\ ~ exists d, pool_handle p (q_proc s) d
  | QBound _ => False
  end.
Proof.
  destruct p as [h].
  assert (Hcase : (exists i d, h = Some i /\ handles (q_proc s) !! i = Some d) \/
                  (forall i, h = Some i -> handles (q_proc s) !! i = None)).
  { destruct h as [i|]; [|right; discriminate].
    destruct (handles (q_proc s) !! i) as [d|] eqn:Hd.
    - left. exists i, d. split; [reflexivity | exact Hd].
    - right. intros j [= <-]. exact Hd. }
  destruct Hcase as [(i & d & -> & Hd)|Hnone].
  - destruct (run_query_cases st i d o s Hd) as (some & err & s' & Hr & Hf & Hs & _).
    rewrite Hr. split; [exact Hf|]. split; [exact Hs|].
    exists d, i. split; [reflexivity | exact Hd].
  - assert (Hno : ~ exists d, pool_handle (mkDBPool h) (q_proc s) d).
    { intros (d & i & Hp & Hd). cbn [DB] in Hp. rewrite (Hnone i Hp) in Hd.
      discriminate. }
    destruct o as [|id|userID|username email];
      unfold run_query, GetAllUsers, GetUserByID, GetOrdersByUserID, CreateUser,
        db_QueryRow; cbn [DB]; unfold qbind;
      rewrite ?(db_Query_panics st h _ _ s Hnone), ?(db_Exec_panics st h _ _ s Hnone);
      (split; [reflexivity|]); (split; [reflexivity|exact Hno]).
Qed.

Lemma error_eqb_refl (e : error) : error_eqb e e = true.
Proof.
  induction e as [| | |m|f c IH]; cbn; try reflexivity.
  - apply String.eqb_refl.
  - rewrite String.eqb_refl, IH. reflexivity.
Qed.

Lemma qerror_eqb_refl (e : qerror) : qerror_eqb e e = true.
Proof.
  induction e as [|e|f c IH|f l]; cbn.
  - reflexivity.
  - apply error_eqb_refl.
  - rewrite String.eqb_refl, IH. reflexivity.
  - rewrite String.eqb_refl, bool_decide_eq_true_2; reflexivity.
Qed.

Lemma qerrors_Is_wrapped (f : string) (e : qerror) :
  qerrors_Is (Wrapf f e) e = true.
Proof.
  cbn [qerrors_Is]. apply orb_true_iff. right.
  destruct e; cbn [qerrors_Is]; rewrite qerror_eqb_refl; reflexivity.
Qed.

(** X14.  The error of the store is not swallowed.  On a pool whose
    handle is open, when the store answers the statement of a function
    with an error [e], the function returns no value and an error for
    which [errors.Is(err, e)] holds: [e] wrapped in "failed to query
    users", "failed to query orders" or "failed to create user", and for
    [GetUserByID] in "failed to scan user" unless [e] is [sql.ErrNoRows].
    [CreateUser] hands [username] and [email] to the store in this order
    and returns [nil] when the store reports no error. *)
Theorem store_errors_stay_detectable (st : Store) (p : DBPool) (s : QProc)
    (d : sqlDB) (e : qerror) :
  pool_handle p (q_proc s) d -> db_closed d = false ->
  let k := tick (q_proc s) in
  (qr_result (st_query st k (db_dsn d)
     "SELECT id, username, email, created_at, updated_at FROM users ORDER BY id" [])
   = inl e ->
   exists err s', GetAllUsers st p s = QOk (None, Some err) s' /\
                  qerrors_Is err e = true) /\
  (forall id,
     qr_result (st_query st k (db_dsn d)
       "SELECT id, username, email, created_at, updated_at FROM users WHERE id = ?"
       [QInt id]) = inl e ->
     e <> ErrNoRows ->
     exists err s', GetUserByID st p id s = QOk (None, Some err) s' /\
                    qerrors_Is err e = true) /\
  (forall userID,
     qr_result (st_query st k (db_dsn d) orders_query [QInt userID]) = inl e ->
     exists err s', GetOrdersByUserID st p userID s = QOk (None, Some err) s' /\
                    qerrors_Is err e = true) /\
  (forall username email,
     let r := st_exec st k (db_dsn d)
                "INSERT INTO users (username, email) VALUES (?, ?)"
                [QStr username; QStr email] in
     (ex_err r = Some e ->
      exists err s', CreateUser st p username email s = QOk (Some err) s' /\
                     qerrors_Is err e = true) /\
     (ex_err r = None ->
      exists s', CreateUser st p username email s = QOk None s')).
Proof.
  intros (i & Hp & Hd) Ho k. destruct p as [h]. cbn [DB] in Hp. subst h.
  split; [|split; [|split]].
  - intros He. destruct (GetAllUsers_cases st i d s Hd) as (s' & Hr & _).
    rewrite Ho in Hr. fold k in Hr. rewrite He in Hr.
    eexists _, s'. split; [exact Hr | apply qerrors_Is_wrapped].
  - intros id He Hne.
    destruct (GetUserByID_cases st i d id s Hd)
      as (u & err & s' & Hr & _ & Hu & _ & Herr).
    specialize (Herr e Ho He Hne). subst err.
    destruct u as [u|].
    + assert (Hn : Some u <> None) by discriminate. specialize (Hu Hn). discriminate.
    + eexists _, s'. split; [exact Hr | apply qerrors_Is_wrapped].
  - intros userID He.
    destruct (GetOrdersByUserID_cases st i d userID s Hd) as (s' & Hr & _).
    rewrite Ho in Hr. fold k in Hr. rewrite He in Hr.
    eexists _, s'. split; [exact Hr | apply qerrors_Is_wrapped].
  - intros username email r.
    destruct (CreateUser_cases st i d username email s Hd) as (s' & Hr & _).
    rewrite Ho in Hr. fold k r in Hr. split; intros He; rewrite He in Hr.
    + eexists _, s'. split; [exact Hr | apply qerrors_Is_wrapped].
    + exists s'. exact Hr.
Qed.

Lemma store_errors_stay_detectable_witness :
  exists err s',
    CreateUser nullStore pool0 "ann" "ann@example.com" q0 = QOk (Some err) s' /\
    qerrors_Is err (Lib (DriverError "Error 1062: Duplicate entry")) = true.
Proof.
  assert (Hh : pool_handle pool0 (q_proc q0) handle0) by (exists 0%nat; split; reflexivity).
  destruct (store_errors_stay_detectable nullStore pool0 q0 handle0
              (Lib (DriverError "Error 1062: Duplicate entry")) Hh eq_refl)
    as (_ & _ & _ & Hc).
  destruct (Hc "ann" "ann@example.com") as (Herr & _).
  exact (Herr eq_refl).
Defined.

(* ===================================================================== *)
(** * practice/mockgen: the user service *)
(* ===================================================================== *)

(** X15.  [Upsert] checks the id, looks the user up, then writes once.
    For every repository and every user: with an id that is not positive
    the service returns [invalidUserIDError] without a call to the
    repository (even when the service or its repository is [nil]); with a
    positive id it calls [GetUserByID(user.ID)] once and then, when the
    lookup reports an error, returns that error without writing; when the
    lookup finds nobody, calls [Insert(user)] once; when it finds a user,
    calls [Update(user.ID, user)] once; the result is that of the write.
    It makes no other call, and on a [nil] repository it panics.
    Recording the calls does not change what the service does. *)
Theorem Upsert_looks_up_then_writes_once {R} (impl : IUserRepo R)
    (user : mockgen_User) (r : R) :
  let id := mockgen_ID user in
  let x := Upsert (service_of (recording impl)) user (r, []) in
  (exists a r', Upsert (service_of impl) user r = SOk a r' /\
                exists tr, x = SOk a (r', tr)) /\
  (id <= 0 -> calls x = [] /\ answer x = Some (Some invalidUserIDError)) /\
  (0 < id ->
   exists found err r1,
     repo_GetUserByID impl id r = ((found, err), r1) /\
     match err, found with
     | Some e, _ =>
         calls x = [CallGetUserByID id] /\ answer x = Some (Some e)
     | None, None =>
         calls x = [CallGetUserByID id; CallInsert user] /\
         answer x = Some (fst (repo_Insert impl user r1))
     | None, Some _ =>
         calls x = [CallGetUserByID id; CallUpdate id user] /\
         answer x = Some (fst (repo_Update impl id user r1))
     end) /\
  (forall u0 : option (UserService R),
     u0 = None \/ u0 = Some (mkUserService None) ->
     Upsert u0 user r =
     if id <=? 0 then SOk (Some invalidUserIDError) r else SPanic nilDeref r).
Proof.
  intros id x. subst x. unfold Upsert. fold id.
  destruct (id <=? 0) eqn:Hid.
  - apply Z.leb_le in Hid.
    split; [eexists _, _; split; [reflexivity|]; eexists; reflexivity|].
    split; [intros _; split; reflexivity|].
    split; [intros Hpos; lia|].
    intros u0 _. reflexivity.
  - apply Z.leb_gt in Hid.
    unfold with_repo, service_of, recording.
    cbn [repo repo_GetUserByID repo_Insert repo_Update fst snd app].
    destruct (repo_GetUserByID impl id r) as [[found err] r1] eqn:Hget.
    split; [|split; [intros Hle; lia|split]].
    + destruct err as [e|].
      * eexists _, _. split; [reflexivity|]. eexists. reflexivity.
      * destruct found as [old|]; cbn [fst snd].
        -- destruct (repo_Update impl id user r1) as [a r2].
           eexists _, _. split; [reflexivity|]. eexists. reflexivity.
        -- destruct (repo_Insert impl user r1) as [a r2].
           eexists _, _. split; [reflexivity|]. eexists. reflexivity.
    + intros _. exists found, err, r1. split; [reflexivity|].
      destruct err as [e|]; [split; reflexivity|].
      destruct found as [old|]; cbn [fst snd].
      * destruct (repo_Update impl id user r1) as [a r2]. split; reflexivity.
      * destruct (repo_Insert impl user r1) as [a r2]. split; reflexivity.
    + intros u0 [->| ->]; reflexivity.
Qed.

(* ===================================================================== *)
(** * The ticker only prints *)
(* ===================================================================== *)

Lemma oblivious_ret {A} (a : A) : oblivious (ret a).
Proof.
  intros s o. exists []. cbn. rewrite !app_nil_r. split; reflexivity.
Qed.

Lemma oblivious_panic {A} (msg : string) : oblivious (@panic A msg).
Proof.
  intros s o. exists []. cbn. rewrite !app_nil_r. split; reflexivity.
Qed.

Lemma oblivious_bind {A B} (m : M A) (k : A -> M B) :
  oblivious m -> (forall a, oblivious (k a)) -> oblivious (bind m k).
Proof.
  intros Hm Hk s o. unfold bind.
  destruct (Hm s o) as (l1 & Ho1 & Hr1). rewrite Hr1.
  destruct (m s) as [a s1|msg s1]; cbn [final] in *.
  - destruct (Hk a s1 (o ++ l1)) as (l2 & Ho2 & Hr2).
    exists (l1 ++ l2). rewrite Ho2, Ho1, <- !app_assoc. split; [reflexivity|].
    rewrite Hr2. rewrite <- !app_assoc. reflexivity.
  - exists l1. split; [exact Ho1 | reflexivity].
Qed.

Lemma oblivious_emit (e : Event) : oblivious (emit e).
Proof. intros s o. exists [e]. split; reflexivity. Qed.

Lemma oblivious_next_tick : oblivious next_tick.
Proof.
  intros s o. exists []. cbn. rewrite !app_nil_r. split; reflexivity.
Qed.

Lemma oblivious_deref (h : ptr) : oblivious (deref h).
Proof.
  intros s o. exists []. unfold deref. cbn [handles with_out].
  destruct h as [i|]; [destruct (handles s !! i)|];
    cbn; rewrite !app_nil_r; split; reflexivity.
Qed.

Lemma oblivious_store (h : ptr) (d : sqlDB) : oblivious (store h d).
Proof.
  intros s o. exists []. unfold store.
  destruct h; cbn; rewrite !app_nil_r; split; reflexivity.
Qed.

Lemma oblivious_WaitGroup_Add (delta : Z) : oblivious (WaitGroup_Add delta).
Proof.
  intros s o. exists []. unfold WaitGroup_Add. cbn [wg with_out].
  destruct (wg_Add delta (wg s)); cbn; rewrite !app_nil_r; split; reflexivity.
Qed.

Lemma oblivious_go_client (c : Client) : oblivious (go_client c).
Proof.
  intros s o. exists []. cbn. rewrite !app_nil_r. split; reflexivity.
Qed.

Lemma oblivious_for_loop (k : nat) (i : Z) (body : Z -> M unit) :
  (forall j, oblivious (body j)) -> oblivious (for_loop k i body).
Proof.
  intros Hb. revert i. induction k as [|k IH]; intros i; cbn [for_loop].
  - apply oblivious_ret.
  - apply oblivious_bind; [apply Hb | intros _; apply IH].
Qed.

Ltac oblivious_step :=
  lazymatch goal with
  | |- oblivious (bind _ _) => apply oblivious_bind; [|intros]
  | |- oblivious (ret _) => apply oblivious_ret
  | |- oblivious (panic _) => apply oblivious_panic
  | |- oblivious next_tick => apply oblivious_next_tick
  | |- oblivious (deref _) => apply oblivious_deref
  | |- oblivious (store _ _) => apply oblivious_store
  | |- oblivious (log_Printf _ _) => apply oblivious_emit
  | |- oblivious (fmt_Println _) => apply oblivious_emit
  | |- oblivious (emit _) => apply oblivious_emit
  | |- oblivious (WaitGroup_Add _) => apply oblivious_WaitGroup_Add
  | |- oblivious (match ?x with _ => _ end) => destruct x
  end.

Ltac oblivious_tac := repeat oblivious_step.

Lemma oblivious_PrintStats (p : DBPool) : oblivious (PrintStats p).
Proof. unfold PrintStats, GetStats, Stats. oblivious_tac. Qed.

Lemma oblivious_Close (drv : Driver) (p : DBPool) : oblivious (Close drv p).
Proof. unfold Close, sql_Close. oblivious_tac. Qed.

Lemma oblivious_SimulateClientAbort (drv : Driver) (p : DBPool) (ctx : Context)
    (qd aa : Duration) (now : Time) :
  oblivious (SimulateClientAbort drv p ctx qd aa now).
Proof. unfold SimulateClientAbort, QueryContext. oblivious_tac. Qed.

Lemma oblivious_SimulateMultipleClientAborts (p : DBPool) (ctx : Context) (n : Z)
    (qd aa : Duration) :
  oblivious (SimulateMultipleClientAborts p ctx n qd aa).
Proof.
  unfold SimulateMultipleClientAborts. oblivious_tac.
  apply oblivious_for_loop. intros j. apply oblivious_go_client.
Qed.

Lemma oblivious_on_pool {A} (s : Sys) (f : DBPool -> M A) :
  (forall p, oblivious (f p)) -> oblivious (on_pool s f).
Proof.
  intros H. unfold on_pool. destruct (pool s); [apply H | apply oblivious_panic].
Qed.

Lemma set_pc_with_out (i : nat) (pc : ClientPC) (o : list Event) (s : Proc) :
  set_pc i pc (with_out o s) = with_out o (set_pc i pc s).
Proof.
  unfold set_pc. cbn [tasks with_out]. destruct (tasks s !! i); reflexivity.
Qed.

Lemma out_set_pc (i : nat) (pc : ClientPC) (s : Proc) :
  out (set_pc i pc s) = out s.
Proof. unfold set_pc. destruct (tasks s !! i); reflexivity. Qed.

(** A statement that does not read the output, run in a process whose
    output has been replaced. *)
Lemma run_in_reout {A} (s : Sys) (o : list Event) (m : M A)
    (k : A -> Proc -> Sys) :
  oblivious m ->
  (forall a p' o', k a (with_out o' p') = reout o' (k a p')) ->
  (forall a p', out (proc (k a p')) = out p') ->
  exists l,
    out (proc (run_in s m k)) = out (proc s) ++ l /\
    run_in (reout o s) m k = reout (o ++ l) (run_in s m k).
Proof.
  intros Hm Hk Hout. unfold run_in. cbn [proc reout].
  destruct (Hm (proc s) o) as (l & Hl & Hr). rewrite Hr.
  exists l. destruct (m (proc s)) as [a p'|msg p']; cbn [final] in Hl.
  - rewrite Hout. split; [exact Hl | apply Hk].
  - split; [exact Hl | reflexivity].
Qed.

Ltac oblivious_case :=
  first
    [ apply oblivious_on_pool; intros;
      first [ apply oblivious_PrintStats | apply oblivious_Close
            | apply oblivious_go_client ]
    | apply oblivious_SimulateClientAbort
    | apply oblivious_WaitGroup_Add
    | apply oblivious_emit
    | oblivious_tac; oblivious_case ].

Ltac reout_run_in o :=
  lazymatch goal with
  | |- exists l, out (proc (run_in ?s ?m ?k)) = _ /\ _ =>
      let l := fresh "l" in
      let Hl := fresh "Hl" in
      let Hr := fresh "Hr" in
      destruct (run_in_reout s o m k) as (l & Hl & Hr);
      [ oblivious_case
      | intros; rewrite ?set_pc_with_out; reflexivity
      | intros; cbn [proc]; rewrite ?out_set_pc; reflexivity
      | exists l; split; [exact Hl | f_equal; exact Hr] ]
  end.

(** No step but the first of [main] reads the output. *)
Lemma step_reout (drv : Driver) (pg : Setup) (a : Action) (s s1 : Sys)
    (o : list Event) :
  mainpc s <> MStart ->
  step drv pg a s = Some s1 ->
  exists l,
    out (proc s1) = out (proc s) ++ l /\
    step drv pg a (reout o s) = Some (reout (o ++ l) s1).
Proof.
  intros Hne Hstep. unfold step in *. cbn [halted reout].
  destruct (halted s); [discriminate|].
  destruct a as [| | | |i now].
  - unfold main_step in *. cbn [mainpc reout].
    destruct (mainpc s); try discriminate; [contradiction| |];
      injection Hstep as <-; reout_run_in o.
  - unfold main_tick in *. cbn [mainpc reout].
    destruct (mainpc s); try discriminate. injection Hstep as <-. reout_run_in o.
  - unfold main_recv in *. cbn [mainpc simpc reout].
    destruct (mainpc s); try discriminate.
    destruct (simpc s); try discriminate. injection Hstep as <-. reout_run_in o.
  - unfold simulateClientAborts_step in *. cbn [simpc reout proc wg with_out].
    destruct (simpc s); try discriminate.
    + injection Hstep as <-. reout_run_in o.
    + injection Hstep as <-. reout_run_in o.
    + injection Hstep as <-. reout_run_in o.
    + destruct (i <? numClients (scenario pg)); injection Hstep as <-.
      * reout_run_in o.
      * exists []. cbn. rewrite !app_nil_r. split; reflexivity.
    + destruct (wg (proc s) =? 0); [|discriminate]. injection Hstep as <-.
      exists []. cbn. rewrite !app_nil_r. split; reflexivity.
    + injection Hstep as <-. reout_run_in o.
  - unfold client_step in *. cbn [proc reout tasks with_out].
    destruct (tasks (proc s) !! i) as [c|]; [|discriminate].
    destruct (c_pc c); try discriminate; injection Hstep as <-; reout_run_in o.
Qed.

Lemma without_stats_app (a b : list Event) :
  without_stats (a ++ b) = without_stats a ++ without_stats b.
Proof. apply List.filter_app. Qed.

Lemma without_stats_stats_lines (stats : DBStats) :
  without_stats (stats_lines stats) = [].
Proof. reflexivity. Qed.

(** A turn of the ticker changes nothing but the output, to which it adds
    the lines of [PrintStats]. *)
Lemma tick_only_prints (drv : Driver) (pg : Setup) (p : DBPool) (s s1 : Sys) :
  Sound p s ->
  step drv pg ActTick s = Some s1 ->
  exists l, s1 = reout (out (proc s) ++ l) s /\ without_stats l = [].
Proof.
  intros (Hp & Hv & _) Hstep. unfold step in Hstep.
  destruct (halted s) eqn:Hh; [discriminate|].
  unfold main_tick in Hstep. destruct (mainpc s) eqn:Hm; try discriminate.
  injection Hstep as <-.
  destruct (valid_pool_handle p (proc s) Hv) as (d & i & Hi & Hd).
  destruct p as [h]. cbn [DB] in Hi. subst h.
  unfold run_in, on_pool. rewrite Hp, (PrintStats_eval i d (proc s) Hd).
  exists (stats_lines (snapshot d)). split; [|apply without_stats_stats_lines].
  unfold reout, with_out. rewrite Hp, Hm, Hh. reflexivity.
Qed.

Section Ticker.
Variable drv : Driver.
Variable pg : Setup.
Variable base : Z.
Variable p : DBPool.
Hypothesis Hn : 0 <= numClients (scenario pg) < 2 ^ 31.

Lemma ticks_erased (acts : list Action) :
  forall (s s' : Sys) (o : list Event),
    Inv (numClients (scenario pg)) base s ->
    Sound p s ->
    run drv pg acts s = Some s' ->
    without_stats o = without_stats (out (proc s)) ->
    exists o',
      run drv pg (no_ticks acts) (reout o s) = Some (reout o' s') /\
      without_stats o' = without_stats (out (proc s')).
Proof.
  induction acts as [|a acts IH]; intros s s' o HI HS Hrun Ho; cbn [run] in Hrun.
  - injection Hrun as <-. exists o. split; [reflexivity | exact Ho].
  - destruct (step drv pg a s) as [s1|] eqn:Hstep; [|discriminate].
    pose proof (Inv_step drv pg base Hn s s1 a HI Hstep) as HI1.
    pose proof (Sound_step drv pg base p Hn s s1 a HI HS Hstep) as HS1.
    destruct (is_tick a) eqn:Ha.
    + destruct a; try discriminate.
      destruct (tick_only_prints drv pg p s s1 HS Hstep) as (l & -> & Hl).
      unfold no_ticks. cbn [List.filter is_tick negb]. fold (no_ticks acts).
      apply (IH _ s' o HI1 HS1 Hrun).
      cbn [reout proc with_out out]. rewrite without_stats_app, Hl, app_nil_r.
      exact Ho.
    + assert (Hm : mainpc s <> MStart).
      { destruct HS as (_ & _ & _ & _ & [Hm|Hm] & _); rewrite Hm; discriminate. }
      destruct (step_reout drv pg a s s1 o Hm Hstep) as (l & Hl & Hr).
      unfold no_ticks. cbn [List.filter]. rewrite Ha. cbn [negb]. fold (no_ticks acts).
      cbn [run]. rewrite Hr.
      apply (IH s1 s' (o ++ l) HI1 HS1 Hrun).
      rewrite Hl, !without_stats_app, Ho. reflexivity.
Qed.

End Ticker.

(** X16.  The ticker only prints.  Take any run of the process from the
    start of the simulation on an open pool, for a number of clients the
    wait group can count.  Without the turns of the ticker the same
    schedule is again a run, and it ends in the same state but for the
    output, which is the same up to the lines of [PrintStats]: the
    periodic statistics influence neither the clients, nor their
    outcomes, nor the way the process ends. *)
Theorem ticker_only_prints (drv : Driver) (pg : Setup) (p : DBPool) (w : Proc)
    (acts : list Action) (s' : Sys) :
  0 <= numClients (scenario pg) < 2 ^ 31 ->
  open_pool p w ->
  run drv pg acts (launch p w) = Some s' ->
  exists o',
    run drv pg (no_ticks acts) (launch p w) = Some (reout o' s') /\
    without_stats o' = without_stats (out (proc s')).
Proof.
  intros Hn Hopen Hrun.
  exact (ticks_erased drv pg (outcomes (out w)) p Hn acts (launch p w) s' (out w)
           (Inv_launch _ p w) (Sound_launch p w Hopen) Hrun eq_refl).
Qed.

Lemma ticker_only_prints_witness :
  exists s' o',
    run sleepyStore mainSetup
      (ActTick :: one_by_one 5 0 ++ [ActTick; ActSim; ActTick; ActRecv; ActMain])
      (launch pool0 oneHandle) = Some s' /\
    halted s' = Some (Exit 0) /\
    run sleepyStore mainSetup (one_by_one 5 0 ++ [ActSim; ActRecv; ActMain])
      (launch pool0 oneHandle) = Some (reout o' s').
Proof.
  destruct (run sleepyStore mainSetup
              (ActTick :: one_by_one 5 0 ++ [ActTick; ActSim; ActTick; ActRecv; ActMain])
              (launch pool0 oneHandle)) as [s'|] eqn:Hrun;
    [|vm_compute in Hrun; discriminate Hrun].
  assert (Hopen : open_pool pool0 oneHandle).
  { exists handle0. split; [exists 0%nat; split; reflexivity | reflexivity]. }
  destruct (ticker_only_prints sleepyStore mainSetup pool0 oneHandle _ s'
              ltac:(cbn; lia) Hopen Hrun) as (o' & Hr & _).
  exists s', o'. split; [reflexivity|]. split; [|exact Hr].
  vm_compute in Hrun. injection Hrun as <-. reflexivity.
Defined.
